(** * Cluster membership handlers of the daemon: a shallow embedding

    The handlers of [cmd/incusd/api_cluster.go] and the activation probe of
    [cmd/incusd/main_activateifneeded.go] are embedded as functions in a
    small state monad over the fields of the daemon they touch and a log of
    the calls they make to code outside those files.  The answers of that
    outside code (databases, raft gateway, network, file system) are given
    by an environment [Env]; every answer may depend on the calls made so
    far. *)

From stdpp Require Import base option list gmap strings pretty sorting.
From Stdlib Require Import ZArith Lia.

Local Open Scope Z_scope.
Local Open Scope string_scope.

(** ** Data *)

(** Go's [error] values are represented by their message. *)
Definition Error := string.

(** [time.Time] and [time.Duration], in seconds. *)
Definition Time := Z.
Definition Duration := Z.

(** [map[string]string]: a missing key reads as the empty string. *)
Definition get (m : gmap string string) (k : string) : string :=
  default "" (m !! k).

(** [api.ClusterPut]. *)
Record ClusterPut := mkClusterPut {
  ServerName : string;
  Enabled : bool;
  ClusterAddress : string;
  ClusterCertificate : string;
  ServerAddress : string;
  ClusterToken : string;
  MemberConfig : list (string * string)
}.

(** [api.ClusterMembersPost]. *)
Record ClusterMembersPost := mkClusterMembersPost {
  post_ServerName : string
}.

(** [db.ClusterMemberState*]. *)
Inductive ClusterMemberState :=
| ClusterMemberStateCreated
| ClusterMemberStatePending
| ClusterMemberStateEvacuated.

Global Instance ClusterMemberState_eq_dec : EqDecision ClusterMemberState.
Proof. solve_decision. Defined.

(** [db.NodeInfo], the fields read by the handlers. *)
Record NodeInfo := mkNodeInfo {
  node_ID : Z;
  node_Name : string;
  node_Address : string;
  node_State : ClusterMemberState;
  node_Heartbeat : Time
}.

(** [db.RaftRole]. *)
Inductive RaftRole := RaftVoter | RaftStandBy | RaftSpare.

Global Instance RaftRole_eq_dec : EqDecision RaftRole.
Proof. solve_decision. Defined.

(** [db.RaftNode]. *)
Record RaftNode := mkRaftNode {
  raft_ID : Z;
  raft_Address : string;
  raft_Role : RaftRole;
  raft_Name : string
}.

Global Instance RaftNode_eq_dec : EqDecision RaftNode.
Proof. solve_decision. Defined.

Definition set_Role (n : RaftNode) (role : RaftRole) : RaftNode :=
  mkRaftNode (raft_ID n) (raft_Address n) role (raft_Name n).

(** Values of type [any] stored in operation metadata. *)
Inductive Any :=
| AString (s : string)
| AStrings (l : list string)
| ATime (t : Time).

(** [api.StatusCode], the codes of operations. *)
Inductive StatusCode := Pending | Running | Cancelled | Success | Failure.

Global Instance StatusCode_eq_dec : EqDecision StatusCode.
Proof. solve_decision. Defined.

(** [operations.OperationClass]. *)
Inductive OperationClass :=
| OperationClassTask | OperationClassWebsocket | OperationClassToken.

Global Instance OperationClass_eq_dec : EqDecision OperationClass.
Proof. solve_decision. Defined.

(** [operationtype.Type], the types used by the cluster handlers. *)
Inductive OperationType :=
| ClusterBootstrap | ClusterJoin | ClusterJoinToken | OtherOperation.

Global Instance OperationType_eq_dec : EqDecision OperationType.
Proof. solve_decision. Defined.

(** The [run] hook of an operation.  The hooks of the bootstrap and join
    operations are closures over the request; they run after the handler
    has returned and are kept as data. *)
Inductive OpRun :=
| RunNone
| RunBootstrap (req : ClusterPut)
| RunJoin (req : ClusterPut).

(** An operation, [operations.Operation] and its [api.Operation] view. *)
Record Operation := mkOperation {
  op_ID : string;
  op_Project : string;
  op_Class : OperationClass;
  op_Type : OperationType;
  op_StatusCode : StatusCode;
  op_Metadata : gmap string Any;
  op_Run : OpRun
}.

Definition set_StatusCode (op : Operation) (c : StatusCode) : Operation :=
  mkOperation (op_ID op) (op_Project op) (op_Class op) (op_Type op) c
    (op_Metadata op) (op_Run op).

(** [api.ProjectDefaultName]. *)
Definition ProjectDefaultName : string := "default".

(** An incoming [http.Request]: its identity (which names its context),
    body, form values and path variables. *)
Record Request := mkRequest {
  r_ID : nat;
  r_Body : string;
  r_Form : gmap string string;
  r_Vars : gmap string string
}.

Definition FormValue (r : Request) (k : string) : string := get (r_Form r) k.

(** [internalRaftNode] has the fields of [db.RaftNode], the role as an
    [int]; the conversion is the identity on the three roles. *)
Definition internalRaftNode := RaftNode.

(** [internalClusterPostAcceptRequest]. *)
Record internalClusterPostAcceptRequest := mkAcceptRequest {
  acc_Name : string;
  acc_Address : string;
  acc_Schema : Z;
  acc_API : Z;
  acc_StoragePools : list string;
  acc_Networks : list string;
  acc_Architecture : Z
}.

(** [internalClusterPostAcceptResponse]. *)
Record internalClusterPostAcceptResponse := mkAcceptResponse {
  acc_RaftNodes : list internalRaftNode;
  acc_PrivateKey : string
}.

(** [internalClusterPostAssignRequest]. *)
Record internalClusterPostAssignRequest := mkAssignRequest {
  assign_RaftNodes : list internalRaftNode
}.

(** [internalClusterPostHandoverRequest]. *)
Record internalClusterPostHandoverRequest := mkHandoverRequest {
  handover_Address : string
}.

(** The responses built by the handlers ([response.*]).
    [ManualResponseFlush] is the [response.ManualResponse] that renders
    [EmptySyncResponse] and flushes the writer. *)
Inductive Response :=
| BadRequest (err : Error)
| SmartError (err : Error)
| InternalError (err : Error)
| SyncResponseRedirect (url : string)
| SyncResponse (success : bool) (metadata : option internalClusterPostAcceptResponse)
| EmptySyncResponse
| ManualResponseFlush
| OperationResponse (op : Operation).

Definition is_error_response (resp : Response) : bool :=
  match resp with
  | BadRequest _ | SmartError _ | InternalError _ => true
  | _ => false
  end.

Definition is_operation_response (resp : Response) : bool :=
  match resp with
  | OperationResponse _ => true
  | _ => false
  end.

(** [instance.Instance], as far as the activation probe looks at it. *)
Record Instance := mkInstance {
  inst_Name : string;
  inst_ExpandedConfig : gmap string string;
  inst_IsRunning : bool
}.

(** [db.StorageVolumeArgs], as far as the activation probe looks at it. *)
Record StorageVolumeArgs := mkStorageVolumeArgs {
  vol_Name : string;
  vol_Config : gmap string string
}.

(** The two database handles. *)
Inductive DB := NodeDB | ClusterDB.

(** The process-wide mutexes. *)
Inductive Mutex :=
| clusterPutDisableMu
| clusterNodesPostMu
| clusterMembershipMutex
| globalConfigMu.

(** Goroutines started by the handlers. *)
Inductive Goroutine :=
| GoRestartAfter (r : Request)
| GoUnlockAfter (r : Request).

(** Lifecycle events sent by the handlers. *)
Inductive Lifecycle :=
| ClusterEnabled (name : string)
| ClusterDisabled (name : string)
| ClusterMemberAdded (name : string)
| ClusterMemberRemoved (name : string)
| ClusterTokenCreated.

(** ** The log of calls *)

(** One constructor per call that leaves the modelled files, with its
    arguments and its answer. *)
Inductive Event :=
| EvTxBegin (db : DB) (res : option Error)
| EvTxCommit (db : DB) (res : option Error)
| EvConfigLoad (res : Error + gmap string string)
| EvConfigPatch (patch : list (string * string)) (res : option Error)
| EvClusterDBClose (res : option Error)
| EvPathExists (path : string) (res : bool)
| EvRemove (path : string) (res : option Error)
| EvLoadCert (res : Error + string)
| EvGatewayReset (cert : string) (res : option Error)
| EvGatewayKill
| EvSendLifecycle (l : Lifecycle)
| EvGo (g : Goroutine)
| EvLock (mu : Mutex)
| EvUnlock (mu : Mutex)
| EvOperationCreate (res : Error + Operation)
| EvUserAgentFeatures (features : list string)
| EvNetworkUpdateAddress (address : string) (res : option Error)
| EvClusterUpdateAddress (address : string) (res : option Error)
| EvGetNodes (res : Error + list NodeInfo)
| EvOperationsGetByType (t : OperationType) (res : Error + list Operation)
| EvOperationCancel (op : Operation) (res : option Error)
| EvRandomHexString (res : Error + string)
| EvCertFingerprint (res : Error + string)
| EvLeaderAddress (res : Error + string)
| EvCheckStoragePoolsMatch (res : option Error)
| EvCheckNetworksMatch (res : option Error)
| EvAccept (req : internalClusterPostAcceptRequest) (res : Error + list RaftNode)
| EvShutdownCtxErr (res : bool)
| EvRebalance (res : Error + (string * list RaftNode))
| EvHasConnectivity (address : string) (res : bool)
| EvDemoteOfflineNode (id : Z) (res : option Error)
| EvConnect (address : string) (notify : bool) (res : option Error)
| EvRawQuery (address method path : string)
    (post : list RaftNode + string) (res : option Error)
| EvTransferLeadership (res : option Error)
| EvHandover (address : string) (res : Error + (string * list RaftNode))
| EvGetNodeByAddress (address : string) (res : Error + NodeInfo)
| EvGetRaftNodes (res : Error + list RaftNode)
| EvDeleteClusterMember (leader name : string) (force pending : bool)
    (res : option Error)
| EvWaitLeadership (res : option Error)
| EvUpdateCertificateCache
| EvAutoSyncImages (res : option Error)
| EvLeave (name : string) (force pending : bool) (res : Error + string)
| EvGetProjectNames (res : Error + list string)
| EvGetNetworks (project : string) (res : Error + list string)
| EvDeleteNetwork (address project name : string) (res : option Error)
| EvGetStoragePoolNames (res : Error + list string)
| EvDeleteStoragePool (address name : string) (res : option Error)
| EvPurge (name : string) (pending : bool) (res : option Error)
| EvUpdateCluster (address : string) (put : ClusterPut) (res : option Error)
| EvGeteuid (res : Z)
| EvSqlOpen (driver path : string) (res : option Error)
| EvSqlClose
| EvForLocalInspection (res : option Error)
| EvLoadNodeAll (res : Error + list Instance)
| EvGetStoragePoolVolumesWithType (res : Error + list StorageVolumeArgs)
| EvConnectIncusUnix (res : option Error).

(** The log, most recent call first. *)
Definition Log := list Event.

(** ** The daemon and the monad of handlers *)

(** The fields of [Daemon] that the handlers read or write, the cluster's
    operations by ID, and the log. *)
Record Daemon := mkDaemon {
  serverName : string;
  serverClustered : bool;
  systemdSocketActivated : bool;
  localConfig : gmap string string;
  operations : gmap string Operation;
  log : Log
}.

Definition M (A : Type) : Type := Daemon -> A * Daemon.

Definition ret {A} (a : A) : M A := fun d => (a, d).

Definition bind {A B} (m : M A) (k : A -> M B) : M B :=
  fun d => let (a, d') := m d in k a d'.

Declare Scope daemon_scope.
Delimit Scope daemon_scope with daemon.
Notation "'let*' x := c 'in' k" := (bind c (fun x => k))
  (at level 10, x pattern, c at level 100, k at level 200) : daemon_scope.
Notation "c ;; k" := (bind c (fun _ => k))
  (at level 100, k at level 200, right associativity) : daemon_scope.
Local Open Scope daemon_scope.

Definition emit (e : Event) : M unit :=
  fun d => (tt, mkDaemon (serverName d) (serverClustered d)
                  (systemdSocketActivated d) (localConfig d) (operations d)
                  (e :: log d)).

(** A call to the outside: the answer is read from the environment at the
    current log, and the call is logged with it. *)
Definition call {A} (answer : Log -> A) (ev : A -> Event) : M A :=
  fun d => let a := answer (log d) in
           let (_, d') := emit (ev a) d in (a, d').

Definition set_localConfig (c : gmap string string) : M unit :=
  fun d => (tt, mkDaemon (serverName d) (serverClustered d)
                  (systemdSocketActivated d) c (operations d) (log d)).

Definition set_operations (ops : gmap string Operation) : M unit :=
  fun d => (tt, mkDaemon (serverName d) (serverClustered d)
                  (systemdSocketActivated d) (localConfig d) ops (log d)).

Definition get_daemon : M Daemon := fun d => (d, d).

(** [if err != nil { return h(err) }] for a call that yields a value. *)
Definition orReturn {A R} (c : M (Error + A)) (h : Error -> R)
    (k : A -> M R) : M R :=
  let* x := c in
  match x with
  | inl err => ret (h err)
  | inr a => k a
  end.

(** [if err != nil { return h(err) }] for a call that yields only an error. *)
Definition check {R} (c : M (option Error)) (h : Error -> R)
    (k : M R) : M R :=
  let* x := c in
  match x with
  | Some err => ret (h err)
  | None => k
  end.

Notation "'try' x := c 'else' h 'in' k" := (orReturn c h (fun x => k))
  (at level 10, x pattern, c at level 100, h at level 9, k at level 200)
  : daemon_scope.
Notation "'ensure' c 'else' h 'in' k" := (check c h k)
  (at level 10, c at level 100, h at level 9, k at level 200)
  : daemon_scope.

(** [fmt.Errorf("...: %w", err)]. *)
Definition wrap (msg : string) (err : Error) : Error := msg ++ ": " ++ err.

(** ** The environment *)

(** What the handlers take from outside the modelled files.  The first
    group are pure functions and constants declared elsewhere in the
    repository; the second group are the answers of stateful calls, each a
    function of the log at the time of the call. *)
Record Env := mkEnv {
  (* decoding of request bodies, [json.NewDecoder(r.Body).Decode] *)
  json_ClusterPut : string -> Error + ClusterPut;
  json_ClusterMembersPost : string -> Error + ClusterMembersPost;
  json_AcceptRequest : string -> Error + internalClusterPostAcceptRequest;
  json_HandoverRequest : string -> Error + internalClusterPostHandoverRequest;
  (* constants and pure helpers *)
  targetGroupPrefix : string;
  VarDir : string;
  IsWildCardAddress : string -> bool;
  IsListenAddress : string -> option Error;
  IsAddressCovered : string -> string -> bool;
  GetExpiry : Time -> string -> Error + Time;
  Atoi : string -> Error + Z;
  PathUnescape : string -> Error + string;
  IsNotFoundError : Error -> bool;
  IsTrue : string -> bool;
  PowerStateRunning : string;
  LocalDatabasePath : string;
  GlobalDatabasePath : string;
  ClusterJoinTokenExpiry : string;
  OfflineThreshold : Duration;
  NetworkPrivateKey : string;
  (* stateful calls *)
  time_Now : Log -> Time;
  txBegin : DB -> Log -> option Error;
  txCommit : DB -> Log -> option Error;
  ConfigLoad : Log -> Error + gmap string string;
  ConfigPatch : list (string * string) -> Log -> option Error;
  ClusterDBClose : Log -> option Error;
  PathExists : string -> Log -> bool;
  Remove : string -> Log -> option Error;
  LoadCert : Log -> Error + string;
  GatewayReset : string -> Log -> option Error;
  newOperationID : Log -> Error + string;
  NetworkUpdateAddress : string -> Log -> option Error;
  ClusterUpdateAddress : string -> Log -> option Error;
  GetNodes : Log -> Error + list NodeInfo;
  operationsGetByTypeErr : Log -> option Error;
  operationCancelErr : Operation -> Log -> option Error;
  RandomHexString : Log -> Error + string;
  CertFingerprintStr : Log -> Error + string;
  LeaderAddress : Log -> Error + string;
  CheckStoragePoolsMatch : list string -> Log -> option Error;
  CheckNetworksMatch : list string -> Log -> option Error;
  Accept : internalClusterPostAcceptRequest -> Log -> Error + list RaftNode;
  ShutdownCtxErr : Log -> bool;
  Rebalance : Log -> Error + (string * list RaftNode);
  HasConnectivity : string -> Log -> bool;
  DemoteOfflineNode : Z -> Log -> option Error;
  Connect : string -> bool -> Log -> option Error;
  RawQuery : string -> string -> string -> list RaftNode + string ->
             Log -> option Error;
  TransferLeadership : Log -> option Error;
  Handover : string -> Log -> Error + (string * list RaftNode);
  GetNodeByAddress : string -> Log -> Error + NodeInfo;
  GetRaftNodes : Log -> Error + list RaftNode;
  DeleteClusterMember : string -> string -> bool -> bool -> Log -> option Error;
  WaitLeadership : Log -> option Error;
  autoSyncImages : Log -> option Error;
  Leave : string -> bool -> bool -> Log -> Error + string;
  GetProjectNames : Log -> Error + list string;
  GetNetworks : string -> Log -> Error + list string;
  DeleteNetwork : string -> string -> string -> Log -> option Error;
  GetStoragePoolNames : Log -> Error + list string;
  DeleteStoragePool : string -> string -> Log -> option Error;
  Purge : string -> bool -> Log -> option Error;
  UpdateCluster : string -> ClusterPut -> Log -> option Error;
  Geteuid : Log -> Z;
  sql_Open : string -> string -> Log -> option Error;
  ForLocalInspectionWithPreparedStmts : Log -> option Error;
  LoadNodeAll : Log -> Error + list Instance;
  GetStoragePoolVolumesWithType : Log -> Error + list StorageVolumeArgs;
  ConnectIncusUnix : Log -> option Error
}.

(** Modelled from the spec: the accessors of [node.Config] (package
    [internal/server/node]) read the keys [cluster.https_address] and
    [core.https_address] of the node-local configuration. *)
Definition config_ClusterAddress (c : gmap string string) : string :=
  get c "cluster.https_address".

Definition config_HTTPSAddress (c : gmap string string) : string :=
  get c "core.https_address".

Global Arguments config_ClusterAddress : simpl never.
Global Arguments config_HTTPSAddress : simpl never.

(** [config.Patch] on a configuration held as a map. *)
Definition patch_config (patch : list (string * string))
    (c : gmap string string) : gmap string string :=
  foldl (fun m kv => <[kv.1 := kv.2]> m) c patch.

Section Handlers.

Variable env : Env.

(** [db.Transaction]: begin, run the closure, commit when it succeeded. *)
Definition Transaction {A} (db : DB) (f : M (Error + A)) : M (Error + A) :=
  let* b := call (txBegin env db) (EvTxBegin db) in
  match b with
  | Some err => ret (inl err)
  | None =>
      let* x := f in
      match x with
      | inl err => ret (inl err)
      | inr a =>
          let* c := call (txCommit env db) (EvTxCommit db) in
          match c with
          | Some err => ret (inl err)
          | None => ret (inr a)
          end
      end
  end.

(** Modelled from the spec: [operations.OperationCreate] (package
    [internal/server/operations]) records a new operation, in state
    pending, under a fresh ID. *)
Definition OperationCreate (project : string) (class : OperationClass)
    (type : OperationType) (meta : gmap string Any) (run : OpRun)
    : M (Error + Operation) :=
  let* d := get_daemon in
  match newOperationID env (log d) with
  | inl err => emit (EvOperationCreate (inl err));; ret (inl err)
  | inr id =>
      let op := mkOperation id project class type Pending meta run in
      set_operations (<[id := op]> (operations d));;
      emit (EvOperationCreate (inr op));;
      ret (inr op)
  end.

(** Modelled from the spec: rendering an [operations.OperationResponse]
    starts the operation, which moves it to state running. *)
Definition Start (op : Operation) (ops : gmap string Operation)
    : gmap string Operation :=
  <[op_ID op := set_StatusCode op Running]> ops.

(** *** [PUT /1.0/cluster] *)

(** The loop of [clusterPutDisable] over the cluster certificate files. *)
Fixpoint removeClusterFiles (suffixes : list string) : M (option Error) :=
  match suffixes with
  | [] => ret None
  | suffix :: rest =>
      let path := VarDir env ++ "/cluster." ++ suffix in
      let* exists_ := call (PathExists env path) (EvPathExists path) in
      if negb exists_ then removeClusterFiles rest
      else
        let* err := call (Remove env path) (EvRemove path) in
        match err with
        | Some e => ret (Some e)
        | None => removeClusterFiles rest
        end
  end.

Definition clusterPutDisable (r : Request) (req : ClusterPut) : M Response :=
  (* Close the cluster database *)
  ensure call (ClusterDBClose env) EvClusterDBClose else SmartError in
  (* Update our TLS configuration using our original certificate. *)
  ensure removeClusterFiles ["crt"; "key"; "ca"] else InternalError in
  try networkCert := call (LoadCert env) EvLoadCert
    else (fun err => InternalError
            (wrap "Failed to parse member certificate" err)) in
  (* Reset the cluster database and make it local to this node. *)
  ensure call (GatewayReset env networkCert) (EvGatewayReset networkCert)
    else SmartError in
  emit (EvSendLifecycle (ClusterDisabled (ServerName req)));;
  (* Stop database cluster connection. *)
  emit EvGatewayKill;;
  emit (EvGo (GoRestartAfter r));;
  ret ManualResponseFlush.

Definition clusterPutBootstrap (r : Request) (req : ClusterPut) : M Response :=
  (* If there's no cluster.https_address set, but core.https_address is,
     let's default to it. *)
  try config := Transaction NodeDB (
      try config := call (ConfigLoad env) EvConfigLoad
        else (fun err => inl
                (wrap "Failed to fetch member configuration" err)) in
      let localClusterAddress := config_ClusterAddress config in
      if negb (String.eqb localClusterAddress "") then ret (inr config)
      else
        let localHTTPSAddress := config_HTTPSAddress config in
        if IsWildCardAddress env localHTTPSAddress then
          ret (inl "Cannot use wildcard core.https_address for cluster.https_address")
        else
          let patch := [("cluster.https_address", localHTTPSAddress)] in
          ensure call (ConfigPatch env patch) (EvConfigPatch patch)
            else (fun err => inl
                    (wrap "Copy core.https_address to cluster.https_address" err)) in
          ret (inr (patch_config patch config)))
    else SmartError in
  (* Update local config cache. *)
  emit (EvLock globalConfigMu);;
  set_localConfig config;;
  emit (EvUnlock globalConfigMu);;
  try op := OperationCreate "" OperationClassTask ClusterBootstrap ∅
              (RunBootstrap req)
    else InternalError in
  (* Add the cluster flag from the agent *)
  emit (EvUserAgentFeatures ["cluster"]);;
  ret (OperationResponse op).

(** The two transactions of [clusterPutJoin] that record the server
    address in the node-local configuration. *)
Definition patchLocalConfig (patch : list (string * string))
    : M (Error + gmap string string) :=
  Transaction NodeDB (
    try config := call (ConfigLoad env) EvConfigLoad
      else (fun err => inl (wrap "Failed to load cluster config" err)) in
    ensure call (ConfigPatch env patch) (EvConfigPatch patch) else inl in
    ret (inr (patch_config patch config))).

Definition clusterPutJoin (r : Request) (req : ClusterPut) : M Response :=
  let* s := get_daemon in
  (* Make sure basic pre-conditions are met. *)
  if String.eqb (ClusterCertificate req) "" then
    ret (BadRequest "No target cluster member certificate provided")
  else if serverClustered s then
    ret (BadRequest "This server is already clustered")
  else if String.eqb (ServerAddress req) "" then
    ret (BadRequest "No server address provided for this member")
  else
  match IsListenAddress env (ServerAddress req) with
  | Some err => ret (BadRequest (wrap "Invalid server address" err))
  | None =>
  let create :=
    try op := OperationCreate "" OperationClassTask ClusterJoin ∅ (RunJoin req)
      else InternalError in
    ret (OperationResponse op) in
  (* Verify provided address against cluster.https_address if set. *)
  let localHTTPSAddress := config_ClusterAddress (localConfig s) in
  if negb (String.eqb localHTTPSAddress "") then
    if negb (IsAddressCovered env (ServerAddress req) localHTTPSAddress) then
      ret (BadRequest "Server address is not covered by cluster.https_address")
    else create
  else
    (* If cluster.https_address is not set, check against core.https_address *)
    let localHTTPSAddress := config_HTTPSAddress (localConfig s) in
    let update (config : gmap string string) :=
      (* Update local config cache. *)
      emit (EvLock globalConfigMu);;
      set_localConfig config;;
      emit (EvUnlock globalConfigMu);;
      create in
    if String.eqb localHTTPSAddress "" then
      ensure call (NetworkUpdateAddress env (ServerAddress req))
               (EvNetworkUpdateAddress (ServerAddress req))
        else SmartError in
      try config := patchLocalConfig
                      [("core.https_address", ServerAddress req);
                       ("cluster.https_address", ServerAddress req)]
        else SmartError in
      update config
    else
      let listen :=
        if negb (IsAddressCovered env (ServerAddress req) localHTTPSAddress)
        then call (ClusterUpdateAddress env (ServerAddress req))
               (EvClusterUpdateAddress (ServerAddress req))
        else ret None in
      ensure listen else SmartError in
      (* Update the cluster.https_address config key. *)
      try config := patchLocalConfig
                      [("cluster.https_address", ServerAddress req)]
        else SmartError in
      update config
  end.

Definition clusterPut (r : Request) : M Response :=
  (* Parse the request *)
  match json_ClusterPut env (r_Body r) with
  | inl err => ret (BadRequest err)
  | inr req =>
  (* Quick checks. *)
  if String.eqb (ServerName req) "" && Enabled req then
    ret (BadRequest "ServerName is required when enabling clustering")
  else if negb (String.eqb (ServerName req) "") && negb (Enabled req) then
    ret (BadRequest "ServerName must be empty when disabling clustering")
  else if negb (String.eqb (ServerName req) "")
          && String.prefix (targetGroupPrefix env) (ServerName req) then
    ret (BadRequest "ServerName may not start with the target group prefix")
  (* Disable clustering. *)
  else if negb (Enabled req) then clusterPutDisable r req
  (* Depending on the provided parameters we either bootstrap a brand new
     cluster with this node as first node, or perform a request to join a
     given cluster. *)
  else if String.eqb (ClusterAddress req) "" then clusterPutBootstrap r req
  else clusterPutJoin r req
  end.

(** *** [POST /1.0/cluster/members] *)

(** Modelled from the spec: [NodeInfo.IsOffline] (package
    [internal/server/db]): a member is offline when
    [now - heartbeat_at > offline_threshold]. *)
Definition IsOffline (now : Time) (member : NodeInfo) (threshold : Duration)
    : bool :=
  bool_decide (threshold < now - node_Heartbeat member).

(** The loop over the members inside the transaction of
    [clusterNodesPost]; [onlineNodeAddresses] is the slice appended to. *)
Fixpoint filterOnline (now : Time) (serverName : string)
    (members : list NodeInfo) (onlineNodeAddresses : list string)
    : Error + list string :=
  match members with
  | [] => inr onlineNodeAddresses
  | member :: rest =>
      (* Verify if a node with the same name already exists in the cluster. *)
      if String.eqb (node_Name member) serverName then
        inl ("The cluster already has a member with name: " ++ serverName)
      else if bool_decide (node_State member = ClusterMemberStateEvacuated)
              || IsOffline now member (OfflineThreshold env) then
        filterOnline now serverName rest onlineNodeAddresses
      else
        filterOnline now serverName rest
          (onlineNodeAddresses ++ [node_Address member])
  end.

(** Modelled from the spec: [operationsGetByType] (file
    [cmd/incusd/operations.go]) lists the operations of one project and
    type that exist in the cluster. *)
Definition operationsGetByType (project : string) (t : OperationType)
    : M (Error + list Operation) :=
  let* d := get_daemon in
  match operationsGetByTypeErr env (log d) with
  | Some err => emit (EvOperationsGetByType t (inl err));; ret (inl err)
  | None =>
      let ops :=
        filter (fun op => op_Project op = project /\ op_Type op = t)
          (map snd (map_to_list (operations d))) in
      emit (EvOperationsGetByType t (inr ops));; ret (inr ops)
  end.

(** Modelled from the spec: [operationCancel] (file
    [cmd/incusd/operations.go]) cancels the operation with the ID of [op],
    wherever in the cluster it lives. *)
Definition operationCancel (op : Operation) : M (option Error) :=
  let* d := get_daemon in
  match operationCancelErr env op (log d) with
  | Some err => emit (EvOperationCancel op (Some err));; ret (Some err)
  | None =>
      set_operations
        (alter (fun o => set_StatusCode o Cancelled) (op_ID op) (operations d));;
      emit (EvOperationCancel op None);; ret None
  end.

(** [opServerName == req.ServerName] on a metadata value of type [any]. *)
Definition any_eq_string (a : Any) (s : string) : bool :=
  match a with
  | AString s' => String.eqb s' s
  | _ => false
  end.

(** The loop of [clusterNodesPost] over the existing join tokens. *)
Fixpoint cancelDuplicates (serverName : string) (ops : list Operation)
    : M (option Error) :=
  match ops with
  | [] => ret None
  | op :: rest =>
      if negb (bool_decide (op_StatusCode op = Running)) then
        (* Tokens are single use, so if cancelled but not deleted yet its
           not available. *)
        cancelDuplicates serverName rest
      else
        match op_Metadata op !! "serverName" with
        | None => cancelDuplicates serverName rest
        | Some opServerName =>
            if any_eq_string opServerName serverName then
              (* Join token operation matches requested server name, so
                 lets cancel it. *)
              let* err := operationCancel op in
              match err with
              | Some e =>
                  ret (Some (wrap ("Failed to cancel operation " ++ op_ID op) e))
              | None => cancelDuplicates serverName rest
              end
            else cancelDuplicates serverName rest
        end
  end.

(** [mu.Lock(); defer mu.Unlock()] around the rest of a function. *)
Definition locked {A} (mu : Mutex) (body : M A) : M A :=
  emit (EvLock mu);;
  let* a := body in
  emit (EvUnlock mu);;
  ret a.

Definition joinTokenMetadata (serverName secret fingerprint : string)
    (addresses : list string) (expiry : Time) : gmap string Any :=
  <["serverName" := AString serverName]>
  (<["secret" := AString secret]>
  (<["fingerprint" := AString fingerprint]>
  (<["addresses" := AStrings addresses]>
  (<["expiresAt" := ATime expiry]> ∅)))).

Definition clusterNodesPost (r : Request) : M Response :=
  let* s := get_daemon in
  (* Parse the request. *)
  match json_ClusterMembersPost env (r_Body r) with
  | inl err => ret (BadRequest err)
  | inr req =>
  if negb (serverClustered s) then
    ret (BadRequest "This server is not clustered")
  else
  match GetExpiry env (time_Now env (log s)) (ClusterJoinTokenExpiry env) with
  | inl err => ret (BadRequest err)
  | inr expiry =>
  (* Get target addresses for existing online members. *)
  try onlineNodeAddresses := Transaction ClusterDB (
      (* Get the nodes. *)
      try members := call (GetNodes env) EvGetNodes
        else (fun err => inl (wrap "Failed getting cluster members" err)) in
      (* Filter to online members. *)
      let* d := get_daemon in
      ret (filterOnline (time_Now env (log d)) (post_ServerName req) members []))
    else SmartError in
  if bool_decide (length onlineNodeAddresses < 1)%nat then
    ret (InternalError "There are no online cluster members")
  else
  (* Lock to prevent concurrent requests racing the operationsGetByType
     function and creating duplicates. *)
  locked clusterNodesPostMu (
    (* Remove any existing join tokens for the requested cluster member. *)
    try ops := operationsGetByType ProjectDefaultName ClusterJoinToken
      else (fun err => InternalError
              (wrap "Failed getting cluster join token operations" err)) in
    ensure cancelDuplicates (post_ServerName req) ops else InternalError in
    (* Generate join secret for new member. *)
    try joinSecret := call (RandomHexString env) EvRandomHexString
      else InternalError in
    (* Generate fingerprint of network certificate. *)
    try fingerprint := call (CertFingerprintStr env) EvCertFingerprint
      else InternalError in
    let meta := joinTokenMetadata (post_ServerName req) joinSecret fingerprint
                  onlineNodeAddresses expiry in
    try op := OperationCreate ProjectDefaultName OperationClassToken
                ClusterJoinToken meta RunNone
      else InternalError in
    emit (EvSendLifecycle ClusterTokenCreated);;
    ret (OperationResponse op))
  end end.

(** *** Internal endpoints: accept, rebalance, handover *)

(** [url.URL{Scheme, Path, Host}.String()]. *)
Definition url_String (scheme host path : string) : string :=
  scheme ++ "://" ++ host ++ path.

Definition internalClusterPostAccept (r : Request) : M Response :=
  let* s := get_daemon in
  (* Parse the request *)
  match json_AcceptRequest env (r_Body r) with
  | inl err => ret (BadRequest err)
  | inr req =>
  (* Quick checks. *)
  if String.eqb (acc_Name req) "" then ret (BadRequest "No name provided")
  else
  (* Redirect all requests to the leader, which is the one knowing what
     nodes are part of the raft cluster. *)
  let localClusterAddress := config_ClusterAddress (localConfig s) in
  try leader := call (LeaderAddress env) EvLeaderAddress else InternalError in
  if negb (String.eqb localClusterAddress leader) then
    if String.eqb leader "" then
      ret (SmartError "Unable to find leader address")
    else
      ret (SyncResponseRedirect
             (url_String "https" leader "/internal/cluster/accept"))
  else
  (* Get lock now we are on leader. *)
  locked clusterMembershipMutex (
    (* Make sure we have all the expected storage pools. *)
    ensure call (CheckStoragePoolsMatch env (acc_StoragePools req))
             EvCheckStoragePoolsMatch
      else SmartError in
    (* Make sure we have all the expected networks. *)
    ensure call (CheckNetworksMatch env (acc_Networks req))
             EvCheckNetworksMatch
      else SmartError in
    try nodes := call (Accept env req) (EvAccept req) else BadRequest in
    let accepted := mkAcceptResponse nodes (NetworkPrivateKey env) in
    ret (SyncResponse true (Some accepted)))
  end.

(** Post a change role request to the member with the given address. *)
Definition changeMemberRole (address : string) (nodes : list RaftNode)
    : M (option Error) :=
  let post : list internalRaftNode := nodes in
  ensure call (Connect env address true) (EvConnect address true)
    else Some in
  ensure call (RawQuery env address "POST" "/internal/cluster/assign" (inl post))
           (EvRawQuery address "POST" "/internal/cluster/assign" (inl post))
    else Some in
  ret None.

(** How the [for] loop of [rebalanceMemberRoles] is left. *)
Inductive LoopExit :=
| ExitReturn (err : option Error)
| ExitBreak
| ExitAgain.

(** The loop of [rebalanceMemberRoles] over the raft nodes: process
    demotions of offline nodes immediately. *)
Fixpoint processDemotions (address : string) (nodes : list RaftNode)
    : M LoopExit :=
  match nodes with
  | [] => ret ExitBreak
  | node :: rest =>
      if negb (String.eqb (raft_Address node) address) then
        processDemotions address rest
      else
        let* reachable :=
          call (HasConnectivity env address) (EvHasConnectivity address) in
        if negb (bool_decide (raft_Role node = RaftSpare)) then
          if negb reachable then
            (* The server isn't ready to be promoted yet, try again next
               time. *)
            ret (ExitReturn None)
          else ret ExitBreak
        else if reachable then
          (* Don't demote reachable servers. *)
          ret ExitBreak
        else
          let* err := call (DemoteOfflineNode env (raft_ID node))
                        (EvDemoteOfflineNode (raft_ID node)) in
          match err with
          | Some e =>
              ret (ExitReturn
                     (Some (wrap ("Failed to demote cluster member "
                                  ++ raft_Name node) e)))
          | None => ret ExitAgain
          end
  end.

(** The body of [rebalanceMemberRoles] from the label [again]; every
    [goto again] uses one unit of [fuel], and [None] is returned when it
    runs out. *)
Fixpoint rebalanceAgain (fuel : nat) : M (option (option Error)) :=
  match fuel with
  | O => ret None
  | S fuel' =>
      let* res := call (Rebalance env) EvRebalance in
      match res with
      | inl err => ret (Some (Some err))
      | inr (address, nodes) =>
          if String.eqb address "" then
            (* Nothing to do. *)
            ret (Some None)
          else
            let* exit_ := processDemotions address nodes in
            match exit_ with
            | ExitReturn err => ret (Some err)
            | ExitAgain => rebalanceAgain fuel'
            | ExitBreak =>
                (* Then handle the promotions. *)
                let* err := changeMemberRole address nodes in
                match err with
                | Some e => ret (Some (Some e))
                | None => rebalanceAgain fuel'
                end
            end
      end
  end.

(** Check if there's a dqlite node whose role should be changed, and post
    a change role request if so. *)
Definition rebalanceMemberRoles (fuel : nat) : M (option (option Error)) :=
  let* down := call (ShutdownCtxErr env) EvShutdownCtxErr in
  if down then ret (Some None) else rebalanceAgain fuel.

Definition internalClusterPostRebalance (fuel : nat) (r : Request)
    : M (option Response) :=
  let* s := get_daemon in
  (* Redirect all requests to the leader, which is the one with with
     up-to-date knowledge of what nodes are part of the raft cluster. *)
  let localClusterAddress := config_ClusterAddress (localConfig s) in
  let* leader := call (LeaderAddress env) EvLeaderAddress in
  match leader with
  | inl err => ret (Some (InternalError err))
  | inr leader =>
  if negb (String.eqb localClusterAddress leader) then
    ret (Some (SyncResponseRedirect
                 (url_String "https" leader "/internal/cluster/rebalance")))
  else
  (* Get lock now we are on leader. *)
  locked clusterMembershipMutex (
    let* res := rebalanceMemberRoles fuel in
    match res with
    | None => ret None
    | Some (Some err) => ret (Some (SmartError err))
    | Some None => ret (Some (SyncResponse true None))
    end)
  end.

(** The body of [handoverMemberRole] from the label [findLeader]; every
    [goto findLeader] uses one unit of [fuel]. *)
Fixpoint findLeader (fuel : nat) (localClusterAddress : string)
    : M (option (option Error)) :=
  match fuel with
  | O => ret None
  | S fuel' =>
      let post := handover_Address (mkHandoverRequest localClusterAddress) in
      let* res := call (LeaderAddress env) EvLeaderAddress in
      match res with
      | inl err => ret (Some (Some err))
      | inr leader =>
          if String.eqb leader "" then
            ret (Some (Some "No leader address found"))
          else if String.eqb leader localClusterAddress then
            let* err := call (TransferLeadership env) EvTransferLeadership in
            match err with
            | Some e =>
                ret (Some (Some (wrap "Failed to transfer leadership" e)))
            | None => findLeader fuel' localClusterAddress
            end
          else
            let* err := call (Connect env leader true) (EvConnect leader true) in
            match err with
            | Some e =>
                ret (Some (Some
                       (wrap "Failed handing over cluster member role" e)))
            | None =>
                let* err :=
                  call (RawQuery env leader "POST" "/internal/cluster/handover"
                          (inr post))
                    (EvRawQuery leader "POST" "/internal/cluster/handover"
                       (inr post)) in
                ret (Some err)
            end
      end
  end.

(** Try to handover the role of this member to another one. *)
Definition handoverMemberRole (fuel : nat) : M (option (option Error)) :=
  let* s := get_daemon in
  (* If we aren't clustered, there's nothing to do. *)
  if negb (serverClustered s) then ret (Some None)
  else
    (* Figure out our own cluster address. *)
    findLeader fuel (config_ClusterAddress (localConfig s)).

(** [nodes[i].Role = db.RaftSpare] for the member that is handing over. *)
Definition demoteDeparting (address : string) (nodes : list RaftNode)
    : list RaftNode :=
  map (fun node =>
         if String.eqb (raft_Address node) address
         then set_Role node RaftSpare else node) nodes.

(** Used to to transfer the responsibilities of a member to another one. *)
Definition internalClusterPostHandover (r : Request) : M Response :=
  let* s := get_daemon in
  (* Parse the request *)
  match json_HandoverRequest env (r_Body r) with
  | inl err => ret (BadRequest err)
  | inr req =>
  (* Quick checks. *)
  if String.eqb (handover_Address req) "" then
    ret (BadRequest "No id provided")
  else
  (* Redirect all requests to the leader, which is the one with
     authoritative knowledge of the current raft configuration. *)
  let localClusterAddress := config_ClusterAddress (localConfig s) in
  try leader := call (LeaderAddress env) EvLeaderAddress else InternalError in
  if String.eqb leader "" then ret (SmartError "No leader address found")
  else if negb (String.eqb localClusterAddress leader) then
    ret (SyncResponseRedirect
           (url_String "https" leader "/internal/cluster/handover"))
  else
  (* Get lock now we are on leader. *)
  locked clusterMembershipMutex (
    try (target, nodes) := call (Handover env (handover_Address req))
                             (EvHandover (handover_Address req))
      else SmartError in
    (* If there's no other member we can promote, there's nothing we can
       do, just return. *)
    if String.eqb target "" then ret (SyncResponse true None)
    else
      ensure changeMemberRole target nodes else SmartError in
      (* Demote the member that is handing over. *)
      let nodes := demoteDeparting (handover_Address req) nodes in
      ensure changeMemberRole (handover_Address req) nodes else SmartError in
      ret (SyncResponse true None))
  end.

(** *** [DELETE /1.0/cluster/members/{name}] *)

(** [strconv.Atoi(r.FormValue(key))], zero when it fails. *)
Definition formInt (r : Request) (key : string) : Z :=
  match Atoi env (FormValue r key) with
  | inl _ => 0
  | inr n => n
  end.

(** The loop of [clusterNodeDelete] that promotes the remaining node of a
    two node cluster; [seen] are the nodes already passed over. *)
Fixpoint promoteRemaining (leader : string) (seen rest : list RaftNode)
    : M (option Error) :=
  match rest with
  | [] => ret None
  | node :: rest' =>
      if negb (String.eqb (raft_Address node) leader)
         && negb (bool_decide (raft_Role node = RaftVoter)) then
        (* Promote the remaining node. *)
        changeMemberRole (raft_Address node)
          (seen ++ set_Role node RaftVoter :: rest')
      else promoteRemaining leader (seen ++ [node]) rest'
  end.

Fixpoint deleteNetworks (address project : string) (networks : list string)
    : M (option Error) :=
  match networks with
  | [] => ret None
  | name :: rest =>
      ensure call (DeleteNetwork env address project name)
               (EvDeleteNetwork address project name)
        else Some in
      deleteNetworks address project rest
  end.

Fixpoint deleteProjectNetworks (address : string) (projects : list string)
    : M (option Error) :=
  match projects with
  | [] => ret None
  | networkProjectName :: rest =>
      try networks := Transaction ClusterDB
                        (call (GetNetworks env networkProjectName)
                           (EvGetNetworks networkProjectName))
        else Some in
      ensure deleteNetworks address networkProjectName networks else Some in
      deleteProjectNetworks address rest
  end.

Fixpoint deleteStoragePools (address : string) (pools : list string)
    : M (option Error) :=
  match pools with
  | [] => ret None
  | name :: rest =>
      ensure call (DeleteStoragePool env address name)
               (EvDeleteStoragePool address name)
        else Some in
      deleteStoragePools address rest
  end.

(** The graceful clean-up of [clusterNodeDelete]: delete all networks and
    storage pools on the departing member. *)
Definition cleanupMember (address : string) : M (option Error) :=
  ensure call (Connect env address true) (EvConnect address true) else Some in
  (* Get a list of projects for networks. *)
  try networkProjectNames :=
      Transaction ClusterDB (call (GetProjectNames env) EvGetProjectNames)
    else (fun err => Some (wrap "Failed to load projects for networks" err)) in
  ensure deleteProjectNetworks address networkProjectNames else Some in
  (* Delete all the pools on this node *)
  let* res := Transaction ClusterDB
                (call (GetStoragePoolNames env) EvGetStoragePoolNames) in
  match res with
  | inl err =>
      if negb (IsNotFoundError env err) then ret (Some err)
      else deleteStoragePools address []
  | inr pools => deleteStoragePools address pools
  end.

Definition clusterNodeDelete (fuel : nat) (r : Request) : M (option Response) :=
  let* s := get_daemon in
  let force := formInt r "force" in
  let pending := formInt r "pending" in
  match PathUnescape env (get (r_Vars r) "name") with
  | inl err => ret (Some (SmartError err))
  | inr name =>
  (* Redirect all requests to the leader, which is the one with knowing
     what nodes are part of the raft cluster. *)
  let localClusterAddress := config_ClusterAddress (localConfig s) in
  let* leader := call (LeaderAddress env) EvLeaderAddress in
  match leader with
  | inl err => ret (Some (InternalError err))
  | inr leader =>
  let* infos := Transaction ClusterDB (
      try localInfo := call (GetNodeByAddress env localClusterAddress)
                         (EvGetNodeByAddress localClusterAddress)
        else (fun err => inl (wrap "Failed loading local member info" err)) in
      try leaderInfo := call (GetNodeByAddress env leader)
                          (EvGetNodeByAddress leader)
        else (fun err => inl (wrap "Failed loading leader member info" err)) in
      ret (inr (localInfo, leaderInfo))) in
  match infos with
  | inl err => ret (Some (SmartError err))
  | inr (localInfo, leaderInfo) =>
  (* Get information about the cluster. *)
  let* nodes := Transaction NodeDB (call (GetRaftNodes env) EvGetRaftNodes) in
  match nodes with
  | inl err => ret (Some (SmartError (wrap "Unable to get raft nodes" err)))
  | inr nodes =>
  let twoNodeLeader :=
    String.eqb name (node_Name leaderInfo) && bool_decide (length nodes = 2%nat) in
  if negb (String.eqb localClusterAddress leader) then
    (if String.eqb (node_Name localInfo) name then
       (* If the member being removed is ourselves and we are not the
          leader, then lock the clusterPutDisableMu before we forward the
          request to the leader. *)
       emit (EvLock clusterPutDisableMu);;
       emit (EvGo (GoUnlockAfter r))
     else ret tt);;
    let forwarded : M Response :=
      ensure call (Connect env leader false) (EvConnect leader false)
        else SmartError in
      ensure call (DeleteClusterMember env leader name
                     (bool_decide (force = 1)) (negb (bool_decide (pending = 0))))
               (EvDeleteClusterMember leader name
                  (bool_decide (force = 1)) (negb (bool_decide (pending = 0))))
        else SmartError in
      (* If we are the only remaining node, wait until promotion to leader,
         then update cluster certs. *)
      if twoNodeLeader then
        ensure call (WaitLeadership env) EvWaitLeadership else SmartError in
        emit EvUpdateCertificateCache;;
        ret ManualResponseFlush
      else ret ManualResponseFlush in
    let* resp := forwarded in
    ret (Some resp)
  else
  (* Get lock now we are on leader. *)
  locked clusterMembershipMutex (
    (* If we are removing the leader of a 2 node cluster, ensure the other
       node can be a leader. *)
    let* promoted :=
      if twoNodeLeader then promoteRemaining leader [] nodes else ret None in
    match promoted with
    | Some err =>
        ret (Some (SmartError
               (wrap "Unable to promote remaining cluster member to leader" err)))
    | None =>
    let* synced := call (autoSyncImages env) EvAutoSyncImages in
    match (if bool_decide (force = 0) then synced else None) with
    | Some err => ret (Some (SmartError (wrap "Failed to sync images" err)))
    | None =>
    (* First check that the node is clear from containers and images and
       make it leave the database cluster, if it's part of it. *)
    let* left_ := call (Leave env name (bool_decide (force = 1))
                          (bool_decide (pending = 1)))
                    (EvLeave name (bool_decide (force = 1))
                       (bool_decide (pending = 1))) in
    match left_ with
    | inl err => ret (Some (SmartError err))
    | inr address =>
    let* cleaned :=
      if negb (bool_decide (force = 1)) then cleanupMember address
      else ret None in
    match cleaned with
    | Some err => ret (Some (SmartError err))
    | None =>
    (* Remove node from the database *)
    let* purged := call (Purge env name (bool_decide (pending = 1)))
                     (EvPurge name (bool_decide (pending = 1))) in
    match purged with
    | Some err =>
        ret (Some (SmartError (wrap "Failed to remove member from database" err)))
    | None =>
    let* rebalanced := rebalanceMemberRoles fuel in
    match rebalanced with
    | None => ret None
    | Some _ =>
    (* If this leader node removed itself, just disable clustering. *)
    if String.eqb address localClusterAddress then
      let* resp := clusterPutDisable r (mkClusterPut "" false "" "" "" "" []) in
      ret (Some resp)
    else
      let* reset :=
        if negb (bool_decide (force = 1)) then
          (* Try to gracefully reset the database on the node. *)
          ensure call (Connect env address true) (EvConnect address true)
            else Some in
          let put := mkClusterPut "" false "" "" "" "" [] in
          ensure call (UpdateCluster env address put)
                   (EvUpdateCluster address put)
            else (fun err => Some (wrap "Failed to cleanup the member" err)) in
          ret None
        else ret None in
      match reset with
      | Some err => ret (Some (SmartError err))
      | None =>
          (* Refresh the trusted certificate cache now that the member
             certificate has been removed. *)
          emit EvUpdateCertificateCache;;
          (* Ensure all images are available after this node has been
             deleted. *)
          call (autoSyncImages env) EvAutoSyncImages;;
          emit (EvSendLifecycle (ClusterMemberRemoved name));;
          ret (Some EmptySyncResponse)
      end
    end end end end end end)
  end end end end.

(** *** The activation probe *)

(** [instanceShouldAutoStart] returns whether the instance should be
    auto-started: true if boot.autostart is enabled or boot.autostart is
    not set and the instance was previously running. *)
Definition instanceShouldAutoStart (inst : Instance) : bool :=
  let config := inst_ExpandedConfig inst in
  let autoStart := get config "boot.autostart" in
  let lastState := get config "volatile.last_state.power" in
  IsTrue env autoStart
  || (String.eqb autoStart "" && String.eqb lastState (PowerStateRunning env)).

(** [_, err := incus.ConnectIncusUnix("", nil); return err]. *)
Definition activate : M (option Error) :=
  call (ConnectIncusUnix env) EvConnectIncusUnix.

(** The loop of the probe over the instances; [None] when the loop ends
    without returning. *)
Fixpoint probeInstances (instances : list Instance)
    : M (option (option Error)) :=
  match instances with
  | [] => ret None
  | inst :: rest =>
      if instanceShouldAutoStart inst then
        let* err := activate in ret (Some err)
      else if inst_IsRunning inst then
        let* err := activate in ret (Some err)
      else
        (* Check for scheduled instance snapshots *)
        let config := inst_ExpandedConfig inst in
        if negb (String.eqb (get config "snapshots.schedule") "") then
          let* err := activate in ret (Some err)
        else probeInstances rest
  end.

(** The loop of the probe over the custom volumes. *)
Fixpoint probeVolumes (volumes : list StorageVolumeArgs)
    : M (option (option Error)) :=
  match volumes with
  | [] => ret None
  | vol :: rest =>
      if negb (String.eqb (get (vol_Config vol) "snapshots.schedule") "") then
        let* err := activate in ret (Some err)
      else probeVolumes rest
  end.

(** [cmdActivateifneeded.run]. *)
Definition activateifneeded_run : M (option Error) :=
  (* Only root should run this *)
  let* euid := call (Geteuid env) EvGeteuid in
  if negb (bool_decide (euid = 0)) then ret (Some "This must be run as root")
  else
  (* Check if either the local database files exists. *)
  let path := LocalDatabasePath env in
  let* exists_ := call (PathExists env path) (EvPathExists path) in
  if negb exists_ then ret None
  else
  (* Open the database directly to avoid triggering any initialization
     code. *)
  ensure call (sql_Open env "sqlite3" path) (EvSqlOpen "sqlite3" path)
    else Some in
  (* Load the configured address from the database *)
  try localConfig := Transaction NodeDB (call (ConfigLoad env) EvConfigLoad)
    else Some in
  let localHTTPAddress := config_HTTPSAddress localConfig in
  (* Look for network socket *)
  if negb (String.eqb localHTTPAddress "") then activate
  else
  (* Look for auto-started or previously started instances *)
  let path := GlobalDatabasePath env in
  let* exists_ := call (PathExists env path) (EvPathExists path) in
  if negb exists_ then ret None
  else
  ensure call (sql_Open env "dqlite_direct_access" (path ++ "?mode=ro"))
           (EvSqlOpen "dqlite_direct_access" (path ++ "?mode=ro"))
    else Some in
  let* res := (
    ensure call (ForLocalInspectionWithPreparedStmts env) EvForLocalInspection
      else Some in
    try instances := call (LoadNodeAll env) EvLoadNodeAll else Some in
    let* found := probeInstances instances in
    match found with
    | Some err => ret err
    | None =>
        (* Check for scheduled volume snapshots *)
        try volumes := Transaction ClusterDB
                         (call (GetStoragePoolVolumesWithType env)
                            EvGetStoragePoolVolumesWithType)
          else Some in
        let* found := probeVolumes volumes in
        match found with
        | Some err => ret err
        | None => ret None
        end
    end) in
  emit EvSqlClose;;
  ret res.

End Handlers.

(** ** Concrete environments *)

(** A scenario fixes the answers that the examples below vary; every
    other call succeeds with an empty answer. *)
Record Scenario := mkScenario {
  sc_ClusterPut : ClusterPut;
  sc_LeaderAddress : Log -> Error + string;
  sc_GetNodes : list NodeInfo;
  sc_Now : Time;
  sc_Rebalance : Log -> Error + (string * list RaftNode);
  sc_HasConnectivity : string -> Log -> bool;
  sc_Handover : string * list RaftNode;
  sc_GetNodeByAddress : string -> Error + NodeInfo;
  sc_GetRaftNodes : list RaftNode;
  sc_Geteuid : Z;
  sc_PathExists : string -> bool;
  sc_ConfigLoad : gmap string string;
  sc_LoadNodeAll : Error + list Instance;
  sc_Volumes : list StorageVolumeArgs
}.

(** Request bodies of the examples are the bare name or address. *)
Definition scenarioEnv (sc : Scenario) : Env := {|
  json_ClusterPut := fun _ => inr (sc_ClusterPut sc);
  json_ClusterMembersPost := fun body => inr (mkClusterMembersPost body);
  json_AcceptRequest := fun body => inr (mkAcceptRequest body "" 0 0 [] [] 0);
  json_HandoverRequest := fun body => inr (mkHandoverRequest body);
  targetGroupPrefix := "@";
  VarDir := "/var/lib/incus";
  IsWildCardAddress := fun a => String.eqb a "[::]:8443";
  IsListenAddress := fun _ => None;
  IsAddressCovered := String.eqb;
  GetExpiry := fun now _ => inr (now + 10800);
  Atoi := fun s => if String.eqb s "1" then inr 1
                   else if String.eqb s "0" then inr 0
                   else inl "invalid syntax";
  PathUnescape := inr;
  IsNotFoundError := fun _ => false;
  IsTrue := fun s => String.eqb s "true";
  PowerStateRunning := "RUNNING";
  LocalDatabasePath := "/var/lib/incus/database/local.db";
  GlobalDatabasePath := "/var/lib/incus/database/global/db.bin";
  ClusterJoinTokenExpiry := "3H";
  OfflineThreshold := 20;
  NetworkPrivateKey := "key";
  time_Now := fun _ => sc_Now sc;
  txBegin := fun _ _ => None;
  txCommit := fun _ _ => None;
  ConfigLoad := fun _ => inr (sc_ConfigLoad sc);
  ConfigPatch := fun _ _ => None;
  ClusterDBClose := fun _ => None;
  PathExists := fun path _ => sc_PathExists sc path;
  Remove := fun _ _ => None;
  LoadCert := fun _ => inr "server.crt";
  GatewayReset := fun _ _ => None;
  newOperationID := fun l => inr ("op" ++ pretty (length l));
  NetworkUpdateAddress := fun _ _ => None;
  ClusterUpdateAddress := fun _ _ => None;
  GetNodes := fun _ => inr (sc_GetNodes sc);
  operationsGetByTypeErr := fun _ => None;
  operationCancelErr := fun _ _ => None;
  RandomHexString := fun _ => inr "c0ffee";
  CertFingerprintStr := fun _ => inr "fp";
  LeaderAddress := sc_LeaderAddress sc;
  CheckStoragePoolsMatch := fun _ _ => None;
  CheckNetworksMatch := fun _ _ => None;
  Accept := fun _ _ => inr [];
  ShutdownCtxErr := fun _ => false;
  Rebalance := sc_Rebalance sc;
  HasConnectivity := sc_HasConnectivity sc;
  DemoteOfflineNode := fun _ _ => None;
  Connect := fun _ _ _ => None;
  RawQuery := fun _ _ _ _ _ => None;
  TransferLeadership := fun _ => None;
  Handover := fun _ _ => inr (sc_Handover sc);
  GetNodeByAddress := fun a _ => sc_GetNodeByAddress sc a;
  GetRaftNodes := fun _ => inr (sc_GetRaftNodes sc);
  DeleteClusterMember := fun _ _ _ _ _ => None;
  WaitLeadership := fun _ => None;
  autoSyncImages := fun _ => None;
  Leave := fun _ _ _ _ => inr "10.0.0.3:8443";
  GetProjectNames := fun _ => inr [];
  GetNetworks := fun _ _ => inr [];
  DeleteNetwork := fun _ _ _ _ => None;
  GetStoragePoolNames := fun _ => inr [];
  DeleteStoragePool := fun _ _ _ => None;
  Purge := fun _ _ _ => None;
  UpdateCluster := fun _ _ _ => None;
  Geteuid := fun _ => sc_Geteuid sc;
  sql_Open := fun _ _ _ => None;
  ForLocalInspectionWithPreparedStmts := fun _ => None;
  LoadNodeAll := fun _ => sc_LoadNodeAll sc;
  GetStoragePoolVolumesWithType := fun _ => inr (sc_Volumes sc);
  ConnectIncusUnix := fun _ => None
|}.

Definition n1 : NodeInfo :=
  mkNodeInfo 1 "n1" "10.0.0.1:8443" ClusterMemberStateCreated 100.
Definition n2 : NodeInfo :=
  mkNodeInfo 2 "n2" "10.0.0.2:8443" ClusterMemberStateCreated 100.
Definition n3 : NodeInfo :=
  mkNodeInfo 3 "n3" "10.0.0.3:8443" ClusterMemberStateEvacuated 100.

(** A three member cluster led by [n1], seen at time 105. *)
Definition quiet : Scenario := {|
  sc_ClusterPut := mkClusterPut "" false "" "" "" "" [];
  sc_LeaderAddress := fun _ => inr "10.0.0.1:8443";
  sc_GetNodes := [n1; n2; n3];
  sc_Now := 105;
  sc_Rebalance := fun _ => inr ("", []);
  sc_HasConnectivity := fun _ _ => true;
  sc_Handover := ("", []);
  sc_GetNodeByAddress := fun a =>
    if String.eqb a "10.0.0.1:8443" then inr n1
    else if String.eqb a "10.0.0.2:8443" then inr n2
    else if String.eqb a "10.0.0.3:8443" then inr n3
    else inl "not found";
  sc_GetRaftNodes := [];
  sc_Geteuid := 0;
  sc_PathExists := fun _ => true;
  sc_ConfigLoad := ∅;
  sc_LoadNodeAll := inr [];
  sc_Volumes := []
|}.

(** The daemon of member [n2] before a request. *)
Definition daemon_n2 : Daemon := {|
  serverName := "n2";
  serverClustered := true;
  systemdSocketActivated := false;
  localConfig := {["cluster.https_address" := "10.0.0.2:8443"]};
  operations := ∅;
  log := []
|}.

(** The daemon of the leader [n1] before a request. *)
Definition daemon_n1 : Daemon := {|
  serverName := "n1";
  serverClustered := true;
  systemdSocketActivated := false;
  localConfig := {["cluster.https_address" := "10.0.0.1:8443"]};
  operations := ∅;
  log := []
|}.

(** A stand-alone daemon. *)
Definition daemon_alone : Daemon := {|
  serverName := "";
  serverClustered := false;
  systemdSocketActivated := false;
  localConfig := {["core.https_address" := "10.0.0.1:8443"]};
  operations := ∅;
  log := []
|}.

Definition request (body : string) : Request := mkRequest 1 body ∅ ∅.

(** * Properties *)

Local Open Scope list_scope.

(** ** [PUT /1.0/cluster] *)
(** What a response of the bootstrap or join branch can be: an error, or
    an operation of class task that has been recorded but not run. *)
Definition asynchronous (type : OperationType) (run : OpRun)
    (resp : Response) (d' : Daemon) : Prop :=
  is_error_response resp = true \/
  exists op, resp = OperationResponse op /\
    op_Class op = OperationClassTask /\ op_Type op = type /\
    op_Run op = run /\ op_StatusCode op = Pending /\
    operations d' !! op_ID op = Some op.

(** What a response of the dissolve branch can be: an error, or the
    flushed synchronous response after the raft gateway has been reset and
    killed and the restart goroutine started. *)
Definition dissolved (r : Request) (req : ClusterPut)
    (resp : Response) (d' : Daemon) : Prop :=
  is_error_response resp = true \/
  (resp = ManualResponseFlush /\
   exists cert older,
     log d' = EvGo (GoRestartAfter r) :: EvGatewayKill
              :: EvSendLifecycle (ClusterDisabled (ServerName req))
              :: EvGatewayReset cert None :: older).

(** The quick checks of [clusterPut]. *)
Definition passes_quick_checks (env : Env) (req : ClusterPut) : Prop :=
  (ServerName req = "" <-> Enabled req = false) /\
  (ServerName req <> "" ->
   String.prefix (targetGroupPrefix env) (ServerName req) = false).

Definition bootstrap_n1 : Scenario := {|
  sc_ClusterPut := mkClusterPut "n1" true "" "" "" "" [];
  sc_LeaderAddress := sc_LeaderAddress quiet;
  sc_GetNodes := [];
  sc_Now := 105;
  sc_Rebalance := sc_Rebalance quiet;
  sc_HasConnectivity := sc_HasConnectivity quiet;
  sc_Handover := sc_Handover quiet;
  sc_GetNodeByAddress := sc_GetNodeByAddress quiet;
  sc_GetRaftNodes := [];
  sc_Geteuid := 0;
  sc_PathExists := sc_PathExists quiet;
  sc_ConfigLoad := {["core.https_address" := "10.0.0.1:8443"]};
  sc_LoadNodeAll := inr [];
  sc_Volumes := []
|}.

(** A request to disable clustering that names the server. *)
Definition named_disable : Scenario := {|
  sc_ClusterPut := mkClusterPut "n1" false "" "" "" "" [];
  sc_LeaderAddress := sc_LeaderAddress quiet;
  sc_GetNodes := [];
  sc_Now := 105;
  sc_Rebalance := sc_Rebalance quiet;
  sc_HasConnectivity := sc_HasConnectivity quiet;
  sc_Handover := sc_Handover quiet;
  sc_GetNodeByAddress := sc_GetNodeByAddress quiet;
  sc_GetRaftNodes := [];
  sc_Geteuid := 0;
  sc_PathExists := sc_PathExists quiet;
  sc_ConfigLoad := ∅;
  sc_LoadNodeAll := inr [];
  sc_Volumes := []
|}.

(** ** [POST /1.0/cluster/members]: one running token per server name *)

(** The operations are stored under their own ID, and join tokens live in
    the default project. *)
Definition store_ok (ops : gmap string Operation) : Prop :=
  forall k o, ops !! k = Some o ->
    op_ID o = k /\
    (op_Type o = ClusterJoinToken -> op_Project o = ProjectDefaultName).

(** A join-token operation for [serverName] in the running state. *)
Definition running_token_for (serverName : string) (o : Operation) : Prop :=
  op_Type o = ClusterJoinToken /\
  op_StatusCode o = Running /\
  op_Metadata o !! "serverName" = Some (AString serverName).

Definition at_most_one_running (serverName : string)
    (ops : gmap string Operation) : Prop :=
  forall k1 k2 o1 o2,
    ops !! k1 = Some o1 -> ops !! k2 = Some o2 ->
    running_token_for serverName o1 -> running_token_for serverName o2 ->
    k1 = k2.

(** [ops'] is [ops] with some operations moved to the cancelled state. *)
Definition cancelled_only (ops ops' : gmap string Operation) : Prop :=
  forall k, ops' !! k = ops !! k \/
    exists o, ops !! k = Some o /\ ops' !! k = Some (set_StatusCode o Cancelled).

(** A cluster with a running join token for [n4]. *)
Definition old_token : Operation :=
  mkOperation "op0" ProjectDefaultName OperationClassToken ClusterJoinToken
    Running (joinTokenMetadata "n4" "beef" "fp" ["10.0.0.1:8443"] 10000)
    RunNone.

Definition daemon_n1_token : Daemon := {|
  serverName := "n1";
  serverClustered := true;
  systemdSocketActivated := false;
  localConfig := {["cluster.https_address" := "10.0.0.1:8443"]};
  operations := {["op0" := old_token]};
  log := []
|}.

(** ** [POST /1.0/cluster/members]: the addresses of a join token *)

(** A member whose address goes into a join token issued at [now]. *)
Definition online (env : Env) (now : Time) (member : NodeInfo) : Prop :=
  node_State member <> ClusterMemberStateEvacuated /\
  ~ (OfflineThreshold env < now - node_Heartbeat member).

Global Instance online_dec env now member : Decision (online env now member).
Proof. unfold online. apply _. Defined.

Definition named (serverName : string) (member : NodeInfo) : Prop :=
  node_Name member = serverName.

Global Instance named_dec serverName member :
  Decision (named serverName member).
Proof. unfold named. apply _. Defined.

(** Events that touch the join-token operations. *)
Definition touches_operations (e : Event) : bool :=
  match e with
  | EvOperationCreate _ | EvOperationCancel _ _ | EvOperationsGetByType _ _ =>
      true
  | _ => false
  end.

(** The request went no further than reading the members table: it is
    answered with an error and has neither read, cancelled nor created an
    operation. *)
Definition rejected_before_tokens (d : Daemon) (resp : Response)
    (d' : Daemon) : Prop :=
  is_error_response resp = true /\
  operations d' = operations d /\
  exists new, log d' = new ++ log d /\
    forallb (fun e => negb (touches_operations e)) new = true.

(** The answer of [tx.GetNodes] to a request that finds the daemon in
    state [d], and the time at which the members it returned are judged. *)
Definition members_read (env : Env) (d : Daemon) : Error + list NodeInfo :=
  GetNodes env (EvTxBegin ClusterDB None :: log d).

Definition judged_at (env : Env) (d : Daemon) : Time :=
  time_Now env
    (EvGetNodes (members_read env d) :: EvTxBegin ClusterDB None :: log d).

(** A join token as [clusterNodesPost] records it. *)
Definition join_token_for (serverName : string) (addresses : list string)
    (op : Operation) : Prop :=
  op_Class op = OperationClassToken /\
  op_Type op = ClusterJoinToken /\
  op_Project op = ProjectDefaultName /\
  op_Metadata op !! "serverName" = Some (AString serverName) /\
  op_Metadata op !! "addresses" = Some (AStrings addresses).

(** ** Internal endpoints *)

(** The daemon after the calls [new], most recent first, have been
    logged. *)
Definition logged (new : Log) (d : Daemon) : Daemon :=
  mkDaemon (serverName d) (serverClustered d) (systemdSocketActivated d)
    (localConfig d) (operations d) (new ++ log d).

(** A call that reaches the leader over the network. *)
Definition reaches_out (e : Event) : bool :=
  match e with
  | EvConnect _ _ _ | EvRawQuery _ _ _ _ _ => true
  | _ => false
  end.

(** A member that does not know the leader: the leader address it looks
    up is empty. *)
Definition leaderless : Scenario := {|
  sc_ClusterPut := sc_ClusterPut quiet;
  sc_LeaderAddress := fun _ => inr "";
  sc_GetNodes := sc_GetNodes quiet;
  sc_Now := sc_Now quiet;
  sc_Rebalance := sc_Rebalance quiet;
  sc_HasConnectivity := sc_HasConnectivity quiet;
  sc_Handover := sc_Handover quiet;
  sc_GetNodeByAddress := sc_GetNodeByAddress quiet;
  sc_GetRaftNodes := sc_GetRaftNodes quiet;
  sc_Geteuid := sc_Geteuid quiet;
  sc_PathExists := sc_PathExists quiet;
  sc_ConfigLoad := sc_ConfigLoad quiet;
  sc_LoadNodeAll := sc_LoadNodeAll quiet;
  sc_Volumes := sc_Volumes quiet
|}.

(** ** Handover *)

(** The assign RPC: a POST to [/internal/cluster/assign] on [address]. *)
Definition assign (address : string) (nodes : list RaftNode)
    (res : option Error) : Event :=
  EvRawQuery address "POST" "/internal/cluster/assign" (inl nodes) res.

(** The handover RPC: a POST to [/internal/cluster/handover] on the leader
    for the member at [address]. *)
Definition handover_request (leader address : string) (res : option Error)
    : Event :=
  EvRawQuery leader "POST" "/internal/cluster/handover" (inr address) res.

(** The raft nodes after the member at [address] has been demoted, in the
    words of the specification: the same nodes in the same order, the
    departing member with the role spare, every other node as it was. *)
Definition demoted_to_spare (address : string)
    (nodes demoted : list RaftNode) : Prop :=
  Forall2 (fun node node' =>
             raft_ID node' = raft_ID node /\
             raft_Address node' = raft_Address node /\
             raft_Name node' = raft_Name node /\
             raft_Role node' =
               if String.eqb (raft_Address node) address then RaftSpare
               else raft_Role node)
    nodes demoted.

(** What the leader does, in order, after [cluster.Handover] has answered
    with the replacement [target] and the raft [nodes], and the response
    it gives: the promotion is the assign RPC to the target with the nodes
    as [cluster.Handover] returned them, the demotion the assign RPC to the
    departing member with the nodes in which that member is a spare. *)
Inductive handover_outcome (address target : string) (nodes : list RaftNode)
    : list Event -> Response -> Prop :=
| ho_no_candidate :
    target = "" ->
    handover_outcome address target nodes [] (SyncResponse true None)
| ho_target_unreachable err :
    target <> "" ->
    handover_outcome address target nodes
      [EvConnect target true (Some err)] (SmartError err)
| ho_promotion_failed err :
    target <> "" ->
    handover_outcome address target nodes
      [EvConnect target true None; assign target nodes (Some err)]
      (SmartError err)
| ho_departing_unreachable err :
    target <> "" ->
    handover_outcome address target nodes
      [EvConnect target true None; assign target nodes None;
       EvConnect address true (Some err)]
      (SmartError err)
| ho_demotion_failed demoted err :
    target <> "" ->
    demoted_to_spare address nodes demoted ->
    handover_outcome address target nodes
      [EvConnect target true None; assign target nodes None;
       EvConnect address true None;
       assign address demoted (Some err)]
      (SmartError err)
| ho_handed_over demoted :
    target <> "" ->
    demoted_to_spare address nodes demoted ->
    handover_outcome address target nodes
      [EvConnect target true None; assign target nodes None;
       EvConnect address true None;
       assign address demoted None]
      (SyncResponse true None).

(** Member [n1] leads and leaves; leadership moves to [n2] once it has
    been transferred. *)
Definition leader_leaves : Scenario := {|
  sc_ClusterPut := sc_ClusterPut quiet;
  sc_LeaderAddress := fun l =>
    if existsb (fun e => match e with
                         | EvTransferLeadership None => true
                         | _ => false
                         end) l
    then inr "10.0.0.2:8443" else inr "10.0.0.1:8443";
  sc_GetNodes := [n1; n2; n3];
  sc_Now := 105;
  sc_Rebalance := sc_Rebalance quiet;
  sc_HasConnectivity := sc_HasConnectivity quiet;
  sc_Handover := sc_Handover quiet;
  sc_GetNodeByAddress := sc_GetNodeByAddress quiet;
  sc_GetRaftNodes := [];
  sc_Geteuid := 0;
  sc_PathExists := sc_PathExists quiet;
  sc_ConfigLoad := ∅;
  sc_LoadNodeAll := inr [];
  sc_Volumes := []
|}.

Definition raft_n1 : RaftNode := mkRaftNode 1 "10.0.0.1:8443" RaftVoter "n1".
Definition raft_n2 : RaftNode := mkRaftNode 2 "10.0.0.2:8443" RaftVoter "n2".
Definition raft_n3 : RaftNode := mkRaftNode 3 "10.0.0.3:8443" RaftStandBy "n3".
Definition raft_n4 : RaftNode := mkRaftNode 4 "10.0.0.4:8443" RaftSpare "n4".

(** Member [n2] hands over, and [cluster.Handover] picks [n3], already
    given the voter role in the returned nodes. *)
Definition n2_hands_over : Scenario := {|
  sc_ClusterPut := sc_ClusterPut quiet;
  sc_LeaderAddress := sc_LeaderAddress quiet;
  sc_GetNodes := [n1; n2; n3];
  sc_Now := 105;
  sc_Rebalance := sc_Rebalance quiet;
  sc_HasConnectivity := sc_HasConnectivity quiet;
  sc_Handover :=
    ("10.0.0.3:8443", [raft_n1; raft_n2; set_Role raft_n3 RaftVoter]);
  sc_GetNodeByAddress := sc_GetNodeByAddress quiet;
  sc_GetRaftNodes := [];
  sc_Geteuid := 0;
  sc_PathExists := sc_PathExists quiet;
  sc_ConfigLoad := ∅;
  sc_LoadNodeAll := inr [];
  sc_Volumes := []
|}.

Global Arguments changeMemberRole : simpl never.

(** ** Rebalance *)

(** The node that the loop of [rebalanceMemberRoles] acts on: the first
    of [nodes] with the given address. *)
Fixpoint node_at (address : string) (nodes : list RaftNode)
    : option RaftNode :=
  match nodes with
  | [] => None
  | node :: rest =>
      if String.eqb (raft_Address node) address then Some node
      else node_at address rest
  end.

(** Every event of a log, most recent first, satisfies [P] with respect to
    the events logged before it. *)
Definition each_after (P : Event -> list Event -> Prop) (l : list Event)
    : Prop :=
  forall i e, l !! i = Some e -> P e (drop (S i) l).

(** The order that the connectivity probe imposes.

    - [DemoteOfflineNode id] comes directly after a failed probe of the
      address that [cluster.Rebalance] has just returned, and [id] is the
      ID of the node with that address, whose new role is spare.
    - An assign RPC that gives the node at [address] a role other than
      spare comes directly after the connection to [address], which comes
      directly after a successful probe of [address]. *)
Definition probe_rule (e : Event) (older : Log) : Prop :=
  (forall id res, e = EvDemoteOfflineNode id res ->
     exists address nodes node rest,
       older = EvHasConnectivity address false
               :: EvRebalance (inr (address, nodes)) :: rest /\
       node_at address nodes = Some node /\
       raft_ID node = id /\ raft_Role node = RaftSpare) /\
  (forall address nodes res node, e = assign address nodes res ->
     node_at address nodes = Some node -> raft_Role node <> RaftSpare ->
     exists rest,
       older = EvConnect address true None
               :: EvHasConnectivity address true :: rest).

(** [n4] is to be promoted to stand-by but cannot be reached. *)
Definition promote_unreachable : Scenario := {|
  sc_ClusterPut := sc_ClusterPut quiet;
  sc_LeaderAddress := sc_LeaderAddress quiet;
  sc_GetNodes := [n1; n2; n3];
  sc_Now := 105;
  sc_Rebalance := fun _ =>
    inr ("10.0.0.4:8443",
         [raft_n1; raft_n2; raft_n3; set_Role raft_n4 RaftStandBy]);
  sc_HasConnectivity := fun a _ => negb (String.eqb a "10.0.0.4:8443");
  sc_Handover := sc_Handover quiet;
  sc_GetNodeByAddress := sc_GetNodeByAddress quiet;
  sc_GetRaftNodes := [];
  sc_Geteuid := 0;
  sc_PathExists := sc_PathExists quiet;
  sc_ConfigLoad := ∅;
  sc_LoadNodeAll := inr [];
  sc_Volumes := []
|}.

(** ** The activation probe *)

(** The probe tried to start the daemon: it connected to the local unix
    socket. *)
Definition attempted (l : list Event) : bool :=
  existsb (fun e => match e with
                    | EvConnectIncusUnix _ => true
                    | _ => false
                    end) l.

(** An instance that makes the probe start the daemon. *)
Definition wants_daemon (env : Env) (inst : Instance) : bool :=
  instanceShouldAutoStart env inst
  || inst_IsRunning inst
  || negb (String.eqb (get (inst_ExpandedConfig inst) "snapshots.schedule") "").

(** A custom volume that makes the probe start the daemon. *)
Definition has_schedule (vol : StorageVolumeArgs) : bool :=
  negb (String.eqb (get (vol_Config vol) "snapshots.schedule") "").

(** The probe runs as root and every access to the two databases
    succeeds; the files exist as [local_db] and [global_db] say, and hold
    the given configuration, instances and custom volumes. *)
Record healthy (env : Env) (local_db global_db : bool)
    (config : gmap string string) (instances : list Instance)
    (volumes : list StorageVolumeArgs) : Prop := {
  h_root : forall l, Geteuid env l = 0;
  h_local : forall l, PathExists env (LocalDatabasePath env) l = local_db;
  h_global : forall l, PathExists env (GlobalDatabasePath env) l = global_db;
  h_open : forall driver path l, sql_Open env driver path l = None;
  h_begin : forall db l, txBegin env db l = None;
  h_commit : forall db l, txCommit env db l = None;
  h_inspect : forall l, ForLocalInspectionWithPreparedStmts env l = None;
  h_config : forall l, ConfigLoad env l = inr config;
  h_instances : forall l, LoadNodeAll env l = inr instances;
  h_volumes : forall l, GetStoragePoolVolumesWithType env l = inr volumes
}.

(** A host with a listening address configured, probed by a user that is
    not root. *)
Definition not_root : Scenario := {|
  sc_ClusterPut := sc_ClusterPut quiet;
  sc_LeaderAddress := sc_LeaderAddress quiet;
  sc_GetNodes := [];
  sc_Now := 105;
  sc_Rebalance := sc_Rebalance quiet;
  sc_HasConnectivity := sc_HasConnectivity quiet;
  sc_Handover := sc_Handover quiet;
  sc_GetNodeByAddress := sc_GetNodeByAddress quiet;
  sc_GetRaftNodes := [];
  sc_Geteuid := 1000;
  sc_PathExists := fun _ => true;
  sc_ConfigLoad := {["core.https_address" := "10.0.0.1:8443"]};
  sc_LoadNodeAll := inr [];
  sc_Volumes := []
|}.

(** A host without a listening address, with one stopped instance and one
    custom volume that has a snapshot schedule. *)
Definition scheduled_volume : Scenario := {|
  sc_ClusterPut := sc_ClusterPut quiet;
  sc_LeaderAddress := sc_LeaderAddress quiet;
  sc_GetNodes := [];
  sc_Now := 105;
  sc_Rebalance := sc_Rebalance quiet;
  sc_HasConnectivity := sc_HasConnectivity quiet;
  sc_Handover := sc_Handover quiet;
  sc_GetNodeByAddress := sc_GetNodeByAddress quiet;
  sc_GetRaftNodes := [];
  sc_Geteuid := 0;
  sc_PathExists := fun _ => true;
  sc_ConfigLoad := ∅;
  sc_LoadNodeAll :=
    inr [mkInstance "c1" {["boot.autostart" := "false"]} false];
  sc_Volumes :=
    [mkStorageVolumeArgs "v1" {["snapshots.schedule" := "@daily"]}]
|}.

Definition fresh_daemon : Daemon := {|
  serverName := "";
  serverClustered := false;
  systemdSocketActivated := true;
  localConfig := ∅;
  operations := ∅;
  log := []
|}.

(** ** What a computation adds to the log *)

(** Every run of [m] extends the log, by events that satisfy [P]. *)
Definition emits (P : Event -> Prop) {A} (m : M A) : Prop :=
  forall d, exists new, log (m d).2 = new ++ log d /\ Forall P new.

Global Instance Mutex_eq_dec : EqDecision Mutex.
Proof. solve_decision. Defined.

(** Events of a handler of request [r] on member [self] that leave the
    self-removal lock alone: no lock or unlock of [clusterPutDisableMu],
    no goroutine but the one that restarts the daemon after [r], and no
    removal of [self] forwarded to the leader. *)
Definition harmless (self : string) (r : Request) (e : Event) : bool :=
  match e with
  | EvLock mu | EvUnlock mu => bool_decide (mu <> clusterPutDisableMu)
  | EvGo (GoRestartAfter r') => bool_decide (r_ID r' = r_ID r)
  | EvGo (GoUnlockAfter _) => false
  | EvDeleteClusterMember _ name _ _ _ => negb (String.eqb name self)
  | _ => true
  end.

(** ** Removing the leader of a two node cluster *)

(** The calls of [clusterNodeDelete] that take the member out of the
    cluster: [cluster.Leave] and [cluster.Purge]. *)
Definition is_removal (e : Event) : bool :=
  match e with
  | EvLeave _ _ _ _ | EvPurge _ _ _ => true
  | _ => false
  end.

(** A removal step comes after the call [promotion]. *)
Definition promoted_first (promotion : Event) (e : Event)
    (older : list Event) : Prop :=
  is_removal e = true -> promotion ∈ older.

(** A node with the Raft role voter: same ID, address and name. *)
Definition as_voter (node : RaftNode) : RaftNode :=
  mkRaftNode (raft_ID node) (raft_Address node) RaftVoter (raft_Name node).

(** A raft configuration of exactly two nodes: one at the address of the
    leader, and [other], which is not a voter; [promoted] is the
    configuration with [other] made a voter. *)
Definition two_nodes (leader : string) (other : RaftNode)
    (nodes promoted : list RaftNode) : Prop :=
  raft_Address other <> leader /\ raft_Role other <> RaftVoter /\
  exists leaderNode, raft_Address leaderNode = leader /\
    ((nodes = [leaderNode; other] /\
      promoted = [leaderNode; as_voter other]) \/
     (nodes = [other; leaderNode] /\
      promoted = [as_voter other; leaderNode])).

(** What the leader has done when it answers the removal of [name], given
    the calls [new] it made and its result [res]: either the [promotion]
    was made, or the answer is an error and the member was neither made to
    leave nor purged; and an answer that is not an error is given only
    after the promotion, a successful [cluster.Leave] and a successful
    [cluster.Purge] of [name]. *)
Definition leader_outcome (promotion : Event) (name : string)
    (new : list Event) (res : option Response) : Prop :=
  (promotion ∈ new \/
   exists resp, res = Some resp /\ is_error_response resp = true /\
     forallb (fun e => negb (is_removal e)) new = true) /\
  (forall resp, res = Some resp -> is_error_response resp = false ->
     promotion ∈ new /\
     exists force pending address pending',
       EvLeave name force pending (inr address) ∈ new /\
       EvPurge name pending' None ∈ new).

(** The log [l] extends [l0] by calls none of which is a removal step. *)
Definition clean_since (l0 l : Log) : Prop :=
  exists new, l = new ++ l0 /\
    forallb (fun e => negb (is_removal e)) new = true.

(** The log [l] extends [l0] by calls among which is [promotion], and in
    which every removal step comes after it. *)
Definition promoted_since (promotion : Event) (l0 l : Log) : Prop :=
  exists new, l = new ++ l0 /\
    each_after (promoted_first promotion) new /\ promotion ∈ new.

(** A cluster of two: the leader [n1], a voter, and [n2], a stand-by. *)
Definition two_members : Scenario := {|
  sc_ClusterPut := sc_ClusterPut quiet;
  sc_LeaderAddress := sc_LeaderAddress quiet;
  sc_GetNodes := [n1; n2];
  sc_Now := 105;
  sc_Rebalance := sc_Rebalance quiet;
  sc_HasConnectivity := sc_HasConnectivity quiet;
  sc_Handover := sc_Handover quiet;
  sc_GetNodeByAddress := sc_GetNodeByAddress quiet;
  sc_GetRaftNodes := [raft_n1; set_Role raft_n2 RaftStandBy];
  sc_Geteuid := 0;
  sc_PathExists := sc_PathExists quiet;
  sc_ConfigLoad := ∅;
  sc_LoadNodeAll := inr [];
  sc_Volumes := []
|}.

(** [DELETE /1.0/cluster/members/n1]. *)
Definition delete_n1 : Request := mkRequest 1 "" ∅ {["name" := "n1"]}.

(** ** Self-removal: the handler and its goroutines, interleaved *)

(** What a goroutine of the daemon does next. *)
Inductive Instr :=
| ICall (e : Event)       (* a call without effect on the other goroutines *)
| ILock (mu : Mutex)      (* blocks while [mu] is locked *)
| IUnlock (mu : Mutex)
| IGo (g : Goroutine)     (* [go func() { ... }()] *)
| IWait (r : nat)         (* [<-r.Context().Done()] *)
| IFlush (r : nat)        (* the response to request [r] is rendered and flushed *)
| IDone (r : nat)         (* the handler of [r] has returned: its context is done *)
| IRestart.               (* [os.Exit(0)] or [ReplaceDaemon()] *)

Definition instr_of (e : Event) : Instr :=
  match e with
  | EvLock mu => ILock mu
  | EvUnlock mu => IUnlock mu
  | EvGo g => IGo g
  | _ => ICall e
  end.

(** The goroutine of a request handler: the calls that the handler has
    logged, in order, then the response is rendered and flushed and the
    handler returns, which ends the context of the request.  A handler
    that does not return never responds. *)
Definition handler_thread (r : Request) (responds : bool) (l : Log)
    : list Instr :=
  map instr_of (rev l)
  ++ (if responds then [IFlush (r_ID r); IDone (r_ID r)] else []).

(** The bodies of the two goroutines.  The one of [clusterNodeDelete]
    waits until the request is finished and releases the lock; the one of
    [clusterPutDisable] waits until its request has finished, takes the
    lock, and exits or replaces the daemon ([defer] releases the lock if
    the daemon is still there). *)
Definition goroutine (g : Goroutine) : list Instr :=
  match g with
  | GoUnlockAfter r => [IWait (r_ID r); IUnlock clusterPutDisableMu]
  | GoRestartAfter r =>
      [IWait (r_ID r); ILock clusterPutDisableMu; IRestart;
       IUnlock clusterPutDisableMu]
  end.

(** The daemon process: its goroutines, the locked mutexes, the requests
    whose context is done, the requests whose response has been flushed,
    the requests received, and whether the process has been exited or
    replaced. *)
Record System := mkSystem {
  threads : list (list Instr);
  held : list Mutex;
  finished : list nat;
  flushed : list nat;
  requests : list nat;
  restarted : bool
}.

(** The removal of member [self] forwarded to the leader. *)
Definition is_forward (self : string) (e : Event) : bool :=
  match e with
  | EvDeleteClusterMember _ name _ _ _ => String.eqb name self
  | _ => false
  end.

(** One step of the daemon of member [self]: some goroutine executes its
    next instruction, or, while the removal of [self] is being forwarded
    to the leader, the leader's [PUT /1.0/cluster] arrives as a new
    request and gets its own handler goroutine. *)
Inductive step (self : string) : System -> System -> Prop :=
| step_call s i e rest :
    threads s !! i = Some (ICall e :: rest) ->
    step self s
      (mkSystem (<[i := rest]> (threads s)) (held s) (finished s) (flushed s)
         (requests s) (restarted s))
| step_lock s i mu rest :
    threads s !! i = Some (ILock mu :: rest) ->
    mu ∉ held s ->
    step self s
      (mkSystem (<[i := rest]> (threads s)) (mu :: held s) (finished s)
         (flushed s) (requests s) (restarted s))
| step_unlock s i mu rest :
    threads s !! i = Some (IUnlock mu :: rest) ->
    step self s
      (mkSystem (<[i := rest]> (threads s))
         (filter (fun mu' => mu' <> mu) (held s)) (finished s) (flushed s)
         (requests s) (restarted s))
| step_go s i g rest :
    threads s !! i = Some (IGo g :: rest) ->
    step self s
      (mkSystem (<[i := rest]> (threads s) ++ [goroutine g]) (held s)
         (finished s) (flushed s) (requests s) (restarted s))
| step_wait s i r rest :
    threads s !! i = Some (IWait r :: rest) ->
    r ∈ finished s ->
    step self s
      (mkSystem (<[i := rest]> (threads s)) (held s) (finished s) (flushed s)
         (requests s) (restarted s))
| step_flush s i r rest :
    threads s !! i = Some (IFlush r :: rest) ->
    step self s
      (mkSystem (<[i := rest]> (threads s)) (held s) (finished s)
         (r :: flushed s) (requests s) (restarted s))
| step_done s i r rest :
    threads s !! i = Some (IDone r :: rest) ->
    step self s
      (mkSystem (<[i := rest]> (threads s)) (held s) (r :: finished s)
         (flushed s) (requests s) (restarted s))
| step_restart s i rest :
    threads s !! i = Some (IRestart :: rest) ->
    step self s
      (mkSystem (<[i := rest]> (threads s)) (held s) (finished s) (flushed s)
         (requests s) true)
| step_callback s i e rest env' r' d' :
    threads s !! i = Some (ICall e :: rest) ->
    is_forward self e = true ->
    r_ID r' ∉ requests s ->
    log d' = [] ->
    step self s
      (mkSystem
         (threads s ++ [handler_thread r' true (log (clusterPut env' r' d').2)])
         (held s) (finished s) (flushed s) (r_ID r' :: requests s)
         (restarted s)).

(** The daemon when [DELETE /1.0/cluster/members/{name}] has arrived as
    request [r]. *)
Definition delete_arrives (env : Env) (fuel : nat) (r : Request) (d : Daemon)
    : System :=
  let run := clusterNodeDelete env fuel r d in
  mkSystem [handler_thread r (bool_decide (is_Some run.1)) (log run.2)]
    [] [] [] [r_ID r] false.

(** Events of the handler of [r] once it holds the self-removal lock:
    as [harmless], but the removal may be forwarded. *)
Definition harmless_locked (r : Request) (e : Event) : bool :=
  match e with
  | EvLock mu | EvUnlock mu => bool_decide (mu <> clusterPutDisableMu)
  | EvGo (GoRestartAfter r') => bool_decide (r_ID r' = r_ID r)
  | EvGo (GoUnlockAfter _) => false
  | _ => true
  end.

(** A goroutine body that cannot restart the daemon or release the lock
    before request [r1] is done; [b] tells whether the handler of [r1]
    holds the lock. *)
Definition go_ok (r1 : nat) (b : bool) (g : Goroutine) : Prop :=
  match g with
  | GoUnlockAfter r => r_ID r = r1
  | GoRestartAfter r => r_ID r = r1 \/ b = true
  end.

(** The rest of a goroutine other than the handler of [r1]: before it
    can restart the daemon or release the self-removal lock it has to wait
    for [r1] or, when the handler of [r1] holds the lock, to take it. *)
Fixpoint guarded (self : string) (r1 : nat) (b : bool) (t : list Instr)
    : Prop :=
  match t with
  | [] => True
  | ICall e :: rest => is_forward self e = false /\ guarded self r1 b rest
  | ILock mu :: rest =>
      (mu = clusterPutDisableMu /\ b = true) \/ guarded self r1 b rest
  | IUnlock mu :: rest => mu <> clusterPutDisableMu /\ guarded self r1 b rest
  | IGo g :: rest => go_ok r1 b g /\ guarded self r1 b rest
  | IWait r :: rest => r = r1 \/ guarded self r1 b rest
  | IFlush _ :: rest => guarded self r1 b rest
  | IDone r :: rest => r <> r1 /\ guarded self r1 b rest
  | IRestart :: _ => False
  end.

(** The rest of the handler of [r1]: [b] tells whether it holds the
    self-removal lock, [fl] whether it has flushed its response. *)
Fixpoint main_ok (self : string) (r1 : nat) (b fl : bool) (t : list Instr)
    : Prop :=
  match t with
  | [] => True
  | ICall e :: rest =>
      (is_forward self e = true -> b = true) /\ main_ok self r1 b fl rest
  | ILock mu :: rest =>
      if decide (mu = clusterPutDisableMu)
      then b = false /\ main_ok self r1 true fl rest
      else main_ok self r1 b fl rest
  | IUnlock mu :: rest => mu <> clusterPutDisableMu /\ main_ok self r1 b fl rest
  | IGo g :: rest => go_ok r1 false g /\ main_ok self r1 b fl rest
  | IFlush r :: rest => r = r1 /\ main_ok self r1 b true rest
  | IDone r :: rest => r = r1 /\ fl = true
  | IWait _ :: _ => False
  | IRestart :: _ => False
  end.

(** The invariant of the interleaving: a request that is done has been
    answered; and as long as [r1] is not done, the daemon has not been
    restarted, the first goroutine is the handler of [r1], the lock is
    locked once that handler has taken it, and all other goroutines are
    guarded. *)
Definition self_removal_inv (self : string) (r1 : nat) (s : System) : Prop :=
  r1 ∈ requests s /\
  (r1 ∈ finished s -> r1 ∈ flushed s) /\
  (r1 ∉ finished s ->
   restarted s = false /\
   exists b fl main others,
     threads s = main :: others /\
     main_ok self r1 b fl main /\
     (b = true -> clusterPutDisableMu ∈ held s) /\
     (fl = true -> r1 ∈ flushed s) /\
     Forall (guarded self r1 b) others).

(** The log [l] extends [l0] by harmless events. *)
Definition harmless_since (self : string) (r : Request) (l0 l : Log) : Prop :=
  exists new, l = new ++ l0 /\ Forall (fun e => harmless self r e = true) new.

(** The log [l] extends [l0] by harmless events, then the self-removal
    lock is taken and the unlocking goroutine started, then come events
    that are harmless under the lock. *)
Definition locked_since (self : string) (r : Request) (l0 l : Log) : Prop :=
  exists pre post,
    l = post ++ [EvGo (GoUnlockAfter r); EvLock clusterPutDisableMu]
        ++ pre ++ l0 /\
    Forall (fun e => harmless self r e = true) pre /\
    Forall (fun e => harmless_locked r e = true) post.

(** A scheduler's choice: goroutine [i] executes its next instruction, or
    the leader's request [r'] arrives while goroutine [i] forwards the
    removal. *)
Inductive Act :=
| Run (i : nat)
| Callback (i : nat) (env' : Env) (r' : Request) (d' : Daemon).

(** [step], as a function of the scheduler's choice. *)
Definition act (self : string) (a : Act) (s : System) : option System :=
  match a with
  | Run i =>
      match threads s !! i with
      | Some (instr :: rest) =>
          let ts := <[i := rest]> (threads s) in
          match instr with
          | ICall _ =>
              Some (mkSystem ts (held s) (finished s) (flushed s)
                      (requests s) (restarted s))
          | ILock mu =>
              if decide (mu ∈ held s) then None
              else Some (mkSystem ts (mu :: held s) (finished s) (flushed s)
                           (requests s) (restarted s))
          | IUnlock mu =>
              Some (mkSystem ts (filter (fun mu' => mu' <> mu) (held s))
                      (finished s) (flushed s) (requests s) (restarted s))
          | IGo g =>
              Some (mkSystem (ts ++ [goroutine g]) (held s) (finished s)
                      (flushed s) (requests s) (restarted s))
          | IWait r =>
              if decide (r ∈ finished s)
              then Some (mkSystem ts (held s) (finished s) (flushed s)
                           (requests s) (restarted s))
              else None
          | IFlush r =>
              Some (mkSystem ts (held s) (finished s) (r :: flushed s)
                      (requests s) (restarted s))
          | IDone r =>
              Some (mkSystem ts (held s) (r :: finished s) (flushed s)
                      (requests s) (restarted s))
          | IRestart =>
              Some (mkSystem ts (held s) (finished s) (flushed s)
                      (requests s) true)
          end
      | _ => None
      end
  | Callback i env' r' d' =>
      match threads s !! i, log d' with
      | Some (ICall e :: rest), [] =>
          if is_forward self e && bool_decide (r_ID r' ∉ requests s)
          then Some (mkSystem
                       (threads s
                        ++ [handler_thread r' true
                              (log (clusterPut env' r' d').2)])
                       (held s) (finished s) (flushed s)
                       (r_ID r' :: requests s) (restarted s))
          else None
      | _, _ => None
      end
  end.

Fixpoint schedule (self : string) (acts : list Act) (s : System)
    : option System :=
  match acts with
  | [] => Some s
  | a :: rest =>
      match act self a s with
      | Some s' => schedule self rest s'
      | None => None
      end
  end.

(** [DELETE /1.0/cluster/members/n2], received by [n2] itself. *)
Definition delete_n2 : Request := mkRequest 1 "" ∅ {["name" := "n2"]}.

(** The leader's [PUT /1.0/cluster] with [enabled=false]. *)
Definition disable_n2 : Request := mkRequest 2 "" ∅ ∅.

(** A run of the self-removal of [n2]: the handler takes the lock, starts
    the unlocking goroutine and forwards the removal; the leader calls
    back and the handler of that request runs to its end; the forwarded
    call returns and the first handler responds and returns; the lock is
    released; the daemon restarts. *)
Definition self_removal_run : list Act :=
  replicate 11 (Run 0)
  ++ [Callback 0 (scenarioEnv quiet) disable_n2 daemon_n2]
  ++ replicate 14 (Run 2)
  ++ replicate 3 (Run 0)
  ++ replicate 2 (Run 1)
  ++ replicate 3 (Run 3).

(** The removal of [self] is forwarded only under the self-removal
    lock. *)
Definition locked_first (self : string) (e : Event) (older : list Event)
    : Prop :=
  is_forward self e = true -> EvLock clusterPutDisableMu ∈ older.

(** * The rest of the cluster API, and helpers of other packages *)

(** ** Programs over a log of calls

    The functions below are embedded in the same style as the handlers
    above, over a world that is chosen per function: the log of the calls
    made so far, most recent first, and where needed the fields written. *)

Local Open Scope string_scope.

Definition Prog (W A : Type) : Type := W -> A * W.

Definition pret {W A} (a : A) : Prog W A := fun w => (a, w).

Definition pbind {W A B} (m : Prog W A) (k : A -> Prog W B) : Prog W B :=
  fun w => let (a, w') := m w in k a w'.

Declare Scope prog_scope.
Delimit Scope prog_scope with prog.
Notation "'let*' x := c 'in' k" := (pbind c (fun x => k))
  (at level 10, x pattern, c at level 100, k at level 200) : prog_scope.
Notation "c ;; k" := (pbind c (fun _ => k))
  (at level 100, k at level 200, right associativity) : prog_scope.

(** A call to the outside, answered from the log and recorded in it. *)
Definition ask {E A} (answer : list E -> A) (ev : A -> E)
    : Prog (list E) A :=
  fun l => let a := answer l in (a, ev a :: l).

(** A call whose answer is not looked at. *)
Definition tell {E} (e : E) : Prog (list E) unit := fun l => (tt, e :: l).

(** [if err != nil { return h(err) }]. *)
Definition por {W A R} (c : Prog W (Error + A)) (h : Error -> R)
    (k : A -> Prog W R) : Prog W R :=
  pbind c (fun x => match x with inl err => pret (h err) | inr a => k a end).

Definition pcheck {W R} (c : Prog W (option Error)) (h : Error -> R)
    (k : Prog W R) : Prog W R :=
  pbind c (fun x => match x with Some err => pret (h err) | None => k end).

Notation "'try' x := c 'else' h 'in' k" := (por c h (fun x => k))
  (at level 10, x pattern, c at level 100, h at level 9, k at level 200)
  : prog_scope.
Notation "'ensure' c 'else' h 'in' k" := (pcheck c h k)
  (at level 10, c at level 100, h at level 9, k at level 200)
  : prog_scope.

(** [Transaction(ctx, f)] of either database handle: begin, run the
    closure, commit when it returned no error. *)
Definition transaction {E A} (begin commit : list E -> option Error)
    (evBegin evCommit : option Error -> E)
    (f : Prog (list E) (Error + A)) : Prog (list E) (Error + A) :=
  pbind (ask begin evBegin) (fun b =>
  match b with
  | Some err => pret (inl err)
  | None =>
      pbind f (fun x =>
      match x with
      | inl err => pret (inl err)
      | inr a =>
          pbind (ask commit evCommit) (fun c =>
          match c with
          | Some err => pret (inl err)
          | None => pret (inr a)
          end)
      end)
  end).

(** The double quote character, for messages built with [\"%s\"]. *)
Definition dquote : string := String (Ascii.ascii_of_nat 34) EmptyString.

(** [s1 < s2] on Go strings: byte-wise lexicographic. *)
Definition string_lt (s1 s2 : string) : bool := String.ltb s1 s2.

(** The calls made between two logs. *)
Definition since {E} (l l' new : list E) : Prop := l' = (new ++ l)%list.

Local Open Scope prog_scope.

(** The responses of package [response] built by the functions below;
    [A] is the type of the metadata.  [External] is a response built by a
    function outside the modelled files and passed on as it is. *)
Module response.

Inductive Response (A : Type) : Type :=
| BadRequest (err : Error)
| SmartError (err : Error)
| InternalError (err : Error)
| PreconditionFailed (err : Error)
| External (answer : string)
| SyncResponse (success : bool) (metadata : A)
| SyncResponseETag (success : bool) (metadata : A)
| SyncResponseLocation (success : bool) (location : string)
| EmptySyncResponse
| OperationResponse (op : A).

Global Arguments BadRequest {A} err.
Global Arguments SmartError {A} err.
Global Arguments InternalError {A} err.
Global Arguments PreconditionFailed {A} err.
Global Arguments External {A} answer.
Global Arguments SyncResponse {A} success metadata.
Global Arguments SyncResponseETag {A} success metadata.
Global Arguments SyncResponseLocation {A} success location.
Global Arguments EmptySyncResponse {A}.
Global Arguments OperationResponse {A} op.

Definition is_error {A} (resp : Response A) : bool :=
  match resp with
  | BadRequest _ | SmartError _ | InternalError _ | PreconditionFailed _ => true
  | _ => false
  end.

End response.

(** ** [GET /1.0/cluster] *)

(** [api.ClusterMemberConfigKey]. *)
Record ClusterMemberConfigKey := mkConfigKey {
  key_Entity : string;
  key_Name : string;
  key_Key : string;
  key_Value : string;
  key_Description : string
}.

Global Instance ClusterMemberConfigKey_eq_dec : EqDecision ClusterMemberConfigKey.
Proof. solve_decision. Defined.

(** [api.Cluster]. *)
Record Cluster := mkCluster {
  cluster_ServerName : string;
  cluster_Enabled : bool;
  cluster_MemberConfig : list ClusterMemberConfigKey
}.

(** The calls of [clusterGetMemberConfig]. *)
Inductive MemberConfigEvent :=
| McTxBegin (res : option Error)
| McTxCommit (res : option Error)
| McGetStoragePoolsLocalConfig (res : Error + gmap string (gmap string string))
| McGetNetworksLocalConfig (res : Error + gmap string (gmap string string)).

(** The [less] function that [clusterGet] passes to [sort.Slice]. *)
Definition memberConfigLess (left_ right_ : ClusterMemberConfigKey) : bool :=
  if negb (String.eqb (key_Entity left_) (key_Entity right_)) then
    string_lt (key_Entity left_) (key_Entity right_)
  else if negb (String.eqb (key_Name left_) (key_Name right_)) then
    string_lt (key_Name left_) (key_Name right_)
  else if negb (String.eqb (key_Key left_) (key_Key right_)) then
    string_lt (key_Key left_) (key_Key right_)
  else string_lt (key_Description left_) (key_Description right_).

Section ClusterGet.

(** [internalInstance.ConfigVolatilePrefix]. *)
Variable ConfigVolatilePrefix : string.

(** The order in which a [range] statement yields the entries of a map. *)
Variable rangeMap : forall V, gmap string V -> list (string * V).

(** [sort.Slice]. *)
Variable sort_Slice :
  (ClusterMemberConfigKey -> ClusterMemberConfigKey -> bool) ->
  list ClusterMemberConfigKey -> list ClusterMemberConfigKey.

Variable txBegin txCommit : list MemberConfigEvent -> option Error.
Variable GetStoragePoolsLocalConfig GetNetworksLocalConfig :
  list MemberConfigEvent -> Error + gmap string (gmap string string).

(** The inner loop over the configuration of one storage pool. *)
Fixpoint poolConfigKeys (pool : string) (config : list (string * string))
    (keys : list ClusterMemberConfigKey) : list ClusterMemberConfigKey :=
  match config with
  | [] => keys
  | (key, _) :: rest =>
      if String.prefix ConfigVolatilePrefix key then
        poolConfigKeys pool rest keys
      else
        let key := mkConfigKey "storage-pool" pool key ""
                     (dquote ++ key ++ dquote ++ " property for storage pool "
                      ++ dquote ++ pool ++ dquote) in
        poolConfigKeys pool rest (keys ++ [key])
  end.

Fixpoint poolsKeys (pools : list (string * gmap string string))
    (keys : list ClusterMemberConfigKey) : list ClusterMemberConfigKey :=
  match pools with
  | [] => keys
  | (pool, config) :: rest =>
      poolsKeys rest (poolConfigKeys pool (rangeMap _ config) keys)
  end.

(** The inner loop over the configuration of one network. *)
Fixpoint networkConfigKeys (network : string) (config : list (string * string))
    (keys : list ClusterMemberConfigKey) : list ClusterMemberConfigKey :=
  match config with
  | [] => keys
  | (key, _) :: rest =>
      if String.prefix ConfigVolatilePrefix key then
        networkConfigKeys network rest keys
      else
        let key := mkConfigKey "network" network key ""
                     (dquote ++ key ++ dquote ++ " property for network "
                      ++ dquote ++ network ++ dquote) in
        networkConfigKeys network rest (keys ++ [key])
  end.

Fixpoint networksKeys (networks : list (string * gmap string string))
    (keys : list ClusterMemberConfigKey) : list ClusterMemberConfigKey :=
  match networks with
  | [] => keys
  | (network, config) :: rest =>
      networksKeys rest (networkConfigKeys network (rangeMap _ config) keys)
  end.

(** Fetch information about all node-specific configuration keys set on
    the storage pools and networks of this cluster. *)
Definition clusterGetMemberConfig
    : Prog (list MemberConfigEvent) (Error + list ClusterMemberConfigKey) :=
  try (pools, networks) :=
      transaction txBegin txCommit McTxBegin McTxCommit (
        try pools := ask GetStoragePoolsLocalConfig McGetStoragePoolsLocalConfig
          else (fun err => inl
                  (wrap "Failed to fetch storage pools configuration" err)) in
        try networks := ask GetNetworksLocalConfig McGetNetworksLocalConfig
          else (fun err => inl
                  (wrap "Failed to fetch networks configuration" err)) in
        pret (inr (pools, networks)))
    else inl in
  let keys := poolsKeys (rangeMap _ pools) [] in
  let keys := networksKeys (rangeMap _ networks) keys in
  pret (inr keys).

Definition clusterGet (s_ServerName : string)
    : Prog (list MemberConfigEvent) (response.Response Cluster) :=
  let serverName := s_ServerName in
  (* If the name is set to the hard-coded default node name, then
     clustering is not enabled. *)
  let serverName := if String.eqb serverName "none" then "" else serverName in
  try memberConfig := clusterGetMemberConfig else response.SmartError in
  (* Sort the member config. *)
  let memberConfig := sort_Slice memberConfigLess memberConfig in
  let cluster := mkCluster serverName (negb (String.eqb serverName ""))
                   memberConfig in
  pret (response.SyncResponseETag true cluster).

End ClusterGet.

(** What [sort.Slice] guarantees for a [less] that is a strict weak
    order: the elements are rearranged so that no element is less than an
    earlier one. *)
Definition sorts {A} (less : A -> A -> bool)
    (sort_Slice : (A -> A -> bool) -> list A -> list A) : Prop :=
  forall l, sort_Slice less l ≡ₚ l /\
            Sorted (fun a b => less b a = false) (sort_Slice less l).

(** What a [range] statement guarantees: every entry once. *)
Definition ranges (rangeMap : forall V, gmap string V -> list (string * V))
    : Prop :=
  forall V (m : gmap string V), rangeMap V m ≡ₚ map_to_list m.

(** ** [clusterRolesChanged] *)

Section Roles.

(** The values of the map [db.ClusterRoles] in the order they are ranged
    over; [db.ClusterRole] is a string type. *)
Variable ClusterRoles : list string.

(** [cluster.RoleInSlice]. *)
Variable RoleInSlice : string -> list string -> bool.

(** The inner loop: check the list of known external roles. *)
Fixpoint knownExternalRole (r : string) (externalRoles : list string) : bool :=
  match externalRoles with
  | [] => false
  | externalRole :: rest =>
      if String.eqb r externalRole then true
      else knownExternalRole r rest
  end.

(** Build the list of external-only roles from the [newRoles] list. *)
Fixpoint externalOnly (newRoles newExternalRoles : list string)
    : list string :=
  match newRoles with
  | [] => newExternalRoles
  | r :: rest =>
      if knownExternalRole r ClusterRoles
      then externalOnly rest (newExternalRoles ++ [r])
      else externalOnly rest newExternalRoles
  end.

(** [for _, r := range roles { if !RoleInSlice(r, within) { return true } }] *)
Fixpoint missingFrom (roles within : list string) : bool :=
  match roles with
  | [] => false
  | r :: rest =>
      if negb (RoleInSlice r within) then true else missingFrom rest within
  end.

(** [clusterRolesChanged] checks whether the non-internal roles have
    changed between [oldRoles] and [newRoles]. *)
Definition clusterRolesChanged (oldRoles newRoles : list string) : bool :=
  let newExternalRoles := externalOnly newRoles [] in
  if missingFrom oldRoles newExternalRoles then true
  else if missingFrom newExternalRoles oldRoles then true
  else false.

End Roles.

(** ** [clusterValidateConfig] *)

Section ValidateConfig.

(** [validate.Optional] and [validate.IsOneOf]. *)
Variable Optional : (string -> option Error) -> string -> option Error.
Variable IsOneOf : list string -> string -> option Error.

(** The verb [%q] of [fmt]. *)
Variable Quote : string -> string.

Definition clusterConfigKeys : gmap string (string -> option Error) :=
  {[ "scheduler.instance" := Optional (IsOneOf ["all"; "group"; "manual"]) ]}.

(** [clusterValidateConfig] validates the configuration keys/values for
    cluster members; [config] are the entries of the map in the order the
    loop visits them. *)
Fixpoint clusterValidateConfig (config : list (string * string))
    : option Error :=
  match config with
  | [] => None
  | (k, v) :: rest =>
      (* User keys are free for all. *)
      if String.prefix "user." k then clusterValidateConfig rest
      else
        match clusterConfigKeys !! k with
        | None => Some ("Invalid cluster configuration key " ++ Quote k)
        | Some validator =>
            match validator v with
            | Some _ =>
                Some ("Invalid cluster configuration key " ++ Quote k
                      ++ " value")
            | None => clusterValidateConfig rest
            end
        end
  end.

End ValidateConfig.

(** The entries that [clusterValidateConfig] lets through. *)
Definition valid_member_config (k v : string) : Prop :=
  String.prefix "user." k = true \/
  (k = "scheduler.instance" /\ v ∈ [""; "all"; "group"; "manual"]).

(** The key that [clusterGetMemberConfig] lists for a property of a
    storage pool, and for a property of a network. *)
Definition storagePoolKey (pool key : string) : ClusterMemberConfigKey :=
  mkConfigKey "storage-pool" pool key ""
    (dquote ++ key ++ dquote ++ " property for storage pool "
     ++ dquote ++ pool ++ dquote).

Definition networkKey (network key : string) : ClusterMemberConfigKey :=
  mkConfigKey "network" network key ""
    (dquote ++ key ++ dquote ++ " property for network "
     ++ dquote ++ network ++ dquote).

(** The keys of the entities in [entities] that do not start with the
    volatile prefix. *)
Definition listed (ConfigVolatilePrefix : string)
    (entities : gmap string (gmap string string)) (name key : string) : Prop :=
  exists config, entities !! name = Some config /\ is_Some (config !! key) /\
    String.prefix ConfigVolatilePrefix key = false.

(** The lexicographic order on lists of strings that [memberConfigLess]
    computes on the fields it compares. *)
Fixpoint lex_lt (l1 l2 : list string) : bool :=
  match l1, l2 with
  | x :: xs, y :: ys =>
      if negb (String.eqb x y) then string_lt x y else lex_lt xs ys
  | _, _ => false
  end.

Definition compared (k : ClusterMemberConfigKey) : list string :=
  [key_Entity k; key_Name k; key_Key k; key_Description k].

(** What the two nested loops of [clusterGetMemberConfig] append. *)
Definition poolEntry (prefix : string) (pool : string) (kv : string * string)
    : option ClusterMemberConfigKey :=
  if String.prefix prefix kv.1 then None else Some (storagePoolKey pool kv.1).

Definition networkEntry (prefix : string) (network : string)
    (kv : string * string) : option ClusterMemberConfigKey :=
  if String.prefix prefix kv.1 then None else Some (networkKey network kv.1).

(** The keys of [clusterGetMemberConfig] for a fixed order of the maps. *)
Definition canonicalKeys (prefix : string)
    (pools networks : gmap string (gmap string string))
    : list ClusterMemberConfigKey :=
  ((map_to_list pools ≫= fun pc =>
      omap (poolEntry prefix pc.1) (map_to_list pc.2)) ++
   (map_to_list networks ≫= fun pc =>
      omap (networkEntry prefix pc.1) (map_to_list pc.2)))%list.

(** Two ways to range over a map, two ways to sort, and a cluster
    database with one storage pool and one network. *)
Definition range_forward : forall V, gmap string V -> list (string * V) :=
  fun V m => map_to_list m.

Definition range_backward : forall V, gmap string V -> list (string * V) :=
  fun V m => reverse (map_to_list m).

Definition sort_merge {A} (less : A -> A -> bool) (l : list A) : list A :=
  @merge_sort A (fun a b => less b a = false)
    (fun a b => decide (less b a = false)) l.

Definition sort_merge_reversed {A} (less : A -> A -> bool) (l : list A)
    : list A :=
  @merge_sort A (fun a b => less b a = false)
    (fun a b => decide (less b a = false)) (reverse l).

Definition local_pools : gmap string (gmap string string) :=
  {[ "local" := {[ "source" := "/dev/sdb";
                   "size" := "10GiB";
                   "volatile.initial_source" := "/dev/sdb" ]} ]}.

Definition local_networks : gmap string (gmap string string) :=
  {[ "br0" := {[ "bridge.external_interfaces" := "eth1" ]} ]}.

Local Close Scope prog_scope.

(** ** The handlers of [/1.0/cluster/members] and
       [/1.0/cluster/members/{name}] other than removal *)

Local Open Scope prog_scope.

Module Members.

(** [api.ClusterMemberPut]; a [nil] map is [None]. *)
Record ClusterMemberPut := mkClusterMemberPut {
  Config : option (gmap string string);
  Description : string;
  FailureDomain : string;
  Groups : list string;
  Roles : list string
}.

(** [api.ClusterMember], the fields the handlers read. *)
Record ClusterMember := mkClusterMember {
  Put : ClusterMemberPut;
  ServerName : string
}.

(** [db.NodeInfo], the fields the handlers read. *)
Record NodeInfo := mkNodeInfo {
  ID : Z;
  Name : string;
  NodeConfig : option (gmap string string);
  NodeRoles : list string
}.

(** [db.NodeInfoArgs]. *)
Record NodeInfoArgs := mkNodeInfoArgs {
  LeaderAddress : string;
  FailureDomains : gmap Z string;
  MemberFailureDomains : gmap string Z;
  OfflineThreshold : Duration;
  MaxMemberVersion : Z * Z;
  RaftNodes : list RaftNode
}.

(** [api.ClusterMemberPost] and [api.ClusterMemberStatePost]. *)
Record ClusterMemberPost := mkClusterMemberPost {
  post_ServerName : string
}.

Record ClusterMemberStatePost := mkClusterMemberStatePost {
  Action : string;
  Mode : string
}.

(** Lifecycle events sent by these handlers. *)
Inductive Lifecycle :=
| ClusterMemberUpdated (name : string)
| ClusterMemberRenamed (name old_name : string).

(** The closures handed to an evacuation. *)
Inductive OpRun :=
| RunEvacuate (name mode : string).

(** The calls that leave the handlers. *)
Inductive Event :=
| EvLeaderAddress (res : Error + string)
| EvTxBegin (db : DB) (res : option Error)
| EvTxCommit (db : DB) (res : option Error)
| EvGetRaftNodes (res : Error + list RaftNode)
| EvGetFailureDomainsNames (res : Error + gmap Z string)
| EvGetNodesFailureDomains (res : Error + gmap string Z)
| EvGetNodes (res : Error + list NodeInfo)
| EvGetNodeByName (name : string) (res : Error + NodeInfo)
| EvGetNodeMaxVersion (res : Error + Z * Z)
| EvToAPI (member : NodeInfo) (args : NodeInfoArgs) (res : Error + ClusterMember)
| EvUpdateNodeConfig (id : Z) (config : option (gmap string string))
    (res : option Error)
| EvSetDescription (id : Z) (description : string) (res : option Error)
| EvUpdateNodeRoles (id : Z) (roles : list string) (res : option Error)
| EvUpdateNodeFailureDomain (id : Z) (domain : string) (res : option Error)
| EvUpdateNodeClusterGroups (id : Z) (groups : list string)
    (res : option Error)
| EvNotifyHeartbeat
| EvSendLifecycle (project : string) (l : Lifecycle)
| EvForwardedResponseToNode (name : string) (res : option string)
| EvRenameNode (old new : string) (res : option Error)
| EvLock (mu : Mutex)
| EvUnlock (mu : Mutex)
| EvSetLocalLocation (name : string)
| EvMemberState (name : string) (res : Error + string)
| EvOperationCreate (run : OpRun) (res : Error + string)
| EvRestoreClusterMember (res : string)
| EvStop (inst : Instance) (stateful : bool) (res : option Error)
| EvShutdown (inst : Instance) (timeout : Z) (res : option Error)
| EvVolatileSet (inst : Instance) (key value : string) (res : option Error).

Definition Log := list Event.

(** What the handlers answer: the metadata of a synchronous response. *)
Inductive Metadata :=
| Members (l : list ClusterMember)
| URLs (l : list string)
| Member (m : ClusterMember)
| MemberState (state : string)
| OperationID (id : string).

Definition Response := response.Response Metadata.

(** What the handlers take from outside this file. *)
Record Env := mkEnv {
  (* pure helpers and constants *)
  PathUnescape : string -> Error + string;
  IsRecursionRequest : Request -> bool;
  filter_Parse : string -> Error + option (list string);
  filter_Match : ClusterMember -> list string -> Error + bool;
  URLPath : list string -> string;
  APIVersion : string;
  GlobalOfflineThreshold : Duration;
  EtagCheck : Request -> ClusterMemberPut -> option Error;
  json_ClusterMemberPut : string -> Error + ClusterMemberPut;
  json_ClusterMemberPost : string -> Error + ClusterMemberPost;
  json_ClusterMemberStatePost : string -> Error + ClusterMemberStatePost;
  ClusterRoleDatabase : string;
  ClusterRoles : list string;
  RoleInSlice : string -> list string -> bool;
  Optional : (string -> option Error) -> string -> option Error;
  IsOneOf : list string -> string -> option Error;
  Quote : string -> string;
  rangeMap : gmap string string -> list (string * string);
  ProjectParam : Request -> string;
  EndpointsSet : bool;
  evacuateValidator : string -> option Error;
  Atoi : string -> Error + Z;
  evacuateHostShutdownDefaultTimeout : Z;
  IsInstanceIsStopped : Error -> bool;
  PowerStateRunning : string;
  instProject : Instance -> string;
  (* stateful calls *)
  GetLeaderAddress : Log -> Error + string;
  txBegin : DB -> Log -> option Error;
  txCommit : DB -> Log -> option Error;
  GetRaftNodes : Log -> Error + list RaftNode;
  GetFailureDomainsNames : Log -> Error + gmap Z string;
  GetNodesFailureDomains : Log -> Error + gmap string Z;
  GetNodes : Log -> Error + list NodeInfo;
  GetNodeByName : string -> Log -> Error + NodeInfo;
  GetNodeMaxVersion : Log -> Error + Z * Z;
  ToAPI : NodeInfo -> NodeInfoArgs -> Log -> Error + ClusterMember;
  UpdateNodeConfig : Z -> option (gmap string string) -> Log -> option Error;
  SetDescription : Z -> string -> Log -> option Error;
  UpdateNodeRoles : Z -> list string -> Log -> option Error;
  UpdateNodeFailureDomain : Z -> string -> Log -> option Error;
  UpdateNodeClusterGroups : Z -> list string -> Log -> option Error;
  forwardedResponseToNode : string -> Log -> option string;
  RenameNode : string -> string -> Log -> option Error;
  GetMemberState : string -> Log -> Error + string;
  OperationCreate : OpRun -> Log -> Error + string;
  restoreClusterMember : Request -> Log -> string;
  Stop : Instance -> bool -> Log -> option Error;
  Shutdown : Instance -> Z -> Log -> option Error;
  VolatileSet : Instance -> string -> string -> Log -> option Error
}.

Section Handlers.

Variable env : Env.

Definition Transaction {A} (db : DB) (f : Prog Log (Error + A))
    : Prog Log (Error + A) :=
  transaction (txBegin env db) (txCommit env db) (EvTxBegin db) (EvTxCommit db) f.

(** The transaction on the node database that loads the raft nodes. *)
Definition loadRaftNodes : Prog Log (Error + list RaftNode) :=
  Transaction NodeDB (
    try raftNodes := ask (GetRaftNodes env) EvGetRaftNodes
      else (fun err => inl (wrap "Failed loading RAFT nodes" err)) in
    pret (inr raftNodes)).

(** The loop of [clusterNodesGet] that converts the members. *)
Fixpoint membersToAPI (nodes : list NodeInfo) (args : NodeInfoArgs)
    (members : list ClusterMember) : Prog Log (Error + list ClusterMember) :=
  match nodes with
  | [] => pret (inr members)
  | node :: rest =>
      try member := ask (ToAPI env node args) (EvToAPI node args) else inl in
      membersToAPI rest args (members ++ [member])
  end.

(** The loop of [clusterNodesGet] that applies the filters. *)
Fixpoint applyFilters (clauses : option (list string))
    (members filtered : list ClusterMember) : Error + list ClusterMember :=
  match members with
  | [] => inr filtered
  | member :: rest =>
      match clauses with
      | Some ((_ :: _) as clauses') =>
          match filter_Match env member clauses' with
          | inl err => inl err
          | inr match_ =>
              if negb match_ then applyFilters clauses rest filtered
              else applyFilters clauses rest (filtered ++ [member])
          end
      | _ => applyFilters clauses rest (filtered ++ [member])
      end
  end.

(** The loop of [clusterNodesGet] that builds the URLs. *)
Fixpoint memberURLs (members : list ClusterMember) (urls : list string)
    : list string :=
  match members with
  | [] => urls
  | member :: rest =>
      let u := URLPath env [APIVersion env; "cluster"; "members";
                            ServerName member] in
      memberURLs rest (urls ++ [u])
  end.

Definition clusterNodesGet (r : Request) : Prog Log Response :=
  let recursion := IsRecursionRequest env r in
  (* Parse filter value. *)
  let filterStr := FormValue r "filter" in
  match filter_Parse env filterStr with
  | inl err => pret (response.BadRequest (wrap "Invalid filter" err))
  | inr clauses =>
  try leaderAddress := ask (GetLeaderAddress env) EvLeaderAddress
    else response.InternalError in
  try raftNodes := loadRaftNodes else response.SmartError in
  try members := Transaction ClusterDB (
      try failureDomains :=
          ask (GetFailureDomainsNames env) EvGetFailureDomainsNames
        else (fun err => inl
                (wrap "Failed loading failure domains names" err)) in
      try memberFailureDomains :=
          ask (GetNodesFailureDomains env) EvGetNodesFailureDomains
        else (fun err => inl
                (wrap "Failed loading member failure domains" err)) in
      try nodes := ask (GetNodes env) EvGetNodes
        else (fun err => inl (wrap "Failed getting cluster members" err)) in
      try maxVersion := ask (GetNodeMaxVersion env) EvGetNodeMaxVersion
        else (fun err => inl (wrap "Failed getting max member version" err)) in
      let args := mkNodeInfoArgs leaderAddress failureDomains
                    memberFailureDomains (GlobalOfflineThreshold env)
                    maxVersion raftNodes in
      membersToAPI nodes args [])
    else response.SmartError in
  (* Apply filters. *)
  match applyFilters clauses members [] with
  | inl err => pret (response.SmartError err)
  | inr filtered =>
      (* Return full responses. *)
      if recursion then pret (response.SyncResponse true (Members filtered))
      else
        (* Return URLs only. *)
        pret (response.SyncResponse true (URLs (memberURLs members [])))
  end
  end.

(** The transaction on the cluster database that loads one member, in
    [clusterNodeGet] and [updateClusterNode]. *)
Definition loadMember (name leaderAddress : string) (raftNodes : list RaftNode)
    : Prog Log (Error + NodeInfo * ClusterMember) :=
  Transaction ClusterDB (
    try failureDomains :=
        ask (GetFailureDomainsNames env) EvGetFailureDomainsNames
      else (fun err => inl
              (wrap "Failed loading failure domains names" err)) in
    try memberFailureDomains :=
        ask (GetNodesFailureDomains env) EvGetNodesFailureDomains
      else (fun err => inl
              (wrap "Failed loading member failure domains" err)) in
    try member := ask (GetNodeByName env name) (EvGetNodeByName name)
      else inl in
    try maxVersion := ask (GetNodeMaxVersion env) EvGetNodeMaxVersion
      else (fun err => inl (wrap "Failed getting max member version" err)) in
    let args := mkNodeInfoArgs leaderAddress failureDomains
                  memberFailureDomains (GlobalOfflineThreshold env)
                  maxVersion raftNodes in
    try memberInfo := ask (ToAPI env member args) (EvToAPI member args)
      else inl in
    pret (inr (member, memberInfo))).

Definition clusterNodeGet (r : Request) : Prog Log Response :=
  match PathUnescape env (get (r_Vars r) "name") with
  | inl err => pret (response.SmartError err)
  | inr name =>
  try leaderAddress := ask (GetLeaderAddress env) EvLeaderAddress
    else response.InternalError in
  try raftNodes := loadRaftNodes else response.SmartError in
  try (_, memberInfo) := loadMember name leaderAddress raftNodes
    else response.SmartError in
  pret (response.SyncResponseETag true (Member memberInfo))
  end.

(** [slices.Contains] on strings. *)
Fixpoint Contains (s : list string) (v : string) : bool :=
  match s with
  | [] => false
  | x :: rest => if String.eqb x v then true else Contains rest v
  end.

(** The loop of a PATCH: populate the request config with the current
    values of the keys it does not set. *)
Fixpoint populate (current : list (string * string))
    (config : gmap string string) : gmap string string :=
  match current with
  | [] => config
  | (k, v) :: rest =>
      match config !! k with
      | Some _ => populate rest config
      | None => populate rest (<[k := v]> config)
      end
  end.

(** [range] over a map that may be [nil]. *)
Definition rangeNil (m : option (gmap string string)) : list (string * string) :=
  match m with
  | None => []
  | Some m => rangeMap env m
  end.

Definition updateClusterNode (r : Request) (isPatch : bool)
    : Prog Log Response :=
  match PathUnescape env (get (r_Vars r) "name") with
  | inl err => pret (response.SmartError err)
  | inr name =>
  try leaderAddress := ask (GetLeaderAddress env) EvLeaderAddress
    else response.InternalError in
  try raftNodes := loadRaftNodes else response.SmartError in
  try (member, memberInfo) := loadMember name leaderAddress raftNodes
    else response.SmartError in
  (* Validate the request is fine *)
  match EtagCheck env r (Put memberInfo) with
  | Some err => pret (response.PreconditionFailed err)
  | None =>
  (* Parse the request *)
  match json_ClusterMemberPut env (r_Body r) with
  | inl err => pret (response.BadRequest err)
  | inr req =>
  (* Validate the request *)
  if Contains (Roles (Put memberInfo)) (ClusterRoleDatabase env)
     && negb (Contains (Roles req) (ClusterRoleDatabase env)) then
    pret (response.BadRequest
            ("The " ++ Quote env (ClusterRoleDatabase env)
             ++ " role cannot be dropped at this time"))
  else if negb (Contains (Roles (Put memberInfo)) (ClusterRoleDatabase env))
          && Contains (Roles req) (ClusterRoleDatabase env) then
    pret (response.BadRequest
            ("The " ++ Quote env (ClusterRoleDatabase env)
             ++ " role cannot be added at this time"))
  (* Nodes must belong to at least one group. *)
  else if bool_decide (length (Groups req) = 0%nat) then
    pret (response.BadRequest
            "Cluster members need to belong to at least one group")
  else
  (* Convert the roles. *)
  let newRoles := Roles req in
  (* Update the database *)
  try _ := Transaction ClusterDB (
      try nodeInfo := ask (GetNodeByName env name) (EvGetNodeByName name)
        else (fun err => inl (wrap "Loading node information" err)) in
      match clusterValidateConfig (Optional env) (IsOneOf env) (Quote env)
              (rangeNil (Config req)) with
      | Some err => pret (inl err)
      | None =>
      let config :=
        if isPatch then
          (* Populate request config with current values. *)
          match Config req with
          | None => NodeConfig nodeInfo
          | Some config => Some (populate (rangeNil (NodeConfig nodeInfo)) config)
          end
        else Config req in
      (* Update node config. *)
      ensure ask (UpdateNodeConfig env (ID nodeInfo) config)
               (EvUpdateNodeConfig (ID nodeInfo) config)
        else (fun err => inl
                (wrap "Failed to update cluster member config" err)) in
      (* Update the description. *)
      ensure (if negb (String.eqb (Description req)
                         (Description (Put memberInfo)))
              then ask (SetDescription env (ID nodeInfo) (Description req))
                     (EvSetDescription (ID nodeInfo) (Description req))
              else pret None)
        else (fun err => inl (wrap "Update description" err)) in
      (* Update the roles. *)
      ensure ask (UpdateNodeRoles env (ID nodeInfo) newRoles)
               (EvUpdateNodeRoles (ID nodeInfo) newRoles)
        else (fun err => inl (wrap "Update roles" err)) in
      ensure ask (UpdateNodeFailureDomain env (ID nodeInfo) (FailureDomain req))
               (EvUpdateNodeFailureDomain (ID nodeInfo) (FailureDomain req))
        else (fun err => inl (wrap "Update failure domain" err)) in
      (* Update the cluster groups. *)
      ensure ask (UpdateNodeClusterGroups env (ID nodeInfo) (Groups req))
               (EvUpdateNodeClusterGroups (ID nodeInfo) (Groups req))
        else (fun err => inl (wrap "Update cluster groups" err)) in
      pret (inr tt)
      end)
    else response.SmartError in
  (* If cluster roles changed, then distribute the info to all members. *)
  (if EndpointsSet env
      && clusterRolesChanged (ClusterRoles env) (RoleInSlice env)
           (NodeRoles member) newRoles
   then tell EvNotifyHeartbeat else pret tt);;
  tell (EvSendLifecycle (ProjectParam env r) (ClusterMemberUpdated name));;
  pret response.EmptySyncResponse
  end end end.

Definition clusterNodePatch (r : Request) : Prog Log Response :=
  updateClusterNode r true.

Definition clusterNodePut (r : Request) : Prog Log Response :=
  updateClusterNode r false.

(** [POST /1.0/cluster/members/{name}]: the world is the server name of
    the daemon and the log. *)
Definition logged {S A} (m : Prog Log A) : Prog (S * Log) A :=
  fun w => let (a, l) := m w.2 in (a, (w.1, l)).

Definition set_serverName (name : string) : Prog (string * Log) unit :=
  fun w => (tt, (name, w.2)).

Definition get_serverName : Prog (string * Log) string :=
  fun w => (w.1, w).

Definition clusterNodePost (r : Request) : Prog (string * Log) Response :=
  match PathUnescape env (get (r_Vars r) "name") with
  | inl err => pret (response.SmartError err)
  | inr memberName =>
  (* Forward request. *)
  let* resp := logged (ask (forwardedResponseToNode env memberName)
                         (EvForwardedResponseToNode memberName)) in
  match resp with
  | Some resp => pret (response.External resp)
  | None =>
  (* Parse the request *)
  match json_ClusterMemberPost env (r_Body r) with
  | inl err => pret (response.BadRequest err)
  | inr req =>
  try _ := logged (Transaction ClusterDB (
      ensure ask (RenameNode env memberName (post_ServerName req))
               (EvRenameNode memberName (post_ServerName req))
        else inl in
      pret (inr tt)))
    else response.SmartError in
  (* Update local server name. *)
  logged (tell (EvLock globalConfigMu));;
  set_serverName (post_ServerName req);;
  logged (tell (EvUnlock globalConfigMu));;
  let* serverName := get_serverName in
  logged (tell (EvSetLocalLocation serverName));;
  logged (tell (EvSendLifecycle (ProjectParam env r)
                  (ClusterMemberRenamed (post_ServerName req) memberName)));;
  pret response.EmptySyncResponse
  end end end.

Definition clusterNodeStateGet (r : Request) : Prog Log Response :=
  match PathUnescape env (get (r_Vars r) "name") with
  | inl err => pret (response.SmartError err)
  | inr memberName =>
  (* Forward request. *)
  let* resp := ask (forwardedResponseToNode env memberName)
                 (EvForwardedResponseToNode memberName) in
  match resp with
  | Some resp => pret (response.External resp)
  | None =>
  try memberState := ask (GetMemberState env memberName)
                       (EvMemberState memberName)
    else response.SmartError in
  pret (response.SyncResponse true (MemberState memberState))
  end end.

(** The closure [stopFunc] of [clusterNodeStatePost]. *)
Definition stopFunc (inst : Instance) (action : string)
    : Prog Log (option Error) :=
  let projectName := instProject env inst in
  let tolerated (err : option Error) : option Error :=
    match err with
    | Some e => if negb (IsInstanceIsStopped env e) then Some e else None
    | None => None
    end in
  let* failed :=
    if String.eqb action "force-stop" then
      (* Handle forced shutdown. *)
      let* err := ask (Stop env inst false) (EvStop inst false) in
      match tolerated err with
      | Some e =>
          pret (Some (wrap ("Failed to force stop instance "
                            ++ Quote env (inst_Name inst) ++ " in project "
                            ++ Quote env projectName) e))
      | None => pret None
      end
    else if String.eqb action "stateful-stop" then
      (* Handle stateful stop. *)
      let* err := ask (Stop env inst true) (EvStop inst true) in
      match tolerated err with
      | Some e =>
          pret (Some (wrap ("Failed to stateful stop instance "
                            ++ Quote env (inst_Name inst) ++ " in project "
                            ++ Quote env projectName) e))
      | None => pret None
      end
    else
      (* Get the shutdown timeout for the instance. *)
      let timeout := get (inst_ExpandedConfig inst) "boot.host_shutdown_timeout" in
      let val := match Atoi env timeout with
                 | inl _ => evacuateHostShutdownDefaultTimeout env
                 | inr val => val
                 end in
      (* Start with a clean shutdown. *)
      let* err := ask (Shutdown env inst val) (EvShutdown inst val) in
      match err with
      | None => pret None
      | Some _ =>
          (* Fallback to forced stop. *)
          let* err := ask (Stop env inst false) (EvStop inst false) in
          match tolerated err with
          | Some e =>
              pret (Some (wrap ("Failed to stop instance "
                                ++ Quote env (inst_Name inst) ++ " in project "
                                ++ Quote env projectName) e))
          | None => pret None
          end
      end in
  match failed with
  | Some e => pret (Some e)
  | None =>
      (* Mark the instance as RUNNING in volatile so its state can be
         properly restored. *)
      ask (VolatileSet env inst "volatile.last_state.power"
             (PowerStateRunning env))
        (EvVolatileSet inst "volatile.last_state.power"
           (PowerStateRunning env));;
      pret None
  end.

Definition clusterNodeStatePost (r : Request) : Prog Log Response :=
  match PathUnescape env (get (r_Vars r) "name") with
  | inl err => pret (response.SmartError err)
  | inr name =>
  (* Forward request. *)
  let* resp := ask (forwardedResponseToNode env name)
                 (EvForwardedResponseToNode name) in
  match resp with
  | Some resp => pret (response.External resp)
  | None =>
  (* Parse the request. *)
  match json_ClusterMemberStatePost env (r_Body r) with
  | inl err => pret (response.BadRequest err)
  | inr req =>
  (* Validate the overrides. *)
  match (if String.eqb (Action req) "evacuate"
            && negb (String.eqb (Mode req) "")
         then evacuateValidator env (Mode req) else None) with
  | Some err => pret (response.BadRequest err)
  | None =>
  if String.eqb (Action req) "evacuate" then
    let run := RunEvacuate name (Mode req) in
    try op := ask (OperationCreate env run) (EvOperationCreate run)
      else response.SmartError in
    pret (response.OperationResponse (OperationID op))
  else if String.eqb (Action req) "restore" then
    let* resp := ask (restoreClusterMember env r) EvRestoreClusterMember in
    pret (response.External resp)
  else
    pret (response.BadRequest ("Unknown action " ++ Quote env (Action req)))
  end end end end.

End Handlers.

(** The calls of [updateClusterNode] that write to the database. *)
Definition is_update (e : Event) : bool :=
  match e with
  | EvUpdateNodeConfig _ _ _ | EvSetDescription _ _ _ | EvUpdateNodeRoles _ _ _
  | EvUpdateNodeFailureDomain _ _ _ | EvUpdateNodeClusterGroups _ _ _ => true
  | _ => false
  end.

(** The configuration a PATCH writes: the keys of the request, and the
    current value of every key the request does not set. *)
Definition patched (request current : option (gmap string string))
    : option (gmap string string) :=
  match request with
  | None => current
  | Some config => Some (config ∪ default ∅ current)
  end.

(** The URL of a member in the list of [clusterNodesGet]. *)
Definition memberURL (env : Env) (member : ClusterMember) : string :=
  URLPath env [APIVersion env; "cluster"; "members"; ServerName member].

(** Whether [clusterNodesGet] keeps a member under the parsed filter. *)
Definition matches (env : Env) (clauses : option (list string))
    (member : ClusterMember) : bool :=
  match clauses with
  | Some ((_ :: _) as clauses') =>
      match filter_Match env member clauses' with
      | inr true => true
      | _ => false
      end
  | _ => true
  end.

(** The members that a run has converted with [ToAPI], oldest last. *)
Definition converted (new : Log) : list NodeInfo :=
  omap (fun e => match e with
                 | EvToAPI member _ (inr _) => Some member
                 | _ => None
                 end) new.

Definition is_heartbeat (e : Event) : bool :=
  match e with
  | EvNotifyHeartbeat => true
  | _ => false
  end.

(** A cluster of one member named n1, which holds the database role and
    the event-hub role, and requests that decode to an update that keeps
    the database role, drops event-hub and sets one user key. *)
Definition row_n1 : NodeInfo :=
  mkNodeInfo 1 "n1" (Some {[ "scheduler.instance" := "all" ]}) ["event-hub"].

Definition member_n1 : ClusterMember :=
  mkClusterMember
    (mkClusterMemberPut (Some {[ "scheduler.instance" := "all" ]}) "" "default"
       ["default"] ["event-hub"; "database"])
    "n1".

Definition update_n1 : ClusterMemberPut :=
  mkClusterMemberPut (Some {[ "user.rack" := "3" ]}) "first" "default"
    ["default"] ["database"].

Definition one_member : Env := {|
  PathUnescape := inr;
  IsRecursionRequest := fun r => String.eqb (FormValue r "recursion") "1";
  filter_Parse := fun s => inr (if String.eqb s "" then None else Some [s]);
  filter_Match := fun m clauses => inr (bool_decide (ServerName m ∈ clauses));
  URLPath := fun parts => "/" ++ String.concat "/" parts;
  APIVersion := "1.0";
  GlobalOfflineThreshold := 20;
  EtagCheck := fun _ _ => None;
  json_ClusterMemberPut := fun _ => inr update_n1;
  json_ClusterMemberPost := fun body => inr (mkClusterMemberPost body);
  json_ClusterMemberStatePost :=
    fun body => inr (mkClusterMemberStatePost body "");
  ClusterRoleDatabase := "database";
  ClusterRoles := ["event-hub"; "ovn-chassis"];
  RoleInSlice := fun r l => bool_decide (r ∈ l);
  Optional := fun f v => if String.eqb v "" then None else f v;
  IsOneOf := fun l v => if bool_decide (v ∈ l) then None
                        else Some "not one of the allowed values";
  Quote := fun s => dquote ++ s ++ dquote;
  rangeMap := fun m => map_to_list m;
  ProjectParam := fun _ => "default";
  EndpointsSet := true;
  evacuateValidator := fun _ => None;
  Atoi := fun s => if String.eqb s "30" then inr 30 else inl "invalid syntax";
  evacuateHostShutdownDefaultTimeout := 30;
  IsInstanceIsStopped := fun e => String.eqb e "The instance is already stopped";
  PowerStateRunning := "RUNNING";
  instProject := fun _ => "default";
  GetLeaderAddress := fun _ => inr "10.0.0.1:8443";
  txBegin := fun _ _ => None;
  txCommit := fun _ _ => None;
  GetRaftNodes := fun _ => inr [mkRaftNode 1 "10.0.0.1:8443" RaftVoter "n1"];
  GetFailureDomainsNames := fun _ => inr ∅;
  GetNodesFailureDomains := fun _ => inr ∅;
  GetNodes := fun _ => inr [row_n1];
  GetNodeByName := fun _ _ => inr row_n1;
  GetNodeMaxVersion := fun _ => inr (1, 1);
  ToAPI := fun _ _ _ => inr member_n1;
  UpdateNodeConfig := fun _ _ _ => None;
  SetDescription := fun _ _ _ => None;
  UpdateNodeRoles := fun _ _ _ => None;
  UpdateNodeFailureDomain := fun _ _ _ => None;
  UpdateNodeClusterGroups := fun _ _ _ => None;
  forwardedResponseToNode := fun _ _ => None;
  RenameNode := fun _ _ _ => None;
  GetMemberState := fun _ _ => inr "state of n1";
  OperationCreate := fun _ _ => inr "operation-1";
  restoreClusterMember := fun _ _ => "restore";
  Stop := fun _ _ _ => None;
  Shutdown := fun _ _ _ => Some "timed out";
  VolatileSet := fun _ _ _ _ => None
|}.

(** An instance with no configuration of its own. *)
Definition web : Instance := mkInstance "web" ∅ true.

(** A request on member n1 with the given body. *)
Definition on_n1 (body : string) : Request :=
  mkRequest 1 body ∅ {[ "name" := "n1" ]}.

End Members.

Local Close Scope prog_scope.

(** ** Joining a cluster: what the joining member must have, and what it
       is initialised with *)

Local Open Scope prog_scope.

Module Joining.

(** [api.StoragePool]; a [nil] configuration map is [None]. *)
Record StoragePool := mkStoragePool {
  pool_Name : string;
  pool_Driver : string;
  pool_Status : string;
  pool_Description : string;
  pool_Config : option (gmap string string)
}.

(** [api.StoragePoolsPost]. *)
Record StoragePoolsPost := mkStoragePoolsPost {
  spp_Name : string;
  spp_Driver : string;
  spp_Description : string;
  spp_Config : option (gmap string string)
}.

(** [api.Project] and [api.ProjectsPost]. *)
Record Project := mkProject {
  project_Name : string;
  project_Description : string;
  project_Config : gmap string string
}.

Record ProjectsPost := mkProjectsPost {
  pp_Name : string;
  pp_Description : string;
  pp_Config : gmap string string
}.

(** [api.Network]. *)
Record Network := mkNetwork {
  net_Name : string;
  net_Type : string;
  net_Managed : bool;
  net_Status : string;
  net_Description : string;
  net_Config : option (gmap string string)
}.

(** [api.InitNetworksProjectPost]. *)
Record InitNetworksProjectPost := mkInitNetworksProjectPost {
  inp_Name : string;
  inp_Type : string;
  inp_Project : string;
  inp_Description : string;
  inp_Config : option (gmap string string)
}.

(** [api.InitLocalPreseed], the fields that [clusterInitMember] fills. *)
Record InitLocalPreseed := mkInitLocalPreseed {
  StoragePools : list StoragePoolsPost;
  Projects : list ProjectsPost;
  Networks : list InitNetworksProjectPost
}.

(** The calls that leave the functions. *)
Inductive Event :=
| EvTxBegin (res : option Error)
| EvTxCommit (res : option Error)
| EvGetCreatedStoragePoolNames (res : Error + list string)
| EvGetStoragePoolInAnyState (name : string) (res : Error + StoragePool)
| EvGetProjectNames (res : Error + list string)
| EvGetCreatedNetworkNamesByProject (project : string)
    (res : Error + list string)
| EvGetNetworkInAnyState (project name : string) (res : Error + Network)
| EvGetStoragePools (res : Error + list StoragePool)
| EvGetProjects (res : Error + list Project)
| EvGetNetworks (project : string) (res : Error + list Network)
| EvApplyServerPreseed (data : InitLocalPreseed) (res : option Error).

Definition Log := list Event.

(** What the functions take from outside this file. *)
Record Env := mkEnv {
  IsNotFoundError : Error -> bool;
  CompareConfigs : option (gmap string string) -> option (gmap string string) ->
                   list string -> option Error;
  NodeSpecificStorageConfig : list string;
  IsNodeSpecificNetworkConfig : string -> bool;
  StripNodeSpecificNetworkConfig :
    option (gmap string string) -> option (gmap string string);
  IsFalseOrEmpty : string -> bool;
  NetworkStatusCreated : string;
  Quote : string -> string;
  (* stateful calls, on the cluster database and on the cluster's API *)
  txBegin : Log -> option Error;
  txCommit : Log -> option Error;
  GetCreatedStoragePoolNames : Log -> Error + list string;
  GetStoragePoolInAnyState : string -> Log -> Error + StoragePool;
  GetProjectNames : Log -> Error + list string;
  GetCreatedNetworkNamesByProject : string -> Log -> Error + list string;
  GetNetworkInAnyState : string -> string -> Log -> Error + Network;
  GetStoragePools : Log -> Error + list StoragePool;
  GetProjects : Log -> Error + list Project;
  GetNetworks : string -> Log -> Error + list Network;
  ApplyServerPreseed : InitLocalPreseed -> Log -> option Error
}.

Section Functions.

Variable env : Env.

(** *** [clusterCheckStoragePoolsMatch] *)

(** The inner loop over the pools of the request; the second component
    is [found]. *)
Fixpoint matchReqPools (name : string) (reqPools : list StoragePool)
    : Prog Log (option Error * bool) :=
  match reqPools with
  | [] => pret (None, false)
  | reqPool :: rest =>
      if negb (String.eqb (pool_Name reqPool) name) then
        matchReqPools name rest
      else
        let* res := ask (GetStoragePoolInAnyState env name)
                      (EvGetStoragePoolInAnyState name) in
        match res with
        | inl err => pret (Some err, true)
        | inr pool =>
            if negb (String.eqb (pool_Driver pool) (pool_Driver reqPool)) then
              pret (Some ("Mismatching driver for storage pool " ++ name), true)
            else
              (* Exclude the keys which are node-specific. *)
              let exclude := NodeSpecificStorageConfig env in
              match CompareConfigs env (pool_Config pool) (pool_Config reqPool)
                      exclude with
              | Some err =>
                  pret (Some (wrap ("Mismatching config for storage pool "
                                    ++ name) err), true)
              | None => pret (None, true)
              end
        end
  end.

(** The loop over the names of the created pools. *)
Fixpoint matchPools (poolNames : list string) (reqPools : list StoragePool)
    : Prog Log (option Error) :=
  match poolNames with
  | [] => pret None
  | name :: rest =>
      let* res := matchReqPools name reqPools in
      match res with
      | (Some err, _) => pret (Some err)
      | (None, found) =>
          if negb found then pret (Some ("Missing storage pool " ++ name))
          else matchPools rest reqPools
      end
  end.

Definition clusterCheckStoragePoolsMatch (reqPools : list StoragePool)
    : Prog Log (option Error) :=
  let* res := transaction (txBegin env) (txCommit env) EvTxBegin EvTxCommit (
    let* names := ask (GetCreatedStoragePoolNames env)
                    EvGetCreatedStoragePoolNames in
    match names with
    | inl err =>
        if negb (IsNotFoundError env err) then pret (inl err)
        else ensure matchPools [] reqPools else inl in pret (inr tt)
    | inr poolNames =>
        ensure matchPools poolNames reqPools else inl in pret (inr tt)
    end) in
  match res with
  | inl err => pret (Some err)
  | inr _ => pret None
  end.

(** *** [clusterCheckNetworksMatch] *)

(** The inner loop over the networks of the request. *)
Fixpoint matchReqNetworks (networkProjectName networkName : string)
    (network : Network) (reqNetworks : list InitNetworksProjectPost)
    : option Error * bool :=
  match reqNetworks with
  | [] => (None, false)
  | reqNetwork :: rest =>
      if negb (String.eqb (inp_Name reqNetwork) networkName)
         || negb (String.eqb (inp_Project reqNetwork) networkProjectName) then
        matchReqNetworks networkProjectName networkName network rest
      else if negb (String.eqb (inp_Type reqNetwork) (net_Type network)) then
        (Some ("Mismatching type for network " ++ Quote env networkName
               ++ " in project " ++ Quote env networkProjectName), true)
      else
        (* Exclude the keys which are node-specific. *)
        let networkConfigWithoutNodeSpecific :=
          StripNodeSpecificNetworkConfig env (net_Config network) in
        let reqNetworkConfigwithoutNodeSpecific :=
          StripNodeSpecificNetworkConfig env (inp_Config reqNetwork) in
        match CompareConfigs env networkConfigWithoutNodeSpecific
                reqNetworkConfigwithoutNodeSpecific [] with
        | Some err =>
            (Some (wrap ("Mismatching config for network "
                         ++ Quote env (net_Name network) ++ " in project "
                         ++ Quote env networkProjectName) err), true)
        | None => (None, true)
        end
  end.

(** The loop over the networks of one project. *)
Fixpoint matchNetworks (networkProjectName : string)
    (networkNames : list string) (reqNetworks : list InitNetworksProjectPost)
    : Prog Log (option Error) :=
  match networkNames with
  | [] => pret None
  | networkName :: rest =>
      try network :=
          ask (GetNetworkInAnyState env networkProjectName networkName)
            (EvGetNetworkInAnyState networkProjectName networkName)
        else Some in
      (* OVN networks don't need local creation. *)
      if String.eqb (net_Type network) "ovn" then
        matchNetworks networkProjectName rest reqNetworks
      else
        (* Check that the network is present locally. *)
        match matchReqNetworks networkProjectName networkName network
                reqNetworks with
        | (Some err, _) => pret (Some err)
        | (None, found) =>
            if negb found then
              pret (Some ("Missing network " ++ Quote env networkName
                          ++ " in project " ++ Quote env networkProjectName))
            else matchNetworks networkProjectName rest reqNetworks
        end
  end.

(** The loop over the projects. *)
Fixpoint matchProjects (networkProjectNames : list string)
    (reqNetworks : list InitNetworksProjectPost) : Prog Log (option Error) :=
  match networkProjectNames with
  | [] => pret None
  | networkProjectName :: rest =>
      let* names :=
        ask (GetCreatedNetworkNamesByProject env networkProjectName)
          (EvGetCreatedNetworkNamesByProject networkProjectName) in
      match names with
      | inl err =>
          if negb (IsNotFoundError env err) then pret (Some err)
          else
            ensure matchNetworks networkProjectName [] reqNetworks else Some in
            matchProjects rest reqNetworks
      | inr networkNames =>
          ensure matchNetworks networkProjectName networkNames reqNetworks
            else Some in
          matchProjects rest reqNetworks
      end
  end.

Definition clusterCheckNetworksMatch
    (reqNetworks : list InitNetworksProjectPost) : Prog Log (option Error) :=
  let* res := transaction (txBegin env) (txCommit env) EvTxBegin EvTxCommit (
    (* Get a list of projects for networks. *)
    try networkProjectNames := ask (GetProjectNames env) EvGetProjectNames
      else (fun err => inl
              (wrap "Failed to load projects for networks" err)) in
    ensure matchProjects networkProjectNames reqNetworks else inl in
    pret (inr tt)) in
  match res with
  | inl err => pret (Some err)
  | inr _ => pret None
  end.

(** *** [clusterInitMember] *)

(** How a function ends: it returns, or the runtime panics. *)
Inductive Outcome (A : Type) :=
| Returns (a : A)
| Panics.

Global Arguments Returns {A} a.
Global Arguments Panics {A}.

(** [delete(m, k)] on a map that may be [nil]. *)
Definition deleteNil (k : string) (m : option (gmap string string))
    : option (gmap string string) :=
  match m with
  | None => None
  | Some m => Some (delete k m)
  end.

(** [m[k] = v] on a map that may be [nil]: assignment to an entry of a
    [nil] map panics. *)
Definition assignNil (k v : string) (m : option (gmap string string))
    : Outcome (option (gmap string string)) :=
  match m with
  | None => Panics
  | Some m => Returns (Some (<[k := v]> m))
  end.

(** [slices.Contains] on strings. *)
Fixpoint Contains (s : list string) (v : string) : bool :=
  match s with
  | [] => false
  | x :: rest => if String.eqb x v then true else Contains rest v
  end.

(** Apply the node-specific config supplied by the user to one pool. *)
Fixpoint applyPoolConfig (poolName : string)
    (memberConfig : list ClusterMemberConfigKey)
    (config : option (gmap string string))
    : Outcome (option (gmap string string)) :=
  match memberConfig with
  | [] => Returns config
  | c :: rest =>
      if negb (String.eqb (key_Entity c) "storage-pool") then
        applyPoolConfig poolName rest config
      else if negb (String.eqb (key_Name c) poolName) then
        applyPoolConfig poolName rest config
      else if negb (Contains (NodeSpecificStorageConfig env) (key_Key c)) then
        applyPoolConfig poolName rest config
      else
        match assignNil (key_Key c) (key_Value c) config with
        | Panics => Panics
        | Returns config' => applyPoolConfig poolName rest config'
        end
  end.

(** Merge the returned storage pools configs with the node-specific
    configs provided by the user. *)
Fixpoint initPools (pools : list StoragePool)
    (memberConfig : list ClusterMemberConfigKey)
    (data : list StoragePoolsPost) : Outcome (list StoragePoolsPost) :=
  match pools with
  | [] => Returns data
  | pool :: rest =>
      (* Skip pending pools. *)
      if String.eqb (pool_Status pool) "Pending" then
        initPools rest memberConfig data
      else
        (* Delete config keys that are automatically populated.  The map
           is the one of the fetched pool, which is not read again. *)
        let config := deleteNil "zfs.pool_name"
                        (deleteNil "volatile.initial_source"
                           (pool_Config pool)) in
        match applyPoolConfig (pool_Name pool) memberConfig config with
        | Panics => Panics
        | Returns config' =>
            let post := mkStoragePoolsPost (pool_Name pool) (pool_Driver pool)
                          (pool_Description pool) config' in
            initPools rest memberConfig (data ++ [post])%list
        end
  end.

(** Apply the node-specific config supplied by the user to one network. *)
Fixpoint applyNetworkConfig (networkName : string)
    (memberConfig : list ClusterMemberConfigKey)
    (config : option (gmap string string))
    : Outcome (option (gmap string string)) :=
  match memberConfig with
  | [] => Returns config
  | c :: rest =>
      if negb (String.eqb (key_Entity c) "network") then
        applyNetworkConfig networkName rest config
      else if negb (String.eqb (key_Name c) networkName) then
        applyNetworkConfig networkName rest config
      else if negb (IsNodeSpecificNetworkConfig env (key_Key c)) then
        applyNetworkConfig networkName rest config
      else
        match assignNil (key_Key c) (key_Value c) config with
        | Panics => Panics
        | Returns config' => applyNetworkConfig networkName rest config'
        end
  end.

(** The loop over the networks of one project. *)
Fixpoint initNetworks (projectName : string) (networks : list Network)
    (memberConfig : list ClusterMemberConfigKey)
    (data : list InitNetworksProjectPost)
    : Outcome (list InitNetworksProjectPost) :=
  match networks with
  | [] => Returns data
  | network :: rest =>
      (* Skip unmanaged or pending networks. *)
      if negb (net_Managed network)
         || negb (String.eqb (net_Status network) (NetworkStatusCreated env))
      then initNetworks projectName rest memberConfig data
      (* OVN networks don't need local creation. *)
      else if String.eqb (net_Type network) "ovn" then
        initNetworks projectName rest memberConfig data
      else
        (* Apply the node-specific config supplied by the user for
           networks in the default project. *)
        match (if String.eqb projectName ProjectDefaultName
               then applyNetworkConfig (net_Name network) memberConfig
                      (net_Config network)
               else Returns (net_Config network)) with
        | Panics => Panics
        | Returns config' =>
            let post := mkInitNetworksProjectPost (net_Name network)
                          (net_Type network) projectName
                          (net_Description network) config' in
            initNetworks projectName rest memberConfig (data ++ [post])%list
        end
  end.

(** The loop over the projects; the result is the error, if any, and the
    projects and networks collected. *)
Fixpoint initProjects (projects : list Project)
    (memberConfig : list ClusterMemberConfigKey)
    (dataProjects : list ProjectsPost)
    (dataNetworks : list InitNetworksProjectPost)
    : Prog Log (Outcome (Error + list ProjectsPost * list InitNetworksProjectPost)) :=
  match projects with
  | [] => pret (Returns (inr (dataProjects, dataNetworks)))
  | p :: rest =>
      if IsFalseOrEmpty env (get (project_Config p) "features.networks")
         && negb (String.eqb (project_Name p) ProjectDefaultName) then
        (* Skip non-default projects that can't have their own networks. *)
        initProjects rest memberConfig dataProjects dataNetworks
      else
        (* We only care about project features at this stage: the loop
           copies the entries whose key starts with [features.] into a
           new map, which is that part of the map whatever the order. *)
        let features :=
          filter (fun kv => String.prefix "features." kv.1 = true)
            (project_Config p) in
        (* Request that the project be created first. *)
        let dataProjects :=
          (dataProjects ++ [mkProjectsPost (project_Name p)
                              (project_Description p) features])%list in
        let* networks := ask (GetNetworks env (project_Name p))
                           (EvGetNetworks (project_Name p)) in
        match networks with
        | inl err =>
            pret (Returns (inl
              (wrap ("Failed to fetch network information about cluster "
                     ++ "networks in project " ++ Quote env (project_Name p))
                 err)))
        | inr networks =>
            match initNetworks (project_Name p) networks memberConfig
                    dataNetworks with
            | Panics => pret Panics
            | Returns dataNetworks =>
                initProjects rest memberConfig dataProjects dataNetworks
            end
        end
  end.

Definition clusterInitMember (memberConfig : list ClusterMemberConfigKey)
    : Prog Log (Outcome (option Error)) :=
  (* Fetch all pools currently defined in the cluster. *)
  let* pools := ask (GetStoragePools env) EvGetStoragePools in
  match pools with
  | inl err =>
      pret (Returns (Some
        (wrap "Failed to fetch information about cluster storage pools" err)))
  | inr pools =>
  match initPools pools memberConfig [] with
  | Panics => pret Panics
  | Returns dataStoragePools =>
  let* projects := ask (GetProjects env) EvGetProjects in
  match projects with
  | inl err =>
      pret (Returns (Some
        (wrap "Failed to fetch project information about cluster networks"
           err)))
  | inr projects =>
  let* res := initProjects projects memberConfig [] [] in
  match res with
  | Panics => pret Panics
  | Returns (inl err) => pret (Returns (Some err))
  | Returns (inr (dataProjects, dataNetworks)) =>
      let data := mkInitLocalPreseed dataStoragePools dataProjects
                    dataNetworks in
      let* err := ask (ApplyServerPreseed env data) (EvApplyServerPreseed data) in
      match err with
      | Some err =>
          pret (Returns (Some
            (wrap "Failed to initialize storage pools and networks" err)))
      | None => pret (Returns None)
      end
  end end end end.

End Functions.

(** The first pool of the request with the given name: the one the inner
    loop stops at. *)
Definition requestedPool (name : string) (reqPools : list StoragePool)
    : option StoragePool :=
  List.find (fun reqPool => String.eqb (pool_Name reqPool) name) reqPools.

(** The first network of the request with the given name and project. *)
Definition requestedNetwork (project name : string)
    (reqNetworks : list InitNetworksProjectPost)
    : option InitNetworksProjectPost :=
  List.find (fun reqNetwork => String.eqb (inp_Name reqNetwork) name
                               && String.eqb (inp_Project reqNetwork) project)
    reqNetworks.

(** A network of the cluster that a joining member need not have, or has
    as the cluster does: an OVN network, or one whose first entry in the
    request has the same type and, node-specific keys apart, a
    configuration that [CompareConfigs] accepts. *)
Definition networkAccepted (env : Env)
    (reqNetworks : list InitNetworksProjectPost) (project name : string)
    (network : Network) : Prop :=
  net_Type network = "ovn" \/
  exists reqNetwork,
    requestedNetwork project name reqNetworks = Some reqNetwork /\
    inp_Type reqNetwork = net_Type network /\
    CompareConfigs env
      (StripNodeSpecificNetworkConfig env (net_Config network))
      (StripNodeSpecificNetworkConfig env (inp_Config reqNetwork)) [] = None.

(** What the calls [new] show about a project: the names of its created
    networks were read (none when the database knows of none), and every
    one of them was loaded and is accepted. *)
Definition projectChecked (env : Env)
    (reqNetworks : list InitNetworksProjectPost) (new : list Event)
    (project : string) : Prop :=
  exists names,
    (EvGetCreatedNetworkNamesByProject project (inr names) ∈ new \/
     names = [] /\ exists err,
       IsNotFoundError env err = true /\
       EvGetCreatedNetworkNamesByProject project (inl err) ∈ new) /\
    forall name, name ∈ names ->
      exists network,
        EvGetNetworkInAnyState project name (inr network) ∈ new /\
        networkAccepted env reqNetworks project name network.

(** The node-specific values that the user gave for a storage pool, as
    pairs of key and value, in the order given. *)
Definition poolOverrides (env : Env) (poolName : string)
    (memberConfig : list ClusterMemberConfigKey) : list (string * string) :=
  omap (fun c =>
          if String.eqb (key_Entity c) "storage-pool"
             && String.eqb (key_Name c) poolName
             && Contains (NodeSpecificStorageConfig env) (key_Key c)
          then Some (key_Key c, key_Value c) else None) memberConfig.

(** A pool of the cluster and the entry it is initialised with: the
    user's values, the last one given for a key first, over the
    cluster's configuration without the two automatic keys. *)
Definition initialised (env : Env)
    (memberConfig : list ClusterMemberConfigKey)
    (pool : StoragePool) (post : StoragePoolsPost) : Prop :=
  spp_Name post = pool_Name pool /\
  spp_Driver post = pool_Driver pool /\
  spp_Description post = pool_Description pool /\
  spp_Config post =
    match pool_Config pool with
    | None => None
    | Some config =>
        Some (list_to_map (reverse (poolOverrides env (pool_Name pool)
                                      memberConfig))
              ∪ delete "zfs.pool_name"
                  (delete "volatile.initial_source" config))
    end.

(** The node-specific values that the user gave for a network. *)
Definition networkOverrides (env : Env) (networkName : string)
    (memberConfig : list ClusterMemberConfigKey) : list (string * string) :=
  omap (fun c =>
          if String.eqb (key_Entity c) "network"
             && String.eqb (key_Name c) networkName
             && IsNodeSpecificNetworkConfig env (key_Key c)
          then Some (key_Key c, key_Value c) else None) memberConfig.

(** The networks that a joining member creates locally: managed, created
    and not OVN. *)
Definition wanted (env : Env) (network : Network) : bool :=
  net_Managed network
  && String.eqb (net_Status network) (NetworkStatusCreated env)
  && negb (String.eqb (net_Type network) "ovn").

(** A network of the cluster and its entry in the preseed: the user's
    values are applied in the default project only. *)
Definition networkEntry (env : Env)
    (memberConfig : list ClusterMemberConfigKey) (project : string)
    (network : Network) (post : InitNetworksProjectPost) : Prop :=
  inp_Name post = net_Name network /\
  inp_Type post = net_Type network /\
  inp_Project post = project /\
  inp_Description post = net_Description network /\
  inp_Config post =
    if String.eqb project ProjectDefaultName then
      match net_Config network with
      | None => None
      | Some config =>
          Some (list_to_map (reverse (networkOverrides env (net_Name network)
                                        memberConfig)) ∪ config)
      end
    else net_Config network.

(** The projects that are created on a joining member: the default
    project and those that have networks of their own. *)
Definition withNetworks (env : Env) (p : Project) : bool :=
  negb (IsFalseOrEmpty env (get (project_Config p) "features.networks")
        && negb (String.eqb (project_Name p) ProjectDefaultName)).

(** A project of the cluster and its entry in the preseed: of the
    configuration only the features are kept. *)
Definition projectEntry (p : Project) (post : ProjectsPost) : Prop :=
  pp_Name post = project_Name p /\
  pp_Description post = project_Description p /\
  forall k, pp_Config post !! k =
            if String.prefix "features." k then project_Config p !! k
            else None.

Definition pending (pool : StoragePool) : bool :=
  String.eqb (pool_Status pool) "Pending".

Definition is_apply (e : Event) : bool :=
  match e with
  | EvApplyServerPreseed _ _ => true
  | _ => false
  end.

(** A small cluster to run the functions on: one created pool and one
    pending pool, the default project with a bridge, an OVN network and
    an unmanaged interface. *)
Definition pool_local : StoragePool :=
  mkStoragePool "local" "zfs" "Created" "main pool"
    (Some {[ "source" := "tank/incus"; "zfs.pool_name" := "tank/incus";
             "volatile.initial_source" := "tank"; "size" := "10GiB" ]}).

Definition pool_slow : StoragePool :=
  mkStoragePool "slow" "dir" "Pending" "" (Some ∅).

Definition net_br0 : Network :=
  mkNetwork "br0" "bridge" true "Created" "" (Some {[ "ipv4.nat" := "true" ]}).

Definition net_ovn0 : Network :=
  mkNetwork "ovn0" "ovn" true "Created" "" (Some ∅).

Definition net_eth0 : Network :=
  mkNetwork "eth0" "physical" false "" "" None.

Definition project_default : Project :=
  mkProject "default" "Default project"
    {[ "features.networks" := "true"; "limits.instances" := "5" ]}.

Definition sameConfig (a b : option (gmap string string))
    (exclude : list string) : option Error :=
  if decide (a = b) then None else Some "different values".

Definition small_cluster : Env :=
  {| IsNotFoundError := fun err => String.eqb err "not found";
     CompareConfigs := sameConfig;
     NodeSpecificStorageConfig := ["source"; "size"];
     IsNodeSpecificNetworkConfig :=
       fun k => String.eqb k "bridge.external_interfaces";
     StripNodeSpecificNetworkConfig :=
       fun c => deleteNil "bridge.external_interfaces" c;
     IsFalseOrEmpty := fun v => negb (String.eqb v "true");
     NetworkStatusCreated := "Created";
     Quote := fun s => dquote ++ s ++ dquote;
     txBegin := fun _ => None;
     txCommit := fun _ => None;
     GetCreatedStoragePoolNames := fun _ => inr ["local"];
     GetStoragePoolInAnyState := fun _ _ => inr pool_local;
     GetProjectNames := fun _ => inr ["default"];
     GetCreatedNetworkNamesByProject := fun _ _ => inr ["br0"; "ovn0"];
     GetNetworkInAnyState :=
       fun _ name _ => inr (if String.eqb name "ovn0" then net_ovn0
                            else net_br0);
     GetStoragePools := fun _ => inr [pool_local; pool_slow];
     GetProjects := fun _ => inr [project_default];
     GetNetworks := fun _ _ => inr [net_br0; net_ovn0; net_eth0];
     ApplyServerPreseed := fun _ _ => None |}.

(** What a user joining [small_cluster] passes. *)
Definition member_config : list ClusterMemberConfigKey :=
  [ mkConfigKey "storage-pool" "local" "source" "/dev/sdb" "";
    mkConfigKey "storage-pool" "local" "zfs.pool_name" "p" "";
    mkConfigKey "network" "br0" "bridge.external_interfaces"
      "eth1" "" ].

Definition req_br0 : InitNetworksProjectPost :=
  mkInitNetworksProjectPost "br0" "bridge" "default" ""
    (Some {[ "ipv4.nat" := "true"; "bridge.external_interfaces" := "eth1" ]}).

End Joining.

Local Close Scope prog_scope.

(** ** [PUT /1.0/cluster]: the addresses of a new cluster member *)

(** The node-local configuration with [cluster.https_address] set. *)
Definition withClusterAddress (address : string)
    (config : gmap string string) : gmap string string :=
  <["cluster.https_address" := address]> config.

(** A stand-alone server that is asked to join the cluster of [n1] under
    the address it already listens on. *)
Definition join_n2 : Scenario := {|
  sc_ClusterPut :=
    mkClusterPut "n2" true "10.0.0.1:8443" "cluster.crt" "10.0.0.2:8443" "" [];
  sc_LeaderAddress := sc_LeaderAddress quiet;
  sc_GetNodes := [];
  sc_Now := 105;
  sc_Rebalance := sc_Rebalance quiet;
  sc_HasConnectivity := sc_HasConnectivity quiet;
  sc_Handover := sc_Handover quiet;
  sc_GetNodeByAddress := sc_GetNodeByAddress quiet;
  sc_GetRaftNodes := [];
  sc_Geteuid := 0;
  sc_PathExists := sc_PathExists quiet;
  sc_ConfigLoad := {["core.https_address" := "10.0.0.2:8443"]};
  sc_LoadNodeAll := inr [];
  sc_Volumes := []
|}.

Definition daemon_joining : Daemon := {|
  serverName := "";
  serverClustered := false;
  systemdSocketActivated := false;
  localConfig := {["core.https_address" := "10.0.0.2:8443"]};
  operations := ∅;
  log := []
|}.

(** ** [DELETE /1.0/cluster/members/{name}] with [force=1] *)

(** The calls of a forced removal: nothing is deleted or reset on the
    departing member, and the calls that carry the force flag have it
    set. *)
Definition forced_only (e : Event) : bool :=
  match e with
  | EvDeleteNetwork _ _ _ _ => false
  | EvDeleteStoragePool _ _ _ => false
  | EvUpdateCluster _ _ _ => false
  | EvLeave _ force _ _ => force
  | EvDeleteClusterMember _ _ force _ _ => force
  | _ => true
  end.

(** [DELETE /1.0/cluster/members/n3?force=1]. *)
Definition forced_removal : Request :=
  {| r_ID := 7; r_Body := ""; r_Form := {["force" := "1"]};
     r_Vars := {["name" := "n3"]} |}.

(** ** Starting the instances at boot *)

Local Open Scope prog_scope.

Module Autostart.

(** The calls that leave [instancesStart]. *)
Inductive Event :=
| EvLock
| EvUnlock
| EvIsRunning (inst : Instance) (res : bool)
| EvStart (inst : Instance) (res : option Error)
| EvSleep (seconds : Z)
| EvUpsertWarningLocalNode (inst : Instance) (message : string)
    (res : option Error)
| EvResolveWarnings (inst : Instance) (res : option Error).

Definition Log := list Event.

Section Functions.

(** The daemon's view of strings and states, as for the activation
    probe. *)
Variable env : Env.

(** [strconv.Atoi]: the number, and the error if any. *)
Variable strconv_Atoi : string -> Z * option Error.

(** [api.StatusErrorCheck(err, http.StatusServiceUnavailable)]. *)
Variable IsServiceUnavailable : Error -> bool.

(** [fmt.Sprintf("%v", err)]. *)
Variable Sprintf_v : Error -> string.

(** [sort.Sort] on an [instanceAutostartList]. *)
Variable sort_Sort : list Instance -> list Instance.

(** The calls on an instance and on the cluster database. *)
Variable IsRunning : Instance -> Log -> bool.
Variable Start : Instance -> Log -> option Error.
Variable UpsertWarningLocalNode : Instance -> string -> Log -> option Error.
Variable ResolveWarnings : Instance -> Log -> option Error.

(** [instanceAutostartList.Less], on the elements at the two indices. *)
Definition instanceAutostartList_Less (a b : Instance) : bool :=
  let iOrder := get (inst_ExpandedConfig a) "boot.autostart.priority" in
  let jOrder := get (inst_ExpandedConfig b) "boot.autostart.priority" in
  if negb (String.eqb iOrder jOrder) then
    let iOrderInt := (strconv_Atoi iOrder).1 in
    let jOrderInt := (strconv_Atoi jOrder).1 in
    Z.gtb iOrderInt jOrderInt
  else string_lt (inst_Name a) (inst_Name b).

(** [instanceStopList.Less]. *)
Definition instanceStopList_Less (a b : Instance) : bool :=
  let iOrder := get (inst_ExpandedConfig a) "boot.stop.priority" in
  let jOrder := get (inst_ExpandedConfig b) "boot.stop.priority" in
  if negb (String.eqb iOrder jOrder) then
    let iOrderInt := (strconv_Atoi iOrder).1 in
    let jOrderInt := (strconv_Atoi jOrder).1 in
    Z.gtb iOrderInt jOrderInt
  else string_lt (inst_Name a) (inst_Name b).

Definition maxAttempts : nat := 3.

(** The loop that tries to start one instance; [attempt] counts the
    attempts made so far.  Every turn of the loop uses one unit of
    [fuel]; the result is [false] when it runs out. *)
Fixpoint startAttempts (fuel : nat) (attempt : nat) (inst : Instance)
    (autoStartDelay : string) : Prog Log bool :=
  match fuel with
  | O => pret false
  | S fuel' =>
      let attempt := S attempt in
      let* err := ask (Start inst) (EvStart inst) in
      match err with
      | Some err =>
          if IsServiceUnavailable err then
            (* Don't log or retry instances that are not ready to start
               yet. *)
            pret true
          else if (maxAttempts <=? attempt)%nat then
            (* If unable to start after 3 tries, record a warning. *)
            let* _ := ask (UpsertWarningLocalNode inst (Sprintf_v err))
                        (EvUpsertWarningLocalNode inst (Sprintf_v err)) in
            pret true
          else
            tell (EvSleep 5);;
            startAttempts fuel' attempt inst autoStartDelay
      | None =>
          (* Resolve any previous warning. *)
          let* _ := ask (ResolveWarnings inst) (EvResolveWarnings inst) in
          (* Wait the auto-start delay if set. *)
          match strconv_Atoi autoStartDelay with
          | (autoStartDelayInt, None) =>
              tell (EvSleep autoStartDelayInt);; pret true
          | (_, Some _) => pret true
          end
      end
  end.

(** The loop over the sorted instances. *)
Fixpoint startEach (fuel : nat) (instances : list Instance)
    : Prog Log bool :=
  match instances with
  | [] => pret true
  | inst :: rest =>
      if negb (instanceShouldAutoStart env inst) then startEach fuel rest
      else
        (* If already running, we're done. *)
        let* running := ask (IsRunning inst) (EvIsRunning inst) in
        if running then startEach fuel rest
        else
          (* Get the instance config. *)
          let config := inst_ExpandedConfig inst in
          let autoStartDelay := get config "boot.autostart.delay" in
          (* Try to start the instance. *)
          let* done := startAttempts fuel 0 inst autoStartDelay in
          if done then startEach fuel rest else pret false
  end.

Definition instancesStart (fuel : nat) (instances : list Instance)
    : Prog Log bool :=
  tell EvLock;;
  let* done := startEach fuel (sort_Sort instances) in
  tell EvUnlock;;
  pret done.

End Functions.

Global Instance Instance_eq_dec : EqDecision Instance.
Proof. solve_decision. Defined.

(** The starts of an instance among the calls. *)
Definition is_start_of (inst : Instance) (e : Event) : bool :=
  match e with
  | EvStart inst' _ => bool_decide (inst' = inst)
  | _ => false
  end.

Definition starts_of (inst : Instance) (new : list Event) : list Event :=
  filter (fun e => is_start_of inst e = true) new.

(** What comes directly before a call, [older] being the calls made
    before it, most recent first: a start is the first attempt, made right
    after the instance was found not to be running, or a retry, made five
    seconds after an attempt that failed with an error other than "service
    unavailable"; a warning is recorded right after a failed attempt, with
    the text of its error; warnings are resolved right after a successful
    start. *)
Definition start_rule (IsServiceUnavailable : Error -> bool)
    (Sprintf_v : Error -> string) (e : Event) (older : list Event) : Prop :=
  match e with
  | EvStart inst _ =>
      (exists rest, older = EvIsRunning inst false :: rest) \/
      (exists err rest,
         older = EvSleep 5 :: EvStart inst (Some err) :: rest /\
         IsServiceUnavailable err = false)
  | EvUpsertWarningLocalNode inst message _ =>
      exists err rest,
        older = EvStart inst (Some err) :: rest /\
        IsServiceUnavailable err = false /\ message = Sprintf_v err
  | EvResolveWarnings inst _ =>
      exists rest, older = EvStart inst None :: rest
  | _ => True
  end.

(** The calls [new], made after the calls [l], each come as [rule]
    says. *)
Definition ordered (rule : Event -> list Event -> Prop)
    (new l : list Event) : Prop :=
  forall i e, new !! i = Some e -> rule e (drop (S i) (new ++ l)%list).

(** The calls that the loop over one instance makes. *)
Definition attempt_call (inst : Instance) (e : Event) : bool :=
  match e with
  | EvStart inst' _ | EvUpsertWarningLocalNode inst' _ _
  | EvResolveWarnings inst' _ => bool_decide (inst' = inst)
  | EvSleep _ => true
  | _ => false
  end.

Definition is_mutex_call (e : Event) : bool :=
  match e with
  | EvLock | EvUnlock => true
  | _ => false
  end.

(** A strict order that a comparison function decides. *)
Definition strict_order {A} (less : A -> A -> bool) : Prop :=
  (forall a, less a a = false) /\
  (forall a b c, less a b = true -> less b c = true -> less a c = true).

(** Instances to start: one that starts at the second attempt, one that
    is not to be started, one that is running. *)
Definition db1 : Instance :=
  mkInstance "db1" {[ "boot.autostart" := "true";
                      "boot.autostart.priority" := "10";
                      "boot.autostart.delay" := "2" ]} false.

Definition cache1 : Instance :=
  mkInstance "cache1" {[ "boot.autostart" := "false" ]} false.

Definition web1 : Instance :=
  mkInstance "web1" {[ "boot.autostart" := "true" ]} true.

Definition atoi_small (s : string) : Z * option Error :=
  if String.eqb s "2" then (2, None)
  else if String.eqb s "10" then (10, None)
  else (0, Some "invalid syntax").

(** The first start of an instance fails, the next one succeeds. *)
Definition start_second (inst : Instance) (l : Log) : option Error :=
  if existsb (is_start_of inst) l then None else Some "busy".

End Autostart.

Local Close Scope prog_scope.

Local Open Scope list_scope.

(** * Theorems *)

(** ** Proof automation for handlers *)

Ltac unfold_monad :=
  unfold orReturn, check, locked, Transaction, OperationCreate, bind, call,
    emit, ret, get_daemon, set_localConfig, set_operations in *.

Ltac case_step :=
  match goal with
  | |- context [match ?x with _ => _ end] =>
      lazymatch x with
      | context [match _ with _ => _ end] => fail
      | _ => destruct x eqn:?
      end
  end.

Ltac run_handler := unfold_monad; cbn; repeat (case_step; cbn).

Lemma clusterPutBootstrap_async env r req d resp d' :
  clusterPutBootstrap env r req d = (resp, d') ->
  asynchronous ClusterBootstrap (RunBootstrap req) resp d'.
Proof.
  unfold clusterPutBootstrap, asynchronous.
  run_handler; intros [= <- <-]; cbn; auto.
  all: right; eexists; repeat split; cbn; try reflexivity.
  all: apply lookup_insert_eq.
Qed.

Lemma clusterPutJoin_async env r req d resp d' :
  clusterPutJoin env r req d = (resp, d') ->
  asynchronous ClusterJoin (RunJoin req) resp d'.
Proof.
  unfold clusterPutJoin, patchLocalConfig, asynchronous.
  run_handler; intros [= <- <-]; cbn; auto.
  all: right; eexists; repeat split; cbn; try reflexivity.
  all: apply lookup_insert_eq.
Qed.

Lemma clusterPutDisable_sync env r req d resp d' :
  clusterPutDisable env r req d = (resp, d') ->
  dissolved r req resp d'.
Proof.
  unfold clusterPutDisable, dissolved.
  run_handler; intros [= <- <-]; cbn; auto.
  all: right; split; [done|]; eauto.
Qed.

(** C1, as amended: a request that decodes and passes the quick checks is
    dispatched on [enabled] and [cluster_address] to the dissolve, the
    bootstrap or the join path; a response of the bootstrap or join path
    that is not an error is an asynchronous operation, still pending; a
    response of the dissolve path that is not an error is synchronous, sent
    after the gateway was reset and killed. *)
Theorem clusterPut_branches env r req d :
  json_ClusterPut env (r_Body r) = inr req ->
  passes_quick_checks env req ->
  clusterPut env r d =
    (if negb (Enabled req) then clusterPutDisable env r req d
     else if String.eqb (ClusterAddress req) ""
          then clusterPutBootstrap env r req d
          else clusterPutJoin env r req d) /\
  (forall resp d', clusterPut env r d = (resp, d') ->
     if negb (Enabled req) then dissolved r req resp d'
     else if String.eqb (ClusterAddress req) ""
          then asynchronous ClusterBootstrap (RunBootstrap req) resp d'
          else asynchronous ClusterJoin (RunJoin req) resp d').
Proof.
  intros Hdec [Hname Hprefix].
  assert (Hrun : clusterPut env r d =
    (if negb (Enabled req) then clusterPutDisable env r req d
     else if String.eqb (ClusterAddress req) ""
          then clusterPutBootstrap env r req d
          else clusterPutJoin env r req d)).
  { unfold clusterPut. rewrite Hdec.
    destruct (String.eqb_spec (ServerName req) "") as [Hs|Hs];
      destruct (Enabled req) eqn:He; cbn [andb negb].
    - apply Hname in Hs. congruence.
    - reflexivity.
    - rewrite (Hprefix Hs).
      destruct (String.eqb (ClusterAddress req) ""); reflexivity.
    - exfalso. apply Hs, Hname. reflexivity. }
  split; [exact Hrun|].
  intros resp d'. rewrite Hrun.
  destruct (Enabled req); cbn.
  - destruct (String.eqb (ClusterAddress req) "").
    + apply (clusterPutBootstrap_async env r).
    + apply (clusterPutJoin_async env r).
  - apply clusterPutDisable_sync.
Qed.

Lemma clusterPut_branches_witness :
  clusterPut (scenarioEnv bootstrap_n1) (request "") daemon_alone =
    clusterPutBootstrap (scenarioEnv bootstrap_n1) (request "")
      (sc_ClusterPut bootstrap_n1) daemon_alone /\
  is_operation_response
    (clusterPut (scenarioEnv bootstrap_n1) (request "") daemon_alone).1 = true.
Proof.
  split.
  - refine (proj1 (clusterPut_branches (scenarioEnv bootstrap_n1) (request "")
                     (sc_ClusterPut bootstrap_n1) daemon_alone _ _)).
    + reflexivity.
    + split; [split; discriminate|]. intros _. reflexivity.
  - vm_compute. reflexivity.
Defined.

(** C1 as stated fails: a body with [enabled=false] and a server name is
    answered with a bad request, nothing is dissolved. *)
Lemma clusterPut_named_disable_rejected :
  Enabled (sc_ClusterPut named_disable) = false /\
  clusterPut (scenarioEnv named_disable) (request "") daemon_n1 =
    (BadRequest "ServerName must be empty when disabling clustering",
     daemon_n1) /\
  clusterPut (scenarioEnv named_disable) (request "") daemon_n1 <>
    clusterPutDisable (scenarioEnv named_disable) (request "")
      (sc_ClusterPut named_disable) daemon_n1.
Proof.
  split; [reflexivity|]. split; [reflexivity|].
  vm_compute. discriminate.
Qed.

(** ** [POST /1.0/cluster/members]: one running token per server name *)

Lemma cancelled_only_refl ops : cancelled_only ops ops.
Proof. intros k. by left. Qed.

Lemma cancelled_only_alter ops id :
  cancelled_only ops (alter (fun o => set_StatusCode o Cancelled) id ops).
Proof.
  intros k. destruct (decide (id = k)) as [->|Hne].
  - rewrite lookup_alter_eq. destruct (ops !! k) as [o|] eqn:Hk; cbn.
    + right. by exists o.
    + by left.
  - left. by rewrite lookup_alter_ne.
Qed.

Lemma cancelled_only_not_running ops ops' k :
  cancelled_only ops ops' ->
  (forall o, ops !! k = Some o -> op_StatusCode o <> Running) ->
  forall o', ops' !! k = Some o' -> op_StatusCode o' <> Running.
Proof.
  intros Hc Hk o' Ho'. destruct (Hc k) as [Heq|(o & Ho & Hcan)].
  - rewrite Heq in Ho'. by apply Hk.
  - rewrite Hcan in Ho'. by injection Ho' as <-.
Qed.

Lemma cancelled_only_trans ops1 ops2 ops3 :
  cancelled_only ops1 ops2 -> cancelled_only ops2 ops3 ->
  cancelled_only ops1 ops3.
Proof.
  intros H12 H23 k.
  destruct (H12 k) as [E12|(o & Ho & E12)], (H23 k) as [E23|(o' & Ho' & E23)].
  - left. congruence.
  - right. exists o'. split; congruence.
  - right. exists o. split; congruence.
  - right. exists o. rewrite E12 in Ho'. injection Ho' as <-.
    split; [done|]. by rewrite E23.
Qed.

Lemma cancelled_only_store_ok ops ops' :
  cancelled_only ops ops' -> store_ok ops -> store_ok ops'.
Proof.
  intros Hc Hok k o' Ho'. destruct (Hc k) as [Heq|(o & Ho & Hcan)].
  - apply Hok. by rewrite <- Heq.
  - rewrite Hcan in Ho'. injection Ho' as <-. cbn. by apply Hok.
Qed.

Lemma any_eq_string_true a s : any_eq_string a s = true <-> a = AString s.
Proof.
  destruct a; cbn; try (split; [discriminate|by intros [=]]).
  rewrite String.eqb_eq. split; [by intros ->|by intros [= ->]].
Qed.

Lemma cancelDuplicates_spec env serverName ops d d' :
  cancelDuplicates env serverName ops d = (None, d') ->
  cancelled_only (operations d) (operations d') /\
  forall o, o ∈ ops -> op_StatusCode o = Running ->
    op_Metadata o !! "serverName" = Some (AString serverName) ->
    forall o', operations d' !! op_ID o = Some o' ->
      op_StatusCode o' <> Running.
Proof.
  revert d. induction ops as [|op rest IH]; intros d; cbn.
  - intros [= <-]. split; [apply cancelled_only_refl|].
    intros o Ho. by apply elem_of_nil in Ho.
  - destruct (decide (op_StatusCode op = Running)) as [Hrun|Hnrun].
    2:{ rewrite bool_decide_eq_false_2 by done. cbn. intros Hrest.
        destruct (IH _ Hrest) as [Hc Hall]. split; [done|].
        intros o [->|Ho]%elem_of_cons; [done|]. by apply Hall. }
    rewrite bool_decide_eq_true_2 by done. cbn.
    destruct (op_Metadata op !! "serverName") as [a|] eqn:Hmeta.
    2:{ intros Hrest. destruct (IH _ Hrest) as [Hc Hall]. split; [done|].
        intros o [->|Ho]%elem_of_cons; [congruence|]. by apply Hall. }
    destruct (any_eq_string a serverName) eqn:Hany.
    2:{ intros Hrest. destruct (IH _ Hrest) as [Hc Hall]. split; [done|].
        intros o [->|Ho]%elem_of_cons; [|by apply Hall].
        intros _ Hm. rewrite Hm in Hmeta. injection Hmeta as <-.
        assert (any_eq_string (AString serverName) serverName = true)
          by by apply any_eq_string_true.
        congruence. }
    unfold operationCancel. unfold_monad. cbn.
    destruct (operationCancelErr _ _ _); cbn; [discriminate|].
    intros Hrest. destruct (IH _ Hrest) as [Hc Hall]. cbn in Hc.
    split.
    + eapply cancelled_only_trans; [apply cancelled_only_alter|exact Hc].
    + intros o [->|Ho]%elem_of_cons; [|by apply Hall].
      intros _ _. eapply cancelled_only_not_running; [exact Hc|].
      intros o. rewrite lookup_alter_eq.
      destruct (operations d !! op_ID op); cbn; [|done]. by intros [= <-].
Qed.

Lemma operationsGetByType_elem project t (ops : gmap string Operation) k o :
  ops !! k = Some o -> op_Project o = project -> op_Type o = t ->
  o ∈ filter (fun op => op_Project op = project /\ op_Type op = t)
        (map snd (map_to_list ops)).
Proof.
  intros Hk Hp Ht. apply list_elem_of_filter. split; [done|].
  apply list_elem_of_fmap. exists (k, o). split; [done|].
  by apply elem_of_map_to_list.
Qed.

(** C2: after a successful issuance for server name [S] every join token
    for [S] that was running has been cancelled, so no token for [S] is
    running until the new operation is started, and once it is started it
    is the only running one. *)
Theorem clusterNodesPost_single_token env r req d op d' :
  json_ClusterMembersPost env (r_Body r) = inr req ->
  store_ok (operations d) ->
  clusterNodesPost env r d = (OperationResponse op, d') ->
  (forall k o, operations d' !! k = Some o ->
     ~ running_token_for (post_ServerName req) o) /\
  store_ok (operations d') /\
  (forall k o, Start op (operations d') !! k = Some o ->
     running_token_for (post_ServerName req) o -> k = op_ID op) /\
  at_most_one_running (post_ServerName req) (Start op (operations d')).
Proof.
  intros Hdec Hok. unfold clusterNodesPost, operationsGetByType.
  unfold_monad. cbn. rewrite Hdec.
  destruct (serverClustered d); cbn; [|done].
  destruct (GetExpiry _ _ _); cbn; [done|].
  destruct (txBegin _ _ _); cbn; [done|].
  destruct (GetNodes _ _); cbn; [done|].
  destruct (filterOnline _ _ _ _ _) as [|addresses]; cbn; [done|].
  destruct (txCommit _ _ _); cbn; [done|].
  destruct (bool_decide _); cbn; [done|].
  destruct (operationsGetByTypeErr _ _); cbn; [done|].
  match goal with
  | |- context [cancelDuplicates ?e ?s ?o ?dd] =>
      destruct (cancelDuplicates e s o dd) as [[e1|] d1] eqn:Hcancel
  end; cbn; [done|].
  destruct (RandomHexString _ _); cbn; [done|].
  destruct (CertFingerprintStr _ _); cbn; [done|].
  destruct (newOperationID _ _) as [|id]; cbn; [done|].
  intros [= <- <-]. cbn.
  apply cancelDuplicates_spec in Hcancel as [Hc Hall]. cbn in Hc, Hall.
  assert (Hok1 : store_ok (operations d1))
    by (eapply cancelled_only_store_ok; eauto).
  assert (Hnone : forall k o, k <> id -> operations d1 !! k = Some o ->
            ~ running_token_for (post_ServerName req) o).
  { intros k o Hk Ho (Htype & Hrun & Hmeta).
    destruct (Hc k) as [Heq|(o0 & Ho0 & Hcan)].
    - pose proof Ho as Ho1. rewrite Heq in Ho.
      destruct (Hok k o Ho) as [Hid Hproj].
      refine (Hall o _ Hrun Hmeta o _ Hrun).
      + eapply operationsGetByType_elem; eauto.
      + by rewrite Hid.
    - rewrite Hcan in Ho. injection Ho as <-. done. }
  assert (Hnew : forall k o,
            <[id := mkOperation id ProjectDefaultName OperationClassToken
                      ClusterJoinToken Pending
                      (joinTokenMetadata (post_ServerName req) s s0
                         addresses t) RunNone]> (operations d1) !! k = Some o ->
            ~ running_token_for (post_ServerName req) o).
  { intros k o. destruct (decide (id = k)) as [<-|Hne].
    - rewrite lookup_insert_eq. intros [= <-] (_ & Hrun & _). done.
    - rewrite lookup_insert_ne by done. by apply Hnone. }
  split; [exact Hnew|]. split.
  { intros k o. destruct (decide (id = k)) as [<-|Hne].
    - rewrite lookup_insert_eq. by intros [= <-].
    - rewrite lookup_insert_ne by done. apply Hok1. }
  assert (Hstart : forall k o,
            Start (mkOperation id ProjectDefaultName OperationClassToken
                     ClusterJoinToken Pending
                     (joinTokenMetadata (post_ServerName req) s s0
                        addresses t) RunNone)
              (<[id := mkOperation id ProjectDefaultName OperationClassToken
                         ClusterJoinToken Pending
                         (joinTokenMetadata (post_ServerName req) s s0
                            addresses t) RunNone]> (operations d1)) !! k
              = Some o ->
            running_token_for (post_ServerName req) o -> k = id).
  { intros k o. unfold Start. cbn. destruct (decide (id = k)) as [<-|Hne].
    - done.
    - rewrite !lookup_insert_ne by done. intros Ho Hr.
      by destruct (Hnone k o). }
  split; [exact Hstart|].
  intros k1 k2 o1 o2 H1 H2 Hr1 Hr2.
  rewrite (Hstart k1 o1 H1 Hr1), (Hstart k2 o2 H2 Hr2). reflexivity.
Qed.

Lemma store_ok_token : store_ok (operations daemon_n1_token).
Proof.
  unfold daemon_n1_token. cbn.
  intros k o [<- <-]%lookup_singleton_Some. by split.
Qed.

Lemma clusterNodesPost_single_token_witness :
  exists op,
    (clusterNodesPost (scenarioEnv quiet) (request "n4") daemon_n1_token).1 =
      OperationResponse op /\
    at_most_one_running "n4"
      (Start op (operations
         (clusterNodesPost (scenarioEnv quiet) (request "n4")
            daemon_n1_token).2)).
Proof.
  eexists. split; [vm_compute; reflexivity|].
  refine (proj2 (proj2 (proj2
    (clusterNodesPost_single_token (scenarioEnv quiet) (request "n4")
       (mkClusterMembersPost "n4") daemon_n1_token _ _
       eq_refl store_ok_token _)))).
  vm_compute. reflexivity.
Defined.

(** ** [POST /1.0/cluster/members]: names and addresses *)

Lemma filterOnline_taken env now serverName members acc :
  Exists (named serverName) members ->
  filterOnline env now serverName members acc =
    inl ("The cluster already has a member with name: " ++ serverName)%string.
Proof.
  revert acc. induction members as [|m rest IH]; intros acc Hex.
  - inversion Hex.
  - cbn. destruct (String.eqb_spec (node_Name m) serverName) as [Heq|Hne].
    + reflexivity.
    + inversion Hex as [? ? Hm|? ? Hrest]; subst; [done|].
      destruct (_ || _); by apply IH.
Qed.

Lemma filterOnline_free env now serverName members acc :
  Forall (fun m => ~ named serverName m) members ->
  filterOnline env now serverName members acc =
    inr (acc ++ map node_Address (filter (online env now) members)).
Proof.
  revert acc. induction members as [|m rest IH]; intros acc Hall.
  - cbn. by rewrite app_nil_r.
  - inversion Hall as [|? ? Hm Hrest]; subst. cbn [filterOnline map].
    destruct (String.eqb_spec (node_Name m) serverName) as [Heq|Hne]; [done|].
    unfold IsOffline. rewrite filter_cons.
    destruct (decide (online env now m)) as [Hon|Hoff].
    + destruct Hon as [Hst Hhb].
      rewrite !bool_decide_eq_false_2 by done. cbn.
      rewrite IH by done. by rewrite <- app_assoc.
    + rewrite IH by done.
      destruct (bool_decide _) eqn:H1; cbn; [done|].
      destruct (bool_decide (_ < _)) eqn:H2; cbn; [done|].
      exfalso. apply Hoff. split.
      * by apply bool_decide_eq_false in H1.
      * by apply bool_decide_eq_false in H2.
Qed.

Lemma filterOnline_result env now serverName members :
  filterOnline env now serverName members [] =
    if decide (Exists (named serverName) members)
    then inl ("The cluster already has a member with name: " ++ serverName)%string
    else inr (map node_Address (filter (online env now) members)).
Proof.
  destruct (decide _) as [Hex|Hnex].
  - by apply filterOnline_taken.
  - rewrite filterOnline_free; [done|].
    by apply Forall_Exists_neg.
Qed.

Lemma clusterNodesPost_members env r req d members :
  json_ClusterMembersPost env (r_Body r) = inr req ->
  GetNodes env (EvTxBegin ClusterDB None :: log d) = inr members ->
  (Exists (named (post_ServerName req)) members \/
   filter (online env (time_Now env
      (EvGetNodes (inr members) :: EvTxBegin ClusterDB None :: log d)))
     members = []) ->
  rejected_before_tokens d (clusterNodesPost env r d).1
    (clusterNodesPost env r d).2.
Proof.
  intros Hdec Hnodes Hcase. unfold clusterNodesPost, rejected_before_tokens.
  unfold_monad. cbn. rewrite Hdec.
  destruct (serverClustered d); cbn; [|by repeat split; last by exists []].
  destruct (GetExpiry _ _ _); cbn; [by repeat split; last by exists []|].
  destruct (txBegin _ _ _) eqn:Hb; cbn; [by repeat split; last by eexists [_]|].
  rewrite Hnodes. cbn. rewrite filterOnline_result.
  destruct (decide _) as [Hex|Hnex]; cbn.
  - by repeat split; last by eexists [_; _].
  - destruct Hcase as [?|Hempty]; [done|]. rewrite Hempty. cbn.
    destruct (txCommit _ _ _); cbn; by repeat split; last by eexists [_; _; _].
Qed.

(** C10: when the members table holds a member named like the requested
    server, whatever its state or heartbeat, the request fails with an
    error, no join-token operation is created, and no existing operation
    has been listed or cancelled before the failure. *)
Theorem clusterNodesPost_existing_name env r req d :
  json_ClusterMembersPost env (r_Body r) = inr req ->
  (forall l members, GetNodes env l = inr members ->
     Exists (named (post_ServerName req)) members) ->
  rejected_before_tokens d (clusterNodesPost env r d).1
    (clusterNodesPost env r d).2.
Proof.
  intros Hdec Hnodes.
  destruct (GetNodes env (EvTxBegin ClusterDB None :: log d)) as [err|members]
    eqn:Hget.
  - unfold clusterNodesPost, rejected_before_tokens.
    unfold_monad. cbn. rewrite Hdec.
    destruct (serverClustered d); cbn; [|by repeat split; last by exists []].
    destruct (GetExpiry _ _ _); cbn; [by repeat split; last by exists []|].
    destruct (txBegin _ _ _) eqn:Hb; cbn;
      [by repeat split; last by eexists [_]|].
    rewrite Hget. cbn. by repeat split; last by eexists [_; _].
  - eapply clusterNodesPost_members; eauto.
Qed.

Lemma clusterNodesPost_existing_name_witness :
  rejected_before_tokens daemon_n1
    (clusterNodesPost (scenarioEnv quiet) (request "n3") daemon_n1).1
    (clusterNodesPost (scenarioEnv quiet) (request "n3") daemon_n1).2.
Proof.
  apply (clusterNodesPost_existing_name (scenarioEnv quiet) (request "n3")
           (mkClusterMembersPost "n3")).
  - reflexivity.
  - intros l members [= <-]. unfold named.
    apply Exists_cons_tl, Exists_cons_tl, Exists_cons_hd. reflexivity.
Defined.

Lemma joinTokenMetadata_serverName serverName secret fingerprint addresses expiry :
  joinTokenMetadata serverName secret fingerprint addresses expiry
    !! "serverName" = Some (AString serverName).
Proof. unfold joinTokenMetadata. apply lookup_insert_eq. Qed.

Lemma joinTokenMetadata_addresses serverName secret fingerprint addresses expiry :
  joinTokenMetadata serverName secret fingerprint addresses expiry
    !! "addresses" = Some (AStrings addresses).
Proof.
  unfold joinTokenMetadata.
  do 3 (rewrite lookup_insert_ne by done). apply lookup_insert_eq.
Qed.

(** C3: the addresses put into a join token are exactly the addresses of
    the members read from the members table that are neither evacuated nor
    offline, in the order of the table; when there is no such member the
    request fails with an error and no token operation is created. *)
Theorem clusterNodesPost_addresses env r req d members :
  json_ClusterMembersPost env (r_Body r) = inr req ->
  members_read env d = inr members ->
  let addresses :=
    map node_Address (filter (online env (judged_at env d)) members) in
  (forall op, (clusterNodesPost env r d).1 = OperationResponse op ->
     join_token_for (post_ServerName req) addresses op /\ addresses <> []) /\
  (addresses = [] ->
   rejected_before_tokens d (clusterNodesPost env r d).1
     (clusterNodesPost env r d).2).
Proof.
  intros Hdec Hnodes addresses. split.
  - intros op. unfold clusterNodesPost, operationsGetByType. unfold_monad. cbn.
    rewrite Hdec.
    destruct (serverClustered d); cbn; [|done].
    destruct (GetExpiry _ _ _); cbn; [done|].
    destruct (txBegin _ _ _) eqn:Hb; cbn; [done|].
    unfold members_read in Hnodes. rewrite Hnodes. cbn.
    rewrite filterOnline_result.
    destruct (decide _) as [Hex|Hnex]; cbn; [done|].
    destruct (txCommit _ _ _); cbn; [done|].
    assert (Hadd : map node_Address (filter (online env (time_Now env
               (EvGetNodes (inr members) :: EvTxBegin ClusterDB None :: log d)))
               members) = addresses).
    { unfold addresses, judged_at, members_read. by rewrite Hnodes. }
    rewrite Hadd.
    destruct addresses as [|a rest] eqn:Haddr; cbn; [done|].
    rewrite bool_decide_eq_false_2 by (cbn; lia). cbn.
    destruct (operationsGetByTypeErr _ _); cbn; [done|].
    match goal with |- context [cancelDuplicates ?e ?s ?o ?dd] => destruct (cancelDuplicates e s o dd) as [[e1|] d1] end; cbn; [done|].
    destruct (RandomHexString _ _); cbn; [done|].
    destruct (CertFingerprintStr _ _); cbn; [done|].
    destruct (newOperationID _ _); cbn; [done|].
    intros [= <-]. split; [|done].
    repeat split; cbn;
      auto using joinTokenMetadata_serverName, joinTokenMetadata_addresses.
  - intros Hempty. eapply clusterNodesPost_members; eauto.
    right. unfold addresses, judged_at in Hempty.
    rewrite Hnodes in Hempty. by apply map_eq_nil in Hempty.
Qed.

Lemma clusterNodesPost_addresses_witness :
  exists op,
    (clusterNodesPost (scenarioEnv quiet) (request "n4") daemon_n1).1 =
      OperationResponse op /\
    join_token_for "n4" ["10.0.0.1:8443"; "10.0.0.2:8443"] op.
Proof.
  pose proof (clusterNodesPost_addresses (scenarioEnv quiet) (request "n4")
                (mkClusterMembersPost "n4") daemon_n1 [n1; n2; n3]
                eq_refl eq_refl) as [Hop _].
  eexists. split; [vm_compute; reflexivity|].
  refine (proj1 (Hop _ _)). vm_compute. reflexivity.
Defined.

(** ** Internal endpoints *)

(** C4, as amended: on a member whose cluster address differs from the
    leader address it looked up, a request to accept, rebalance or handover
    that passes the handler's checks is answered with a redirect to the same
    endpoint on the leader; the handler makes no other call, in particular
    none to the leader.  When the leader address is empty, accept and
    handover answer with an error instead, again without any other call. *)
Theorem internal_endpoints_redirect env r d leader :
  LeaderAddress env (log d) = inr leader ->
  config_ClusterAddress (localConfig d) <> leader ->
  let d' := logged [EvLeaderAddress (inr leader)] d in
  (forall req, json_AcceptRequest env (r_Body r) = inr req ->
     acc_Name req <> "" ->
     internalClusterPostAccept env r d =
       (if String.eqb leader ""
        then SmartError "Unable to find leader address"
        else SyncResponseRedirect
               (url_String "https" leader "/internal/cluster/accept"), d')) /\
  (forall fuel,
     internalClusterPostRebalance env fuel r d =
       (Some (SyncResponseRedirect
                (url_String "https" leader "/internal/cluster/rebalance")), d')) /\
  (forall req, json_HandoverRequest env (r_Body r) = inr req ->
     handover_Address req <> "" ->
     internalClusterPostHandover env r d =
       (if String.eqb leader ""
        then SmartError "No leader address found"
        else SyncResponseRedirect
               (url_String "https" leader "/internal/cluster/handover"), d')) /\
  is_error_response (SmartError "Unable to find leader address") = true /\
  is_error_response (SmartError "No leader address found") = true.
Proof.
  intros Hleader Hne d'.
  assert (Hneq : String.eqb (config_ClusterAddress (localConfig d)) leader = false)
    by by apply String.eqb_neq.
  split; [|split; [|split; [|split; reflexivity]]].
  - intros req Hdec Hname. unfold internalClusterPostAccept.
    unfold_monad. cbn. rewrite Hdec.
    apply String.eqb_neq in Hname. rewrite Hname, Hleader. cbn.
    rewrite Hneq. cbn. by destruct (String.eqb leader "").
  - intros fuel. unfold internalClusterPostRebalance.
    unfold_monad. cbn. rewrite Hleader. cbn. by rewrite Hneq.
  - intros req Hdec Haddr. unfold internalClusterPostHandover.
    unfold_monad. cbn. rewrite Hdec.
    apply String.eqb_neq in Haddr. rewrite Haddr, Hleader. cbn.
    destruct (String.eqb leader ""); [done|]. by rewrite Hneq.
Qed.

Lemma internal_endpoints_redirect_witness :
  internalClusterPostRebalance (scenarioEnv quiet) 5%nat (request "") daemon_n2 =
    (Some (SyncResponseRedirect
             "https://10.0.0.1:8443/internal/cluster/rebalance"),
     logged [EvLeaderAddress (inr "10.0.0.1:8443")] daemon_n2) /\
  internalClusterPostAccept (scenarioEnv leaderless) (request "n4") daemon_n2 =
    (SmartError "Unable to find leader address",
     logged [EvLeaderAddress (inr "")] daemon_n2) /\
  internalClusterPostHandover (scenarioEnv leaderless)
    (request "10.0.0.3:8443") daemon_n2 =
    (SmartError "No leader address found",
     logged [EvLeaderAddress (inr "")] daemon_n2).
Proof.
  split; [|split].
  - refine (proj1 (proj2
      (internal_endpoints_redirect (scenarioEnv quiet) (request "") daemon_n2
         "10.0.0.1:8443" eq_refl _)) 5%nat).
    vm_compute. discriminate.
  - refine (proj1
      (internal_endpoints_redirect (scenarioEnv leaderless) (request "n4")
         daemon_n2 "" eq_refl _) (mkAcceptRequest "n4" "" 0 0 [] [] 0)
         eq_refl _); vm_compute; discriminate.
  - refine (proj1 (proj2 (proj2
      (internal_endpoints_redirect (scenarioEnv leaderless)
         (request "10.0.0.3:8443") daemon_n2 "" eq_refl _)))
         (mkHandoverRequest "10.0.0.3:8443") eq_refl _);
      vm_compute; discriminate.
Defined.

(** C4 as stated fails: member [n2], which is not the leader, answers an
    accept request with a redirect and contacts nobody. *)
Lemma internal_accept_not_proxied :
  config_ClusterAddress (localConfig daemon_n2) <> "10.0.0.1:8443" /\
  LeaderAddress (scenarioEnv quiet) (log daemon_n2) = inr "10.0.0.1:8443" /\
  (internalClusterPostAccept (scenarioEnv quiet) (request "n4") daemon_n2).1 =
    SyncResponseRedirect "https://10.0.0.1:8443/internal/cluster/accept" /\
  existsb reaches_out
    (log (internalClusterPostAccept (scenarioEnv quiet) (request "n4")
            daemon_n2).2) = false.
Proof.
  split; [vm_compute; discriminate|]. repeat split; vm_compute; reflexivity.
Qed.

(** ** Handover *)

Lemma changeMemberRole_run env address nodes d :
  changeMemberRole env address nodes d =
    match Connect env address true (log d) with
    | Some err => (Some err, logged [EvConnect address true (Some err)] d)
    | None =>
        let res :=
          RawQuery env address "POST" "/internal/cluster/assign" (inl nodes)
            (EvConnect address true None :: log d) in
        (res, logged [assign address nodes res; EvConnect address true None] d)
    end.
Proof.
  unfold changeMemberRole, assign, logged. unfold_monad. cbn.
  destruct (Connect _ _ _ _); cbn; [done|].
  by destruct (RawQuery _ _ _ _ _ _).
Qed.

(** The departing member, when it leads: leadership is transferred, the
    leader is looked up again, and the handover request goes to the leader
    found then. *)
Lemma handoverMemberRole_transfers env fuel d leader :
  serverClustered d = true ->
  let localAddress := config_ClusterAddress (localConfig d) in
  let l1 := EvLeaderAddress (inr localAddress) :: log d in
  let l2 := EvLeaderAddress (inr leader) :: EvTransferLeadership None :: l1 in
  let res :=
    RawQuery env leader "POST" "/internal/cluster/handover" (inr localAddress)
      (EvConnect leader true None :: l2) in
  localAddress <> "" ->
  LeaderAddress env (log d) = inr localAddress ->
  TransferLeadership env l1 = None ->
  LeaderAddress env (EvTransferLeadership None :: l1) = inr leader ->
  leader <> "" -> leader <> localAddress ->
  Connect env leader true l2 = None ->
  handoverMemberRole env (S (S fuel)) d =
    (Some res,
     logged [handover_request leader localAddress res;
             EvConnect leader true None;
             EvLeaderAddress (inr leader);
             EvTransferLeadership None;
             EvLeaderAddress (inr localAddress)] d).
Proof.
  intros Hcl localAddress l1 l2 res Hlocal Hl1 Htr Hl2 Hne Hother Hconn.
  subst l1 l2 res localAddress.
  unfold handoverMemberRole, handover_request, logged. unfold_monad. cbn.
  rewrite Hcl. cbn. rewrite Hl1. cbn.
  apply String.eqb_neq in Hlocal, Hne, Hother.
  rewrite Hlocal, String.eqb_refl. unfold_monad. cbn. rewrite Htr. cbn.
  rewrite Hl2. cbn. rewrite Hne, Hother. cbn. rewrite Hconn. cbn.
  by rewrite ?Hcl.
Qed.

(** The loop that demotes the member that is handing over gives it the
    role spare and leaves every other node, and the order of the nodes, as
    they were. *)
Lemma demoteDeparting_spare address nodes :
  demoted_to_spare address nodes (demoteDeparting address nodes).
Proof.
  unfold demoted_to_spare, demoteDeparting.
  induction nodes as [|node rest IH]; cbn [map]; constructor; [|exact IH].
  destruct (String.eqb (raft_Address node) address); cbn; auto.
Qed.

(** The leader, for a departing member at [address]: nothing when there
    is no candidate, else the promotion and, only after it succeeded, the
    demotion. *)
Lemma internalClusterPostHandover_leader env r req d leader target nodes :
  json_HandoverRequest env (r_Body r) = inr req ->
  let address := handover_Address req in
  address <> "" ->
  LeaderAddress env (log d) = inr leader ->
  leader <> "" ->
  config_ClusterAddress (localConfig d) = leader ->
  Handover env address
    (EvLock clusterMembershipMutex :: EvLeaderAddress (inr leader) :: log d) =
    inr (target, nodes) ->
  exists after,
    log (internalClusterPostHandover env r d).2 =
      EvUnlock clusterMembershipMutex :: rev after ++
      [EvHandover address (inr (target, nodes));
       EvLock clusterMembershipMutex;
       EvLeaderAddress (inr leader)] ++ log d /\
    handover_outcome address target nodes after
      (internalClusterPostHandover env r d).1.
Proof.
  intros Hdec address Haddr Hleader Hne Hlocal Hho.
  unfold internalClusterPostHandover. unfold_monad. cbn.
  rewrite Hdec. fold address.
  apply String.eqb_neq in Haddr, Hne. rewrite Haddr, Hleader. cbn.
  rewrite Hne, Hlocal, String.eqb_refl. cbn. rewrite Hho. cbn.
  destruct (String.eqb_spec target "") as [Ht|Ht]; cbn.
  { exists []. split; [done|]. by constructor. }
  rewrite changeMemberRole_run. cbn.
  destruct (Connect env target true _); cbn.
  { eexists [_]. split; [done|]. by constructor. }
  destruct (RawQuery env target _ _ _ _); cbn.
  { eexists [_; _]. split; [done|]. by constructor. }
  rewrite changeMemberRole_run. cbn.
  destruct (Connect env address true _); cbn.
  { eexists [_; _; _]. split; [done|]. by constructor. }
  destruct (RawQuery env address _ _ _ _); cbn.
  - eexists [_; _; _; _]. split; [done|].
    constructor; [done | apply demoteDeparting_spare].
  - eexists [_; _; _; _]. split; [done|].
    constructor; [done | apply demoteDeparting_spare].
Qed.

(** C6: a departing member that is itself the leader transfers leadership
    and sends the handover request to the leader it finds afterwards; the
    leader promotes the replacement with an assign RPC to the target and
    only after that succeeded demotes the departing member with an assign
    RPC to its address, in which the raft nodes are those of the promotion
    with the departing member as a spare and every other node unchanged;
    without a replacement it does neither and answers with success. *)
Theorem handover_protocol env r req d fuel leader target nodes :
  (serverClustered d = true ->
   let localAddress := config_ClusterAddress (localConfig d) in
   let l1 := EvLeaderAddress (inr localAddress) :: log d in
   let l2 := EvLeaderAddress (inr leader) :: EvTransferLeadership None :: l1 in
   let res :=
     RawQuery env leader "POST" "/internal/cluster/handover" (inr localAddress)
       (EvConnect leader true None :: l2) in
   localAddress <> "" ->
   LeaderAddress env (log d) = inr localAddress ->
   TransferLeadership env l1 = None ->
   LeaderAddress env (EvTransferLeadership None :: l1) = inr leader ->
   leader <> "" -> leader <> localAddress ->
   Connect env leader true l2 = None ->
   handoverMemberRole env (S (S fuel)) d =
     (Some res,
      logged [handover_request leader localAddress res;
              EvConnect leader true None;
              EvLeaderAddress (inr leader);
              EvTransferLeadership None;
              EvLeaderAddress (inr localAddress)] d)) /\
  (json_HandoverRequest env (r_Body r) = inr req ->
   let address := handover_Address req in
   address <> "" ->
   LeaderAddress env (log d) = inr leader ->
   leader <> "" ->
   config_ClusterAddress (localConfig d) = leader ->
   Handover env address
     (EvLock clusterMembershipMutex :: EvLeaderAddress (inr leader) :: log d) =
     inr (target, nodes) ->
   exists after,
     log (internalClusterPostHandover env r d).2 =
       EvUnlock clusterMembershipMutex :: rev after ++
       [EvHandover address (inr (target, nodes));
        EvLock clusterMembershipMutex;
        EvLeaderAddress (inr leader)] ++ log d /\
     handover_outcome address target nodes after
       (internalClusterPostHandover env r d).1).
Proof.
  split.
  - apply handoverMemberRole_transfers.
  - apply internalClusterPostHandover_leader.
Qed.

Lemma handover_protocol_witness :
  handoverMemberRole (scenarioEnv leader_leaves) 2 daemon_n1 =
    (Some None,
     logged [handover_request "10.0.0.2:8443" "10.0.0.1:8443" None;
             EvConnect "10.0.0.2:8443" true None;
             EvLeaderAddress (inr "10.0.0.2:8443");
             EvTransferLeadership None;
             EvLeaderAddress (inr "10.0.0.1:8443")] daemon_n1) /\
  exists after,
    log (internalClusterPostHandover (scenarioEnv n2_hands_over)
           (request "10.0.0.2:8443") daemon_n1).2 =
      EvUnlock clusterMembershipMutex :: rev after ++
      [EvHandover "10.0.0.2:8443" (inr (sc_Handover n2_hands_over));
       EvLock clusterMembershipMutex;
       EvLeaderAddress (inr "10.0.0.1:8443")] /\
    handover_outcome "10.0.0.2:8443" "10.0.0.3:8443"
      (sc_Handover n2_hands_over).2 after
      (internalClusterPostHandover (scenarioEnv n2_hands_over)
         (request "10.0.0.2:8443") daemon_n1).1.
Proof.
  split.
  - refine (proj1 (handover_protocol (scenarioEnv leader_leaves) (request "")
                     (mkHandoverRequest "") daemon_n1 0 "10.0.0.2:8443" "" [])
              eq_refl _ eq_refl eq_refl eq_refl _ _ eq_refl);
      vm_compute; discriminate.
  - refine (proj2 (handover_protocol (scenarioEnv n2_hands_over)
                     (request "10.0.0.2:8443")
                     (mkHandoverRequest "10.0.0.2:8443") daemon_n1 0
                     "10.0.0.1:8443" "10.0.0.3:8443"
                     (sc_Handover n2_hands_over).2)
              eq_refl _ eq_refl _ eq_refl eq_refl);
      vm_compute; discriminate.
Defined.

(** ** Rebalance *)

Lemma each_after_nil P : each_after P [].
Proof. intros i e Hi. destruct i; discriminate Hi. Qed.

Lemma each_after_cons P e l :
  P e l -> each_after P l -> each_after P (e :: l).
Proof.
  intros He Hl [|i] e'; cbn.
  - by intros [= <-].
  - apply Hl.
Qed.

Lemma each_after_app P l1 l2 :
  (forall e older more, P e older -> P e (older ++ more)) ->
  each_after P l1 -> each_after P l2 -> each_after P (l1 ++ l2).
Proof.
  intros Hstable H1 H2 i e Hi.
  destruct (decide (i < length l1)%nat) as [Hlt|Hge].
  - rewrite lookup_app_l in Hi by done.
    rewrite drop_app_le by lia. apply Hstable. by apply H1.
  - rewrite lookup_app_r in Hi by lia.
    rewrite drop_app_ge by lia.
    replace (S i - length l1)%nat with (S (i - length l1)) by lia.
    by apply H2.
Qed.

Lemma probe_rule_stable e older more :
  probe_rule e older -> probe_rule e (older ++ more).
Proof.
  intros [Hdemote Hassign]. split.
  - intros id res He.
    destruct (Hdemote id res He) as (a & ns & n & rest & -> & ?).
    by exists a, ns, n, (rest ++ more).
  - intros a ns res n He Hn Hrole.
    destruct (Hassign a ns res n He Hn Hrole) as (rest & ->).
    by exists (rest ++ more).
Qed.

Lemma probe_rule_other e older :
  (forall id res, e <> EvDemoteOfflineNode id res) ->
  (forall address nodes res, e <> assign address nodes res) ->
  probe_rule e older.
Proof.
  intros Hd Ha. split.
  - intros id res He. by destruct (Hd id res).
  - intros a ns res n He. by destruct (Ha a ns res).
Qed.

Lemma processDemotions_run env address nodes d :
  processDemotions env address nodes d =
    match node_at address nodes with
    | None => (ExitBreak, d)
    | Some node =>
        let reachable := HasConnectivity env address (log d) in
        let probe := EvHasConnectivity address reachable in
        if negb (bool_decide (raft_Role node = RaftSpare)) then
          (if negb reachable then ExitReturn None else ExitBreak,
           logged [probe] d)
        else if reachable then (ExitBreak, logged [probe] d)
        else
          let res := DemoteOfflineNode env (raft_ID node) (probe :: log d) in
          (match res with
           | Some e =>
               ExitReturn (Some (wrap ("Failed to demote cluster member "
                                       ++ raft_Name node)%string e))
           | None => ExitAgain
           end,
           logged [EvDemoteOfflineNode (raft_ID node) res; probe] d)
    end.
Proof.
  induction nodes as [|node rest IH]; cbn; [done|].
  destruct (String.eqb (raft_Address node) address); cbn; [|exact IH].
  unfold logged. unfold_monad. cbn.
  destruct (bool_decide (raft_Role node = RaftSpare)); cbn.
  - destruct (HasConnectivity env address (log d)); cbn; [done|].
    by destruct (DemoteOfflineNode env _ _).
  - by destruct (HasConnectivity env address (log d)).
Qed.

Ltac other_event :=
  apply probe_rule_other; [intros ? ?; discriminate|intros ? ? ?; discriminate].

Lemma rebalanceAgain_probed env fuel d :
  exists new,
    log (rebalanceAgain env fuel d).2 = new ++ log d /\
    each_after probe_rule new.
Proof.
  revert d. induction fuel as [|fuel IH]; intros d; cbn.
  { exists []. split; [done|apply each_after_nil]. }
  unfold_monad. cbn.
  destruct (Rebalance env (log d)) as [err|[address nodes]] eqn:Hreb; cbn.
  { eexists [_]. split; [done|].
    apply each_after_cons; [other_event|apply each_after_nil]. }
  destruct (String.eqb address "") eqn:Haddr; cbn.
  { eexists [_]. split; [done|].
    apply each_after_cons; [other_event|apply each_after_nil]. }
  assert (Hfirst : each_after probe_rule [EvRebalance (inr (address, nodes))])
    by (apply each_after_cons; [other_event|apply each_after_nil]).
  (* the calls of [changeMemberRole], on top of [pre] *)
  assert (Hchange : forall pre d0,
    log d0 = pre ++ log d ->
    each_after probe_rule pre ->
    (forall node, node_at address nodes = Some node ->
       raft_Role node <> RaftSpare ->
       exists rest, pre = EvHasConnectivity address true :: rest) ->
    exists new,
      log (let (err, d1) := changeMemberRole env address nodes d0 in
           match err with
           | Some e => fun d2 => (Some (Some e), d2)
           | None => rebalanceAgain env fuel
           end d1).2 = new ++ log d /\
      each_after probe_rule new).
  { intros pre d0 Hpre Hrule Hprobe. rewrite changeMemberRole_run.
    destruct (Connect env address true (log d0)); cbn.
    { eexists (_ :: pre). rewrite Hpre. split; [done|].
      apply each_after_cons; [other_event|done]. }
    destruct (RawQuery env address _ _ _ _) eqn:Hq; cbn.
    - eexists (_ :: _ :: pre). rewrite Hpre. split; [done|].
      apply each_after_cons; [|apply each_after_cons; [other_event|done]].
      split; [intros ? ?; discriminate|].
      intros a ns res n [= <- <- <-] Hn Hrole.
      destruct (Hprobe n Hn Hrole) as (rest & ->). by exists rest.
    - destruct (IH (logged [assign address nodes None;
                            EvConnect address true None] d0))
        as (new & Hnew & Hall).
      exists (new ++ assign address nodes None
              :: EvConnect address true None :: pre).
      split.
      + rewrite Hnew. cbn. rewrite Hpre. by rewrite <- app_assoc.
      + apply each_after_app; [apply probe_rule_stable|done|].
        apply each_after_cons; [|apply each_after_cons; [other_event|done]].
        split; [intros ? ?; discriminate|].
        intros a ns res n [= <- <- <-] Hn Hrole.
        destruct (Hprobe n Hn Hrole) as (rest & ->). by exists rest. }
  rewrite processDemotions_run. cbn.
  destruct (node_at address nodes) as [node|] eqn:Hnode; cbn.
  2:{ apply (Hchange [EvRebalance (inr (address, nodes))]); [done|done|].
      intros node [=]. }
  set (reachable := HasConnectivity env address _).
  assert (Hprobed : each_after probe_rule
            [EvHasConnectivity address reachable;
             EvRebalance (inr (address, nodes))])
    by (apply each_after_cons; [other_event|done]).
  destruct (bool_decide (raft_Role node = RaftSpare)) eqn:Hrole; cbn.
  - apply bool_decide_eq_true in Hrole.
    destruct reachable eqn:Hreach; cbn.
    + apply (Hchange [EvHasConnectivity address true;
                      EvRebalance (inr (address, nodes))]); [done|done|].
      intros n [= <-] Hn. done.
    + destruct (DemoteOfflineNode env _ _) eqn:Hdem; cbn.
      * eexists [_; _; _]. split; [done|].
        apply each_after_cons; [|done]. split; [|intros ? ? ? ?; discriminate].
        intros id res [= <- <-]. by exists address, nodes, node, [].
      * destruct (IH (logged [EvDemoteOfflineNode (raft_ID node) None;
                              EvHasConnectivity address false]
                        (logged [EvRebalance (inr (address, nodes))] d)))
          as (new & Hnew & Hall).
        exists (new ++ [EvDemoteOfflineNode (raft_ID node) None;
                        EvHasConnectivity address false;
                        EvRebalance (inr (address, nodes))]).
        split.
        -- etransitivity; [exact Hnew|]. cbn. by rewrite <- app_assoc.
        -- apply each_after_app; [apply probe_rule_stable|done|].
           apply each_after_cons; [|done].
           split; [|intros ? ? ? ?; discriminate].
           intros id res [= <- <-]. by exists address, nodes, node, [].
  - destruct reachable eqn:Hreach; cbn.
    + apply (Hchange [EvHasConnectivity address true;
                      EvRebalance (inr (address, nodes))]); [done|done|].
      intros n _ _. by eexists.
    + eexists [_; _]. split; [done|done].
Qed.

(** C7: in the calls logged by [rebalanceMemberRoles], an assign RPC that
    gives a member a role other than spare comes directly after the
    connection that follows a successful connectivity probe of that member,
    and [DemoteOfflineNode] comes directly after a failed probe of the
    member it demotes to spare, so a member that passes the probe is never
    demoted through it; when the probe of a member to be promoted fails,
    the pass ends there, without error and without an assign RPC. *)
Theorem rebalance_probes_first env fuel d :
  (exists new,
     log (rebalanceMemberRoles env fuel d).2 = new ++ log d /\
     each_after probe_rule new) /\
  (forall address nodes node,
     Rebalance env (log d) = inr (address, nodes) ->
     address <> "" ->
     node_at address nodes = Some node ->
     raft_Role node <> RaftSpare ->
     HasConnectivity env address
       (EvRebalance (inr (address, nodes)) :: log d) = false ->
     rebalanceAgain env (S fuel) d =
       (Some None,
        logged [EvHasConnectivity address false;
                EvRebalance (inr (address, nodes))] d)).
Proof.
  split.
  - unfold rebalanceMemberRoles. unfold_monad. cbn.
    destruct (ShutdownCtxErr env (log d)) eqn:Hdown; cbn.
    + eexists [_]. split; [done|].
      apply each_after_cons; [other_event|apply each_after_nil].
    + destruct (rebalanceAgain_probed env fuel
                  (logged [EvShutdownCtxErr false] d)) as (new & Hnew & Hall).
      exists (new ++ [EvShutdownCtxErr false]). split.
      * etransitivity; [exact Hnew|]. cbn. by rewrite <- app_assoc.
      * apply each_after_app; [apply probe_rule_stable|done|].
        apply each_after_cons; [other_event|apply each_after_nil].
  - intros address nodes node Hreb Haddr Hnode Hrole Hprobe.
    cbn. unfold_monad. cbn. rewrite Hreb. cbn.
    apply String.eqb_neq in Haddr. rewrite Haddr.
    rewrite processDemotions_run. cbn. rewrite Hnode. cbn.
    rewrite bool_decide_eq_false_2 by done. cbn. by rewrite Hprobe.
Qed.

Lemma rebalance_probes_first_witness :
  rebalanceAgain (scenarioEnv promote_unreachable) 3 daemon_n1 =
    (Some None,
     logged [EvHasConnectivity "10.0.0.4:8443" false;
             EvRebalance (sc_Rebalance promote_unreachable [])] daemon_n1).
Proof.
  refine (proj2 (rebalance_probes_first (scenarioEnv promote_unreachable)
                   2 daemon_n1)
            "10.0.0.4:8443" _ (set_Role raft_n4 RaftStandBy)
            eq_refl _ eq_refl _ eq_refl); vm_compute; discriminate.
Defined.

(** ** The activation probe *)

Lemma probeInstances_run env instances d :
  probeInstances env instances d =
    if existsb (wants_daemon env) instances
    then (Some (ConnectIncusUnix env (log d)),
          logged [EvConnectIncusUnix (ConnectIncusUnix env (log d))] d)
    else (None, d).
Proof.
  induction instances as [|inst rest IH]; cbn; [done|].
  unfold wants_daemon at 1. unfold activate, logged. unfold_monad. cbn.
  destruct (instanceShouldAutoStart env inst); cbn; [done|].
  destruct (inst_IsRunning inst); cbn; [done|].
  destruct (String.eqb _ ""); cbn; [|done]. exact IH.
Qed.

Lemma probeVolumes_run env volumes d :
  probeVolumes env volumes d =
    if existsb has_schedule volumes
    then (Some (ConnectIncusUnix env (log d)),
          logged [EvConnectIncusUnix (ConnectIncusUnix env (log d))] d)
    else (None, d).
Proof.
  induction volumes as [|vol rest IH]; cbn; [done|].
  unfold has_schedule at 1. unfold activate, logged. unfold_monad. cbn.
  destruct (String.eqb _ ""); cbn; [|done]. exact IH.
Qed.

(** C9, as amended: when the probe runs as root and every access to the
    databases succeeds, it connects to the local unix socket if and only
    if the local database file exists and either a listening address is
    configured in it, or the global database file exists and some instance
    should auto-start, is running or has a snapshot schedule, or some
    custom volume has a snapshot schedule; when it does not connect it
    returns without error. *)
Theorem activateifneeded_iff env local_db global_db config instances volumes d :
  healthy env local_db global_db config instances volumes ->
  exists new,
    log (activateifneeded_run env d).2 = new ++ log d /\
    attempted new =
      local_db
      && (negb (String.eqb (config_HTTPSAddress config) "")
          || global_db
             && (existsb (wants_daemon env) instances
                 || existsb has_schedule volumes)) /\
    (attempted new = false -> (activateifneeded_run env d).1 = None).
Proof.
  intros [Hroot Hlocal Hglobal Hopen Hbegin Hcommit Hinspect Hcfg Hinst Hvol].
  unfold activateifneeded_run, activate. unfold_monad. cbn.
  rewrite Hroot. rewrite bool_decide_eq_true_2 by done. cbn. rewrite Hlocal.
  destruct local_db; cbn; [|by eexists [_; _]].
  rewrite Hopen, Hbegin. cbn. rewrite Hcfg, Hcommit. cbn.
  destruct (String.eqb (config_HTTPSAddress config) ""); cbn;
    [|by eexists [_; _; _; _; _; _; _]].
  rewrite Hglobal.
  destruct global_db; cbn; [|by eexists [_; _; _; _; _; _; _]].
  rewrite Hopen, Hinspect. cbn. rewrite Hinst. cbn.
  rewrite probeInstances_run.
  destruct (existsb (wants_daemon env) instances); cbn.
  { by eexists [_; _; _; _; _; _; _; _; _; _; _; _]. }
  rewrite Hbegin. cbn. rewrite Hvol, Hcommit. cbn.
  rewrite probeVolumes_run.
  destruct (existsb has_schedule volumes); cbn.
  - by eexists [_; _; _; _; _; _; _; _; _; _; _; _; _; _; _].
  - by eexists [_; _; _; _; _; _; _; _; _; _; _; _; _; _].
Qed.

Lemma healthy_scheduled_volume :
  healthy (scenarioEnv scheduled_volume) true true ∅
    [mkInstance "c1" {["boot.autostart" := "false"]} false]
    [mkStorageVolumeArgs "v1" {["snapshots.schedule" := "@daily"]}].
Proof. by split. Qed.

Lemma activateifneeded_iff_witness :
  exists new,
    log (activateifneeded_run (scenarioEnv scheduled_volume) fresh_daemon).2 =
      new ++ [] /\
    attempted new = true.
Proof.
  destruct (activateifneeded_iff (scenarioEnv scheduled_volume) true true ∅
              [mkInstance "c1" {["boot.autostart" := "false"]} false]
              [mkStorageVolumeArgs "v1" {["snapshots.schedule" := "@daily"]}]
              fresh_daemon healthy_scheduled_volume) as (new & Hlog & Hatt & _).
  exists new. split; [exact Hlog|]. rewrite Hatt. vm_compute. reflexivity.
Defined.

(** C9 as stated fails: a listening address is configured in the local
    database, but the probe is not run as root; it returns an error and
    does not connect to the socket. *)
Lemma activateifneeded_not_root :
  ConfigLoad (scenarioEnv not_root) [] =
    inr {["core.https_address" := "10.0.0.1:8443"]} /\
  (activateifneeded_run (scenarioEnv not_root) fresh_daemon).1 =
    Some "This must be run as root" /\
  attempted (log (activateifneeded_run (scenarioEnv not_root) fresh_daemon).2)
    = false.
Proof. repeat split; vm_compute; reflexivity. Qed.

(** ** Rules for [emits] *)

Lemma emits_ret P {A} (a : A) : emits P (ret a).
Proof. intros d. by exists []. Qed.

Lemma emits_bind P {A B} (m : M A) (k : A -> M B) :
  emits P m -> (forall a, emits P (k a)) -> emits P (bind m k).
Proof.
  intros Hm Hk d. unfold bind.
  destruct (Hm d) as (new1 & H1 & HP1). destruct (m d) as [a d1]. cbn in H1.
  destruct (Hk a d1) as (new2 & H2 & HP2).
  exists (new2 ++ new1). rewrite H2, H1, app_assoc. split; [done|].
  by apply Forall_app.
Qed.

Lemma emits_emit (P : Event -> Prop) e : P e -> emits P (emit e).
Proof. intros He d. exists [e]. split; [done|]. by constructor. Qed.

Lemma emits_call (P : Event -> Prop) {A} (answer : Log -> A) ev :
  (forall a, P (ev a)) -> emits P (call answer ev).
Proof. intros He d. eexists [_]. split; [done|]. by constructor. Qed.

Lemma emits_get_daemon P : emits P get_daemon.
Proof. intros d. by exists []. Qed.

Lemma emits_set_localConfig P c : emits P (set_localConfig c).
Proof. intros d. by exists []. Qed.

Lemma emits_set_operations P ops : emits P (set_operations ops).
Proof. intros d. by exists []. Qed.

Lemma emits_weaken (P Q : Event -> Prop) {A} (m : M A) :
  (forall e, P e -> Q e) -> emits P m -> emits Q m.
Proof.
  intros HPQ Hm d. destruct (Hm d) as (new & Hlog & HP).
  exists new. split; [done|]. eapply Forall_impl; eauto.
Qed.

Create HintDb emits.

(** Goals [emits P m] are solved along the structure of [m]; the events
    themselves are checked by computation. *)
Ltac emits_step :=
  first
    [ solve [eauto with emits]
    | apply emits_ret
    | apply emits_get_daemon
    | apply emits_set_localConfig
    | apply emits_set_operations
    | apply emits_emit; first [exact I | reflexivity | done]
    | apply emits_call; intros ?; first [exact I | reflexivity | done]
    | match goal with
      | |- emits _ (match ?x with _ => _ end) => destruct x
      | |- emits _ (if ?b then _ else _) => destruct b
      | |- emits _ (let _ := _ in _) => cbv zeta
      end
    | apply emits_bind; [|intros ?] ].

Ltac solve_emits := repeat emits_step.

Section Harmless.

Variables (env : Env) (self : string) (r : Request).

Local Abbreviation Q := (fun e => harmless self r e = true).

Lemma emits_Transaction {A} db (f : M (Error + A)) :
  emits Q f -> emits Q (Transaction env db f).
Proof. intros Hf. unfold Transaction. solve_emits. Qed.

Lemma emits_changeMemberRole address nodes :
  emits Q (changeMemberRole env address nodes).
Proof. unfold changeMemberRole, check. solve_emits. Qed.

Lemma emits_removeClusterFiles suffixes :
  emits Q (removeClusterFiles env suffixes).
Proof. induction suffixes; cbn [removeClusterFiles]; solve_emits. Qed.

Lemma emits_promoteRemaining leader seen rest :
  emits Q (promoteRemaining env leader seen rest).
Proof.
  revert seen. induction rest; intros seen; cbn [promoteRemaining].
  - solve_emits.
  - destruct (_ && _); [apply emits_changeMemberRole|apply IHrest].
Qed.

Lemma emits_deleteNetworks address project networks :
  emits Q (deleteNetworks env address project networks).
Proof.
  induction networks; cbn [deleteNetworks]; unfold check; solve_emits.
Qed.

Lemma emits_deleteStoragePools address pools :
  emits Q (deleteStoragePools env address pools).
Proof.
  induction pools; cbn [deleteStoragePools]; unfold check; solve_emits.
Qed.

Hint Resolve emits_Transaction emits_changeMemberRole
  emits_removeClusterFiles emits_promoteRemaining emits_deleteNetworks
  emits_deleteStoragePools : emits.

Lemma emits_deleteProjectNetworks address projects :
  emits Q (deleteProjectNetworks env address projects).
Proof.
  induction projects; cbn [deleteProjectNetworks];
    unfold check, orReturn; solve_emits.
Qed.

Hint Resolve emits_deleteProjectNetworks : emits.

Lemma emits_cleanupMember address : emits Q (cleanupMember env address).
Proof. unfold cleanupMember, check, orReturn. solve_emits. Qed.

Lemma emits_processDemotions address nodes :
  emits Q (processDemotions env address nodes).
Proof. induction nodes; cbn [processDemotions]; solve_emits. Qed.

Hint Resolve emits_cleanupMember emits_processDemotions : emits.

Lemma emits_rebalanceAgain fuel : emits Q (rebalanceAgain env fuel).
Proof. induction fuel; cbn [rebalanceAgain]; solve_emits. Qed.

Hint Resolve emits_rebalanceAgain : emits.

Lemma emits_rebalanceMemberRoles fuel :
  emits Q (rebalanceMemberRoles env fuel).
Proof. unfold rebalanceMemberRoles. solve_emits. Qed.

Lemma emits_clusterPutDisable req : emits Q (clusterPutDisable env r req).
Proof.
  unfold clusterPutDisable, check, orReturn. solve_emits.
  apply emits_emit. cbn. by apply bool_decide_eq_true.
Qed.

End Harmless.

Global Hint Resolve emits_Transaction emits_changeMemberRole
  emits_removeClusterFiles emits_promoteRemaining emits_deleteNetworks
  emits_deleteStoragePools emits_deleteProjectNetworks emits_cleanupMember
  emits_processDemotions emits_rebalanceAgain emits_rebalanceMemberRoles
  emits_clusterPutDisable : emits.

(** ** [DELETE /1.0/cluster/members/{name}] *)

Local Arguments bind {A B} m k d /.
Local Arguments ret {A} a d /.
Local Arguments call {A} answer ev d /.
Local Arguments emit e d /.
Local Arguments get_daemon d /.
Local Arguments orReturn {A R} c h k d /.
Local Arguments check {R} c h k d /.
Local Arguments locked {A} mu body d /.
Local Arguments Transaction env {A} db f d /.

Lemma each_after_no_removal promotion l :
  forallb (fun e => negb (is_removal e)) l = true ->
  each_after (promoted_first promotion) l.
Proof.
  intros Hall i e Hi Hrem. rewrite forallb_forall in Hall.
  apply list_elem_of_lookup_2, list_elem_of_In, Hall in Hi.
  by rewrite Hrem in Hi.
Qed.

Lemma each_after_promoted promotion known more :
  promotion ∈ known ->
  each_after (promoted_first promotion) known ->
  each_after (promoted_first promotion) (more ++ known).
Proof.
  intros Hin Hknown i e Hi Hrem.
  destruct (decide (i < length more)%nat) as [Hlt|Hge].
  - rewrite drop_app_le by lia. apply elem_of_app. by right.
  - rewrite lookup_app_r in Hi by lia. rewrite drop_app_ge by lia.
    replace (S i - length more)%nat with (S (i - length more)) by lia.
    by apply (Hknown _ e).
Qed.

Lemma promoteRemaining_two_nodes env leader other nodes promoted d :
  two_nodes leader other nodes promoted ->
  promoteRemaining env leader [] nodes d =
    changeMemberRole env (raft_Address other) promoted d.
Proof.
  intros (Haddr & Hrole & leaderNode & Hl & [[-> ->]|[-> ->]]);
    cbn [promoteRemaining].
  - rewrite <- Hl, String.eqb_refl. cbn.
    apply String.eqb_neq in Haddr. rewrite Hl, Haddr.
    by rewrite bool_decide_eq_false_2.
  - apply String.eqb_neq in Haddr. rewrite Haddr.
    by rewrite bool_decide_eq_false_2.
Qed.

Lemma clean_since_refl l0 : clean_since l0 l0.
Proof. by exists []. Qed.

Lemma clean_since_cons l0 l e :
  is_removal e = false -> clean_since l0 l -> clean_since l0 (e :: l).
Proof.
  intros He (new & -> & Hall). exists (e :: new). split; [done|].
  cbn. by rewrite He.
Qed.

Lemma clean_since_each_after promotion l0 l :
  clean_since l0 l ->
  exists new, l = new ++ l0 /\ each_after (promoted_first promotion) new.
Proof.
  intros (new & -> & Hall). exists new. split; [done|].
  by apply each_after_no_removal.
Qed.

Lemma promoted_since_intro promotion l0 l :
  is_removal promotion = false ->
  clean_since l0 l -> promoted_since promotion l0 (promotion :: l).
Proof.
  intros Hp (new & -> & Hall). exists (promotion :: new).
  split; [done|]. split; [|by left].
  apply each_after_no_removal. cbn. by rewrite Hp.
Qed.

Lemma promoted_since_app promotion l0 l more :
  promoted_since promotion l0 l -> promoted_since promotion l0 (more ++ l).
Proof.
  intros (new & -> & Hall & Hin). exists (more ++ new).
  rewrite app_assoc. split; [done|]. split.
  - by apply each_after_promoted.
  - apply elem_of_app. by right.
Qed.

Lemma promoted_since_cons promotion l0 l e :
  promoted_since promotion l0 l -> promoted_since promotion l0 (e :: l).
Proof. apply (promoted_since_app promotion l0 l [e]). Qed.

Lemma promoted_since_each_after promotion l0 l :
  promoted_since promotion l0 l ->
  exists new, l = new ++ l0 /\ each_after (promoted_first promotion) new.
Proof. intros (new & -> & Hall & _). by exists new. Qed.

Ltac clean :=
  apply clean_since_each_after;
  repeat (apply clean_since_cons; [reflexivity|]);
  apply clean_since_refl.

Lemma run_bind {A B} (m : M A) (k : A -> M B) d :
  bind m k d = k (m d).1 (m d).2.
Proof. unfold bind. by destruct (m d). Qed.

Lemma two_nodes_length leader other nodes promoted :
  two_nodes leader other nodes promoted -> length nodes = 2%nat.
Proof. by intros (_ & _ & ? & _ & [[-> _]|[-> _]]). Qed.

(** On the leader: the remaining node is promoted, successfully, before
    the member is made to leave and is purged. *)
Lemma clusterNodeDelete_promotes_first env fuel r d name leader other nodes
    promoted :
  PathUnescape env (get (r_Vars r) "name") = inr name ->
  LeaderAddress env (log d) = inr leader ->
  config_ClusterAddress (localConfig d) = leader ->
  (forall l info, GetNodeByAddress env leader l = inr info ->
     node_Name info = name) ->
  (forall l nodes', GetRaftNodes env l = inr nodes' -> nodes' = nodes) ->
  two_nodes leader other nodes promoted ->
  exists new,
    log (clusterNodeDelete env fuel r d).2 = new ++ log d /\
    each_after
      (promoted_first (assign (raft_Address other) promoted None)) new.
Proof.
  intros Hname Hleader Hlocal Hinfo Hnodes Htwo.
  unfold clusterNodeDelete. cbn. rewrite Hname. cbn. rewrite Hleader. cbn.
  destruct (txBegin env ClusterDB _); cbn; [clean|].
  rewrite Hlocal.
  match goal with
  | |- context [GetNodeByAddress env leader ?l] =>
      destruct (GetNodeByAddress env leader l) as [err|localInfo] eqn:Hli
  end; cbn; [clean|].
  match goal with
  | |- context [GetNodeByAddress env leader ?l] =>
      destruct (GetNodeByAddress env leader l) as [err|leaderInfo] eqn:Hle
  end; cbn; [clean|].
  destruct (txCommit env ClusterDB _); cbn; [clean|].
  destruct (txBegin env NodeDB _); cbn; [clean|].
  destruct (GetRaftNodes env _) as [err|nodes1] eqn:Hn; cbn; [clean|].
  destruct (txCommit env NodeDB _); cbn; [clean|].
  apply Hnodes in Hn as ->. apply Hinfo in Hle.
  rewrite String.eqb_refl. cbn -[bind].
  rewrite !run_bind. cbn -[bind].
  rewrite Hle, String.eqb_refl, (two_nodes_length _ _ _ _ Htwo).
  rewrite bool_decide_eq_true_2 by done. cbn -[bind].
  rewrite (promoteRemaining_two_nodes _ _ _ _ _ _ Htwo).
  rewrite changeMemberRole_run.
  destruct (Connect env (raft_Address other) true _); cbn -[bind]; [clean|].
  destruct (RawQuery env (raft_Address other) _ _ _ _); cbn -[bind]; [clean|].
  match goal with
  | |- context [log (snd (bind ?m ?k ?dd))] =>
      let H := fresh in
      assert (H : emits (fun e => harmless "" r e = true) (bind m k))
        by (unfold check, orReturn; solve_emits);
      destruct (H dd) as (more & -> & _)
  end.
  apply promoted_since_each_after, promoted_since_cons, promoted_since_app.
  cbn. apply promoted_since_intro; [reflexivity|].
  repeat (apply clean_since_cons; [reflexivity|]). apply clean_since_refl.
Qed.

Lemma early_error promotion name new resp :
  forallb (fun e => negb (is_removal e)) new = true ->
  is_error_response resp = true ->
  leader_outcome promotion name new (Some resp).
Proof.
  intros Hclean Herr. split.
  - right. exists resp. auto.
  - intros resp' [= <-] Hok. rewrite Herr in Hok. discriminate.
Qed.

Lemma late_error promotion name new resp :
  promotion ∈ new ->
  is_error_response resp = true ->
  leader_outcome promotion name new (Some resp).
Proof.
  intros Hin Herr. split; [left; exact Hin|].
  intros resp' [= <-] Hok. rewrite Herr in Hok. discriminate.
Qed.

Lemma ext_nil (l0 : Log) : l0 = [] ++ l0.
Proof. reflexivity. Qed.

Lemma ext_cons e (l new l0 : Log) : l = new ++ l0 -> e :: l = (e :: new) ++ l0.
Proof. intros ->. reflexivity. Qed.

Lemma ext_app (more l new l0 : Log) :
  l = new ++ l0 -> more ++ l = (more ++ new) ++ l0.
Proof. intros ->. apply app_assoc. Qed.

Ltac split_log := repeat first [apply ext_cons | apply ext_app]; apply ext_nil.

Ltac find_call :=
  repeat first [ apply list_elem_of_here | apply list_elem_of_further
               | (apply elem_of_app; right) ].

Ltac early :=
  eexists; split; [split_log | apply early_error; reflexivity].

Ltac late :=
  eexists; split; [split_log | apply late_error; [find_call | reflexivity]].

Ltac removed :=
  eexists; split; [split_log|]; split; [left; find_call|];
  intros ? _ _; split; [find_call|];
  eexists _, _, _, _; split; find_call.

(** On the leader: the promotion is made, unless the handler fails before
    it, without having removed anything; and the handler answers with
    success only after the promotion, [cluster.Leave] and
    [cluster.Purge] all succeeded. *)
Lemma clusterNodeDelete_leader_outcome env fuel r d name leader other nodes
    promoted :
  PathUnescape env (get (r_Vars r) "name") = inr name ->
  LeaderAddress env (log d) = inr leader ->
  config_ClusterAddress (localConfig d) = leader ->
  (forall l info, GetNodeByAddress env leader l = inr info ->
     node_Name info = name) ->
  (forall l nodes', GetRaftNodes env l = inr nodes' -> nodes' = nodes) ->
  two_nodes leader other nodes promoted ->
  exists new,
    log (clusterNodeDelete env fuel r d).2 = new ++ log d /\
    leader_outcome (assign (raft_Address other) promoted None) name new
      (clusterNodeDelete env fuel r d).1.
Proof.
  intros Hname Hleader Hlocal Hinfo Hnodes Htwo.
  unfold clusterNodeDelete. cbn. rewrite Hname. cbn. rewrite Hleader. cbn.
  destruct (txBegin env ClusterDB _); cbn; [early|].
  rewrite Hlocal.
  match goal with
  | |- context [GetNodeByAddress env leader ?l] =>
      destruct (GetNodeByAddress env leader l) as [err|localInfo] eqn:Hli
  end; cbn; [early|].
  match goal with
  | |- context [GetNodeByAddress env leader ?l] =>
      destruct (GetNodeByAddress env leader l) as [err|leaderInfo] eqn:Hle
  end; cbn; [early|].
  destruct (txCommit env ClusterDB _); cbn; [early|].
  destruct (txBegin env NodeDB _); cbn; [early|].
  destruct (GetRaftNodes env _) as [err|nodes1] eqn:Hn; cbn; [early|].
  destruct (txCommit env NodeDB _); cbn; [early|].
  apply Hnodes in Hn as ->. apply Hinfo in Hle.
  rewrite String.eqb_refl. cbn -[bind].
  rewrite !run_bind. cbn -[bind].
  rewrite Hle, String.eqb_refl, (two_nodes_length _ _ _ _ Htwo).
  rewrite bool_decide_eq_true_2 by done. cbn -[bind].
  rewrite (promoteRemaining_two_nodes _ _ _ _ _ _ Htwo).
  rewrite changeMemberRole_run.
  destruct (Connect env (raft_Address other) true _); cbn -[bind]; [early|].
  destruct (RawQuery env (raft_Address other) _ _ _ _); cbn -[bind]; [early|].
  cbn -[cleanupMember rebalanceMemberRoles clusterPutDisable].
  match goal with
  | |- context [match (if ?b then ?x else None) with _ => _ end] =>
      destruct (if b then x else None)
  end; cbn -[cleanupMember rebalanceMemberRoles clusterPutDisable]; [late|].
  destruct (Leave env name _ _ _) as [err|address];
    cbn -[cleanupMember rebalanceMemberRoles clusterPutDisable]; [late|].
  destruct (bool_decide (formInt env r "force" = 1));
    cbn -[cleanupMember rebalanceMemberRoles clusterPutDisable].
  - (* forced: the departing member is not cleaned up *)
    destruct (Purge env name _ _);
      cbn -[cleanupMember rebalanceMemberRoles clusterPutDisable]; [late|].
    match goal with
    | |- context [rebalanceMemberRoles env fuel ?dd] =>
        destruct (emits_rebalanceMemberRoles env "" r fuel dd)
          as (more & Hmore & _);
        destruct (rebalanceMemberRoles env fuel dd) as [reb [? ? ? ? ? l1]]
    end.
    cbn in Hmore. subst l1.
    destruct reb; cbn -[clusterPutDisable]; [|removed].
    destruct (String.eqb address leader); cbn -[clusterPutDisable].
    + match goal with
      | |- context [clusterPutDisable env r ?req ?dd] =>
          destruct (emits_clusterPutDisable env "" r req dd)
            as (more' & Hmore' & _);
          destruct (clusterPutDisable env r req dd) as [resp [? ? ? ? ? l2]]
      end.
      cbn in Hmore'. subst l2. cbn. removed.
    + removed.
  - match goal with
    | |- context [cleanupMember env address ?dd] =>
        destruct (emits_cleanupMember env "" r address dd)
          as (more0 & Hmore0 & _);
        destruct (cleanupMember env address dd) as [cleaned [? ? ? ? ? l0]]
    end.
    cbn in Hmore0. subst l0.
    destruct cleaned; cbn -[rebalanceMemberRoles clusterPutDisable]; [late|].
    destruct (Purge env name _ _);
      cbn -[rebalanceMemberRoles clusterPutDisable]; [late|].
    match goal with
    | |- context [rebalanceMemberRoles env fuel ?dd] =>
        destruct (emits_rebalanceMemberRoles env "" r fuel dd)
          as (more & Hmore & _);
        destruct (rebalanceMemberRoles env fuel dd) as [reb [? ? ? ? ? l1]]
    end.
    cbn in Hmore. subst l1.
    destruct reb; cbn -[clusterPutDisable]; [|removed].
    destruct (String.eqb address leader); cbn -[clusterPutDisable].
    + match goal with
      | |- context [clusterPutDisable env r ?req ?dd] =>
          destruct (emits_clusterPutDisable env "" r req dd)
            as (more' & Hmore' & _);
          destruct (clusterPutDisable env r req dd) as [resp [? ? ? ? ? l2]]
      end.
      cbn in Hmore'. subst l2. cbn. removed.
    + destruct (Connect env address true _); cbn; [late|].
      destruct (UpdateCluster env address _ _); cbn; [late|].
      removed.
Qed.


(** On the member that forwards the removal of the leader: the response
    is given only after the leader has removed itself, leadership has been
    acquired and the certificate cache refreshed, in this order. *)
Lemma clusterNodeDelete_waits_leadership env fuel r d name leader :
  PathUnescape env (get (r_Vars r) "name") = inr name ->
  LeaderAddress env (log d) = inr leader ->
  config_ClusterAddress (localConfig d) <> leader ->
  (forall l info, GetNodeByAddress env leader l = inr info ->
     node_Name info = name) ->
  (forall l nodes, GetRaftNodes env l = inr nodes -> length nodes = 2%nat) ->
  match (clusterNodeDelete env fuel r d).1 with
  | Some ManualResponseFlush =>
      exists force pending older,
        log (clusterNodeDelete env fuel r d).2 =
          EvUpdateCertificateCache :: EvWaitLeadership None
          :: EvDeleteClusterMember leader name force pending None :: older
  | Some resp => is_error_response resp = true
  | None => False
  end.
Proof.
  intros Hname Hleader Hlocal Hinfo Hnodes.
  unfold clusterNodeDelete. cbn. rewrite Hname. cbn. rewrite Hleader. cbn.
  destruct (txBegin env ClusterDB _); cbn; [done|].
  destruct (GetNodeByAddress env (config_ClusterAddress _) _)
    as [err|localInfo]; cbn; [done|].
  match goal with
  | |- context [GetNodeByAddress env leader ?l] =>
      destruct (GetNodeByAddress env leader l) as [err|leaderInfo] eqn:Hle
  end; cbn; [done|].
  destruct (txCommit env ClusterDB _); cbn; [done|].
  destruct (txBegin env NodeDB _); cbn; [done|].
  destruct (GetRaftNodes env _) as [err|nodes] eqn:Hn; cbn; [done|].
  destruct (txCommit env NodeDB _); cbn; [done|].
  apply Hnodes in Hn. apply Hinfo in Hle.
  apply String.eqb_neq in Hlocal. rewrite Hlocal. cbn.
  rewrite Hle, String.eqb_refl, Hn.
  rewrite (bool_decide_eq_true_2 (2 = 2)%nat) by done.
  destruct (String.eqb (node_Name localInfo) name); cbn.
  - destruct (Connect env leader false _); cbn; [done|].
    destruct (DeleteClusterMember env leader name _ _ _); cbn; [done|].
    destruct (WaitLeadership env _); cbn; [done|]. eauto.
  - destruct (Connect env leader false _); cbn; [done|].
    destruct (DeleteClusterMember env leader name _ _ _); cbn; [done|].
    destruct (WaitLeadership env _); cbn; [done|]. eauto.
Qed.



(** ** Self-removal *)

Lemma go_ok_mono r1 g : go_ok r1 false g -> go_ok r1 true g.
Proof. destruct g; cbn; auto. Qed.

Lemma guarded_mono self r1 t :
  guarded self r1 false t -> guarded self r1 true t.
Proof.
  induction t as [|instr rest IH]; [done|].
  destruct instr; cbn; intuition (try congruence; auto using go_ok_mono).
Qed.

Lemma go_ok_guarded self r1 b g :
  go_ok r1 b g -> guarded self r1 b (goroutine g).
Proof.
  destruct g as [r|r]; cbn.
  - intros [-> | ->]; [by left|]. right. by left.
  - intros ->. by left.
Qed.

Lemma held_after_unlock mu (l : list Mutex) :
  mu <> clusterPutDisableMu ->
  clusterPutDisableMu ∈ l ->
  clusterPutDisableMu ∈ filter (fun mu' => mu' <> mu) l.
Proof. intros Hne Hin. apply list_elem_of_filter. split; [congruence|done]. Qed.

Section Invariant.

Variables (self : string) (r1 : nat).

Local Abbreviation Inv := (self_removal_inv self r1).

(** After [r1] is done the invariant only says that it was answered. *)
Lemma inv_done s s' :
  r1 ∈ finished s -> r1 ∈ flushed s -> r1 ∈ requests s ->
  step self s s' -> Inv s'.
Proof.
  intros Hfin Hfl Hreq Hstep.
  assert (r1 ∈ requests s' /\ r1 ∈ finished s' /\ r1 ∈ flushed s')
    as (? & ? & ?)
    by (destruct Hstep; cbn; repeat split; set_solver).
  split; [done|]. split; [done|]. intros Hn. by destruct Hn.
Qed.

Lemma inv_intro s' b fl main others :
  r1 ∈ requests s' -> r1 ∉ finished s' -> restarted s' = false ->
  threads s' = main :: others ->
  main_ok self r1 b fl main ->
  (b = true -> clusterPutDisableMu ∈ held s') ->
  (fl = true -> r1 ∈ flushed s') ->
  Forall (guarded self r1 b) others ->
  Inv s'.
Proof.
  intros. split; [done|]. split; [intros ?; done|]. intros _.
  split; [done|]. by exists b, fl, main, others.
Qed.

(** The handler of a request other than [r1] that is harmless on its own
    account is guarded while the handler of [r1] holds the lock. *)
Lemma guarded_of_harmless r' l suffix :
  r_ID r' <> r1 ->
  Forall (fun e => harmless self r' e = true) l ->
  guarded self r1 true suffix ->
  guarded self r1 true (map instr_of l ++ suffix).
Proof.
  intros Hne Hall Hsuffix. induction Hall as [|e l He Hall IH]; [done|].
  destruct e; cbn in He |- *; try (split; [reflexivity|exact IH]).
  - destruct g; [|discriminate]. split; [by right|exact IH].
  - right. exact IH.
  - apply bool_decide_eq_true in He. by split.
  - split; [|exact IH]. by apply negb_true_iff.
Qed.

(** The handler of [r1], as long as its calls are harmless. *)
Lemma main_of_harmless r b fl l suffix :
  r_ID r = r1 ->
  Forall (fun e => harmless self r e = true) l ->
  main_ok self r1 b fl suffix ->
  main_ok self r1 b fl (map instr_of l ++ suffix).
Proof.
  intros Hr Hall Hsuffix. induction Hall as [|e l He Hall IH]; [done|].
  destruct e; cbn in He |- *; try (split; [discriminate|exact IH]).
  - destruct g; [|discriminate]. apply bool_decide_eq_true in He.
    split; [left; congruence|exact IH].
  - apply bool_decide_eq_true in He. by rewrite decide_False.
  - apply bool_decide_eq_true in He. by split.
  - split; [|exact IH]. apply negb_true_iff in He. congruence.
Qed.

(** The handler of [r1] once it holds the lock. *)
Lemma main_of_harmless_locked r fl l suffix :
  r_ID r = r1 ->
  Forall (fun e => harmless_locked r e = true) l ->
  main_ok self r1 true fl suffix ->
  main_ok self r1 true fl (map instr_of l ++ suffix).
Proof.
  intros Hr Hall Hsuffix. induction Hall as [|e l He Hall IH]; [done|].
  destruct e; cbn in He |- *; try (split; [done|exact IH]).
  - destruct g; [|discriminate]. apply bool_decide_eq_true in He.
    split; [left; congruence|exact IH].
  - apply bool_decide_eq_true in He. by rewrite decide_False.
  - apply bool_decide_eq_true in He. by split.
Qed.

End Invariant.

Lemma emits_clusterPut env self r :
  emits (fun e => harmless self r e = true) (clusterPut env r).
Proof.
  unfold clusterPut, clusterPutBootstrap, clusterPutJoin, patchLocalConfig,
    OperationCreate, check, orReturn.
  solve_emits.
Qed.

(** The handler of the leader's [PUT /1.0/cluster] is guarded while the
    handler of [r1] holds the lock. *)
Lemma callback_guarded self r1 env' r' d' :
  r_ID r' <> r1 -> log d' = [] ->
  guarded self r1 true
    (handler_thread r' true (log (clusterPut env' r' d').2)).
Proof.
  intros Hne Hlog. unfold handler_thread.
  destruct (emits_clusterPut env' self r' d') as (new & -> & Hall).
  rewrite Hlog, app_nil_r.
  apply (guarded_of_harmless self r1 r'); [done|by apply Forall_rev|].
  cbn. done.
Qed.

Section Steps.

Variables (self : string) (r1 : nat).

Lemma step_preserves s s' :
  step self s s' -> self_removal_inv self r1 s -> self_removal_inv self r1 s'.
Proof.
  intros Hstep (Hreq & Hfl & HA).
  destruct (decide (r1 ∈ finished s)) as [Hfin|Hnfin].
  { eapply inv_done; eauto. }
  destruct (HA Hnfin) as
    (Hrs & b & fl & main & others & Hth & Hmain & Hheld & Hflushed & Hothers).
  clear HA Hfl.
  assert (Hother : forall j t, others !! j = Some t -> guarded self r1 b t)
    by (intros j t Hj; eapply Forall_lookup_1; eauto).
  destruct Hstep as
    [s i e rest Hi | s i mu rest Hi Hfree | s i mu rest Hi | s i g rest Hi
    | s i r rest Hi Hdone | s i r rest Hi | s i r rest Hi | s i rest Hi
    | s i e rest env' r' d' Hi Hfwd Hfresh Hlog];
    rewrite Hth in Hi; destruct i as [|j]; cbn in Hi;
    try (injection Hi as ->; cbn in Hmain);
    try (pose proof (Hother _ _ Hi) as Hg; cbn in Hg;
         pose proof (lookup_lt_Some _ _ _ Hi) as Hj);
    rewrite ?Hth; cbn [insert list_insert].
  - (* call, handler *)
    destruct Hmain as [_ Hmain].
    by apply (inv_intro self r1 _ b fl rest others).
  - (* call, other *)
    destruct Hg as [_ Hg].
    apply (inv_intro self r1 _ b fl main (<[j := rest]> others)); try done.
    by apply Forall_insert.
  - (* lock, handler *)
    destruct (decide (mu = clusterPutDisableMu)) as [->|Hmu].
    + destruct Hmain as [-> Hmain].
      apply (inv_intro self r1 _ true fl rest others); try done.
      * intros _. cbn. by left.
      * eapply Forall_impl; [exact Hothers|]. apply guarded_mono.
    + apply (inv_intro self r1 _ b fl rest others); try done.
      intros Hb. cbn. right. by apply Hheld.
  - (* lock, other *)
    destruct Hg as [[-> ->]|Hg]; [by destruct Hfree; apply Hheld|].
    apply (inv_intro self r1 _ b fl main (<[j := rest]> others)); try done.
    + intros Hb. cbn. right. by apply Hheld.
    + by apply Forall_insert.
  - (* unlock, handler *)
    destruct Hmain as [Hmu Hmain].
    apply (inv_intro self r1 _ b fl rest others); try done.
    intros Hb. cbn. apply held_after_unlock; auto.
  - (* unlock, other *)
    destruct Hg as [Hmu Hg].
    apply (inv_intro self r1 _ b fl main (<[j := rest]> others)); try done.
    + intros Hb. cbn. apply held_after_unlock; auto.
    + by apply Forall_insert.
  - (* go, handler *)
    destruct Hmain as [Hgo Hmain].
    apply (inv_intro self r1 _ b fl rest (others ++ [goroutine g])); try done.
    apply Forall_app. split; [done|]. apply Forall_singleton.
    apply go_ok_guarded. destruct b; [by apply go_ok_mono|done].
  - (* go, other *)
    destruct Hg as [Hgo Hg].
    apply (inv_intro self r1 _ b fl main
             (<[j := rest]> others ++ [goroutine g])); try done.
    apply Forall_app. split; [by apply Forall_insert|].
    apply Forall_singleton. by apply go_ok_guarded.
  - (* wait, handler *)
    done.
  - (* wait, other *)
    destruct Hg as [->|Hg]; [done|].
    apply (inv_intro self r1 _ b fl main (<[j := rest]> others)); try done.
    by apply Forall_insert.
  - (* flush, handler *)
    destruct Hmain as [-> Hmain].
    apply (inv_intro self r1 _ b true rest others); try done.
    intros _. cbn. by left.
  - (* flush, other *)
    apply (inv_intro self r1 _ b fl main (<[j := rest]> others)); try done.
    + intros Hf. cbn. right. by apply Hflushed.
    + by apply Forall_insert.
  - (* done, handler *)
    destruct Hmain as [-> ->].
    split; [done|]. split; [intros _; by apply Hflushed|].
    intros Hn. destruct Hn. cbn. by left.
  - (* done, other *)
    destruct Hg as [Hr Hg].
    apply (inv_intro self r1 _ b fl main (<[j := rest]> others)); try done.
    + cbn. intros [?|?]%elem_of_cons; [congruence|done].
    + by apply Forall_insert.
  - (* restart, handler *)
    done.
  - (* restart, other *)
    done.
  - (* the leader calls back while the handler forwards *)
    destruct Hmain as [Hb Hmain]. specialize (Hb Hfwd). subst b.
    assert (r_ID r' <> r1) by (intros Heq; by rewrite Heq in Hfresh).
    apply (inv_intro self r1 _ true fl (ICall e :: rest)
             (others ++ [handler_thread r' true
                           (log (clusterPut env' r' d').2)])); try done.
    all: try (cbn; by right).
    all: try (cbn; split; [done|exact Hmain]).
    apply Forall_app. split; [done|]. apply Forall_singleton.
    by apply callback_guarded.
  - (* the leader calls back while another goroutine forwards *)
    destruct Hg as [Hnf _]. congruence.
Qed.

Lemma reachable_inv s s' :
  rtc (step self) s s' ->
  self_removal_inv self r1 s -> self_removal_inv self r1 s'.
Proof.
  induction 1 as [|s1 s2 s3 Hstep _ IH]; [done|].
  intros Hinv. apply IH. by apply (step_preserves s1).
Qed.

End Steps.

Section Shape.

Variables (env : Env) (self : string) (r : Request).

Lemma harmless_since_refl l0 : harmless_since self r l0 l0.
Proof. by exists []. Qed.

Lemma harmless_since_cons l0 l e :
  harmless self r e = true ->
  harmless_since self r l0 l -> harmless_since self r l0 (e :: l).
Proof.
  intros He (new & -> & Hall). exists (e :: new). split; [done|].
  by constructor.
Qed.

Lemma harmless_since_app l0 l more :
  Forall (fun e => harmless self r e = true) more ->
  harmless_since self r l0 l -> harmless_since self r l0 (more ++ l).
Proof.
  intros Hmore (new & -> & Hall). exists (more ++ new).
  rewrite app_assoc. split; [done|]. by apply Forall_app.
Qed.

Lemma locked_since_intro l0 l :
  harmless_since self r l0 l ->
  locked_since self r l0
    (EvGo (GoUnlockAfter r) :: EvLock clusterPutDisableMu :: l).
Proof. intros (new & -> & Hall). by exists new, []. Qed.

Lemma locked_since_cons l0 l e :
  harmless_locked r e = true ->
  locked_since self r l0 l -> locked_since self r l0 (e :: l).
Proof.
  intros He (pre & post & -> & Hpre & Hpost). exists pre, (e :: post).
  split; [done|]. split; [done|]. by constructor.
Qed.

Ltac harmless_so_far :=
  repeat (apply harmless_since_cons; [reflexivity|]);
  apply harmless_since_refl.

(** The calls of [clusterNodeDelete] on member [self]: harmless
    throughout, or harmless up to the point where the self-removal lock is
    taken, which is before the removal is forwarded. *)
Lemma clusterNodeDelete_shape fuel d :
  (forall l info,
     GetNodeByAddress env (config_ClusterAddress (localConfig d)) l =
       inr info -> node_Name info = self) ->
  harmless_since self r (log d) (log (clusterNodeDelete env fuel r d).2) \/
  locked_since self r (log d) (log (clusterNodeDelete env fuel r d).2).
Proof.
  intros Hself.
  unfold clusterNodeDelete. cbn.
  destruct (PathUnescape env _) as [err|name]; cbn;
    [left; harmless_so_far|].
  destruct (LeaderAddress env _) as [err|leader]; cbn;
    [left; harmless_so_far|].
  destruct (txBegin env ClusterDB _); cbn; [left; harmless_so_far|].
  destruct (GetNodeByAddress env (config_ClusterAddress _) _)
    as [err|localInfo] eqn:Hli; cbn; [left; harmless_so_far|].
  apply Hself in Hli.
  match goal with
  | |- context [GetNodeByAddress env leader ?l] =>
      destruct (GetNodeByAddress env leader l) as [err|leaderInfo]
  end; cbn; [left; harmless_so_far|].
  destruct (txCommit env ClusterDB _); cbn; [left; harmless_so_far|].
  destruct (txBegin env NodeDB _); cbn; [left; harmless_so_far|].
  destruct (GetRaftNodes env _) as [err|nodes]; cbn;
    [left; harmless_so_far|].
  destruct (txCommit env NodeDB _); cbn; [left; harmless_so_far|].
  destruct (String.eqb (config_ClusterAddress (localConfig d)) leader);
    cbn -[bind locked].
  - (* on the leader *)
    left.
    match goal with
    | |- context [log (snd (locked ?mu ?m ?dd))] =>
        let H := fresh in
        assert (H : emits (fun e => harmless self r e = true) (locked mu m))
          by (unfold locked, check, orReturn; solve_emits);
        destruct (H dd) as (more & -> & Hmore)
    end.
    apply harmless_since_app; [done|]. cbn. harmless_so_far.
  - (* on another member *)
    cbn.
    destruct (String.eqb_spec (node_Name localInfo) name) as [Heq|Hne]; cbn.
    + right.
      destruct (Connect env leader false _); cbn;
        [repeat (apply locked_since_cons; [reflexivity|]);
         apply locked_since_intro; harmless_so_far|].
      destruct (DeleteClusterMember env leader name _ _ _); cbn;
        [repeat (apply locked_since_cons; [reflexivity|]);
         apply locked_since_intro; harmless_so_far|].
      destruct (_ && _); cbn; [destruct (WaitLeadership env _); cbn|];
        repeat (apply locked_since_cons; [reflexivity|]);
        apply locked_since_intro; harmless_so_far.
    + left.
      assert (Hfw : forall f p res,
                harmless self r (EvDeleteClusterMember leader name f p res)
                  = true).
      { intros f p res. cbn. apply negb_true_iff, String.eqb_neq. congruence. }
      destruct (Connect env leader false _); cbn; [harmless_so_far|].
      destruct (DeleteClusterMember env leader name _ _ _); cbn;
        [apply harmless_since_cons; [apply Hfw|]; harmless_so_far|].
      destruct (_ && _); cbn; [destruct (WaitLeadership env _); cbn|];
        repeat (apply harmless_since_cons; [first [apply Hfw|reflexivity]|]);
        apply harmless_since_refl.
Qed.

End Shape.

Lemma delete_arrives_inv env fuel r d self :
  log d = [] ->
  (forall l info,
     GetNodeByAddress env (config_ClusterAddress (localConfig d)) l =
       inr info -> node_Name info = self) ->
  self_removal_inv self (r_ID r) (delete_arrives env fuel r d).
Proof.
  intros Hlog Hself. unfold delete_arrives.
  apply (inv_intro self (r_ID r) _ false false
           (handler_thread r
              (bool_decide (is_Some (clusterNodeDelete env fuel r d).1))
              (log (clusterNodeDelete env fuel r d).2)) []);
    cbn [threads held finished flushed requests restarted];
    try done; [by left|by apply not_elem_of_nil|].
  unfold handler_thread.
  set (suffix := if bool_decide _ then _ else _).
  assert (Hsuffix : forall b, main_ok self (r_ID r) b false suffix).
  { intros b. unfold suffix. by destruct (bool_decide _). }
  destruct (clusterNodeDelete_shape env self r fuel d Hself)
    as [(new & -> & Hall)|(pre & post & -> & Hpre & Hpost)];
    rewrite Hlog, ?app_nil_r.
  - apply (main_of_harmless self (r_ID r) r); [done|by apply Forall_rev|done].
  - rewrite rev_app_distr, rev_app_distr, map_app, map_app. cbn.
    rewrite <- !app_assoc. cbn.
    apply (main_of_harmless self (r_ID r) r); [done|by apply Forall_rev|].
    cbn. split; [done|]. split; [done|].
    apply (main_of_harmless_locked self (r_ID r) r);
      [done|by apply Forall_rev|done].
Qed.

Lemma act_sound self a s s' : act self a s = Some s' -> step self s s'.
Proof.
  destruct a as [i|i env' r' d']; cbn.
  - destruct (threads s !! i) as [[|instr rest]|] eqn:Hi; try discriminate.
    destruct instr; try (intros [= <-]; econstructor; eassumption).
    + destruct (decide (mu ∈ held s)); [discriminate|].
      intros [= <-]. by apply (step_lock self s i mu rest).
    + destruct (decide (r ∈ finished s)); [|discriminate].
      intros [= <-]. by apply (step_wait self s i r rest).
  - destruct (threads s !! i) as [[|[] rest]|] eqn:Hi; try discriminate.
    destruct (log d') eqn:Hlog; [|discriminate].
    destruct (is_forward self e) eqn:Hfwd; [|discriminate].
    destruct (bool_decide _) eqn:Hfresh; [|discriminate].
    apply bool_decide_eq_true in Hfresh.
    intros [= <-]. by eapply step_callback.
Qed.

Lemma schedule_sound self acts s s' :
  schedule self acts s = Some s' -> rtc (step self) s s'.
Proof.
  revert s. induction acts as [|a acts IH]; intros s; cbn.
  - by intros [= <-].
  - destruct (act self a s) as [s1|] eqn:Ha; [|discriminate].
    intros Hrest. eapply rtc_l; [by eapply act_sound|by apply IH].
Qed.

Lemma harmless_not_forward self r e :
  harmless self r e = true -> is_forward self e = false.
Proof. destruct e; cbn; try done. by intros ->%negb_true_iff. Qed.

Lemma each_after_locked_first self r l :
  harmless_since self r [] l \/ locked_since self r [] l ->
  each_after (locked_first self) l.
Proof.
  intros [(new & -> & Hall)|(pre & post & -> & Hpre & Hpost)] i e Hi Hfwd.
  - rewrite app_nil_r in Hi. apply list_elem_of_lookup_2 in Hi.
    rewrite Forall_forall in Hall.
    apply Hall, harmless_not_forward in Hi. congruence.
  - rewrite app_nil_r in *.
    destruct (decide (i < length post)%nat) as [Hlt|Hge].
    + rewrite drop_app_le by lia. apply elem_of_app. right.
      apply elem_of_cons. right. by left.
    + rewrite lookup_app_r in Hi by lia.
      destruct (i - length post)%nat as [|[|k]]; cbn in Hi.
      * by injection Hi as <-.
      * by injection Hi as <-.
      * apply list_elem_of_lookup_2 in Hi. rewrite Forall_forall in Hpre.
        apply Hpre, harmless_not_forward in Hi. congruence.
Qed.

(** C5: on a member whose name is [self], the handler of the removal
    forwards the removal of [self] to the leader only after it has taken
    the self-removal lock; and in every interleaving of that handler, the
    goroutine that releases the lock once the request is done, the handler
    of the leader's request to disable clustering, which may arrive while
    the removal is being forwarded, and the goroutine that restarts the
    daemon, the daemon is exited or replaced only after the response to
    the removal request has been flushed. *)
Theorem restart_after_response env fuel r d self :
  log d = [] ->
  (forall l info,
     GetNodeByAddress env (config_ClusterAddress (localConfig d)) l =
       inr info -> node_Name info = self) ->
  each_after (locked_first self) (log (clusterNodeDelete env fuel r d).2) /\
  (forall s,
     rtc (step self) (delete_arrives env fuel r d) s ->
     restarted s = true ->
     r_ID r ∈ flushed s).
Proof.
  intros Hlog Hself. split.
  - apply (each_after_locked_first self r). rewrite <- Hlog.
    by apply clusterNodeDelete_shape.
  - intros s Hreach Hrestarted.
    destruct (reachable_inv self (r_ID r) _ _ Hreach
                (delete_arrives_inv env fuel r d self Hlog Hself))
      as (_ & Hfl & HA).
    destruct (decide (r_ID r ∈ finished s)) as [Hfin|Hnfin]; [by apply Hfl|].
    destruct (HA Hnfin) as [Hrs _]. congruence.
Qed.

Lemma restart_after_response_witness :
  exists s,
    rtc (step "n2") (delete_arrives (scenarioEnv quiet) 3 delete_n2 daemon_n2) s
    /\ restarted s = true /\ 1%nat ∈ flushed s.
Proof.
  destruct (schedule "n2" self_removal_run
              (delete_arrives (scenarioEnv quiet) 3 delete_n2 daemon_n2))
    as [s|] eqn:Hrun; [|vm_compute in Hrun; discriminate].
  pose proof (schedule_sound _ _ _ _ Hrun) as Hreach.
  assert (Hrs : restarted s = true)
    by (vm_compute in Hrun; injection Hrun as <-; reflexivity).
  exists s. split; [exact Hreach|]. split; [exact Hrs|].
  refine (proj2 (restart_after_response (scenarioEnv quiet) 3 delete_n2
                   daemon_n2 "n2" eq_refl _) s Hreach Hrs).
  intros l info [= <-]. reflexivity.
Defined.

(** * Theorems on the rest of the cluster API *)

(** ** [clusterRolesChanged] *)

Lemma knownExternalRole_elem r roles :
  knownExternalRole r roles = true <-> r ∈ roles.
Proof.
  induction roles as [|x roles IH]; cbn.
  - split; [discriminate | intros H; inversion H].
  - destruct (String.eqb_spec r x) as [-> | Hne].
    + split; [intros _; left | reflexivity].
    + rewrite IH. split; [right; assumption |].
      intros H. inversion H; subst; [congruence | assumption].
Qed.

Lemma externalOnly_elem ClusterRoles newRoles acc r :
  r ∈ externalOnly ClusterRoles newRoles acc <->
  r ∈ acc \/ (r ∈ newRoles /\ r ∈ ClusterRoles).
Proof.
  revert acc. induction newRoles as [|x rest IH]; intros acc; cbn.
  - split; [auto | intros [H | [H _]]; [assumption | inversion H]].
  - destruct (knownExternalRole x ClusterRoles) eqn:Hk.
    + apply knownExternalRole_elem in Hk. rewrite IH. set_solver.
    + assert (x ∉ ClusterRoles) as Hn.
      { intros H. apply knownExternalRole_elem in H. congruence. }
      rewrite IH. set_solver.
Qed.

Lemma missingFrom_false RoleInSlice roles within :
  (forall r l, RoleInSlice r l = true <-> r ∈ l) ->
  missingFrom RoleInSlice roles within = false <->
  forall r, r ∈ roles -> r ∈ within.
Proof.
  intros Hspec. induction roles as [|x rest IH]; cbn.
  - split; [intros _ r H; inversion H | reflexivity].
  - destruct (RoleInSlice x within) eqn:Hx; cbn.
    + apply Hspec in Hx. rewrite IH. set_solver.
    + split; [discriminate |]. intros H.
      assert (RoleInSlice x within = true) by (apply Hspec, H; left).
      congruence.
Qed.

Lemma clusterRolesChanged_unchanged ClusterRoles RoleInSlice oldRoles newRoles :
  (forall r l, RoleInSlice r l = true <-> r ∈ l) ->
  clusterRolesChanged ClusterRoles RoleInSlice oldRoles newRoles = false <->
  forall r, r ∈ oldRoles <-> (r ∈ newRoles /\ r ∈ ClusterRoles).
Proof.
  intros Hspec. unfold clusterRolesChanged.
  destruct (missingFrom RoleInSlice oldRoles _) eqn:H1.
  - split; [discriminate |]. intros H. exfalso.
    assert (missingFrom RoleInSlice oldRoles
              (externalOnly ClusterRoles newRoles []) = false) as H2.
    { apply missingFrom_false; [assumption |]. intros r Hr.
      apply externalOnly_elem. right. apply H, Hr. }
    congruence.
  - rewrite (missingFrom_false _ _ _ Hspec) in H1.
    destruct (missingFrom RoleInSlice (externalOnly _ _ _) oldRoles) eqn:H2.
    + split; [discriminate |]. intros H. exfalso.
      assert (missingFrom RoleInSlice (externalOnly ClusterRoles newRoles [])
                oldRoles = false) as H3.
      { apply missingFrom_false; [assumption |]. intros r Hr.
        apply externalOnly_elem in Hr as [Hr | Hr]; [inversion Hr |].
        apply H, Hr. }
      congruence.
    + rewrite (missingFrom_false _ _ _ Hspec) in H2.
      split; [intros _ r | reflexivity]. split.
      * intros Hr. apply H1, externalOnly_elem in Hr as [Hr | Hr];
          [inversion Hr | assumption].
      * intros Hr. apply H2, externalOnly_elem. right. assumption.
Qed.

(** X1: [clusterRolesChanged] reports no change exactly when the old
    roles and the new roles that are known external roles are the same
    set; order, duplicates and the internal roles of the new list are
    ignored. *)
Theorem clusterRolesChanged_false_iff ClusterRoles RoleInSlice oldRoles newRoles :
  (forall r l, RoleInSlice r l = true <-> r ∈ l) ->
  clusterRolesChanged ClusterRoles RoleInSlice oldRoles newRoles = false <->
  forall r, r ∈ oldRoles <-> (r ∈ newRoles /\ r ∈ ClusterRoles).
Proof. apply clusterRolesChanged_unchanged. Qed.

Lemma clusterRolesChanged_false_iff_witness :
  clusterRolesChanged ["event-hub"; "ovn-chassis"]
    (fun r l => bool_decide (r ∈ l))
    ["ovn-chassis"; "event-hub"] ["event-hub"; "database"; "ovn-chassis"]
  = false.
Proof.
  apply (clusterRolesChanged_false_iff ["event-hub"; "ovn-chassis"]
           (fun r l => bool_decide (r ∈ l))).
  - intros r l. apply bool_decide_eq_true.
  - intros r. set_solver.
Defined.

(** ** [clusterValidateConfig] *)

Lemma clusterValidateConfig_None Optional IsOneOf Quote config :
  (forall f v, Optional f v = None <-> v = "" \/ f v = None) ->
  (forall l v, IsOneOf l v = None <-> v ∈ l) ->
  clusterValidateConfig Optional IsOneOf Quote config = None <->
  Forall (fun kv => valid_member_config kv.1 kv.2) config.
Proof.
  intros HOpt HOne. induction config as [|[k v] rest IH]; cbn.
  - split; [constructor | reflexivity].
  - rewrite Forall_cons. cbn. unfold valid_member_config at 1.
    destruct (String.prefix "user." k) eqn:Hp.
    { rewrite IH. tauto. }
    unfold clusterConfigKeys.
    destruct (decide (k = "scheduler.instance")) as [-> | Hne].
    + rewrite lookup_singleton_eq.
      destruct (Optional _ v) eqn:Hv.
      * split; [discriminate |]. intros [[? | [_ Hin]] _]; [discriminate |].
        assert (Optional (IsOneOf ["all"; "group"; "manual"]) v = None) as Hn.
        { apply HOpt. rewrite HOne. set_solver. }
        congruence.
      * rewrite IH. apply HOpt in Hv. rewrite HOne in Hv. set_solver.
    + rewrite lookup_singleton_ne by congruence.
      split; [discriminate |]. intros [[? | [? _]] _]; congruence.
Qed.

(** X2: whatever the order in which the map is ranged over,
    [clusterValidateConfig] accepts a configuration exactly when every key
    starts with [user.] or is [scheduler.instance] with a value that is
    empty or one of all, group, manual. *)
Theorem clusterValidateConfig_accepts Optional IsOneOf Quote
    (m : gmap string string) (config : list (string * string)) :
  (forall f v, Optional f v = None <-> v = "" \/ f v = None) ->
  (forall l v, IsOneOf l v = None <-> v ∈ l) ->
  config ≡ₚ map_to_list m ->
  clusterValidateConfig Optional IsOneOf Quote config = None <->
  map_Forall valid_member_config m.
Proof.
  intros HOpt HOne Hperm.
  rewrite (clusterValidateConfig_None _ _ _ _ HOpt HOne).
  rewrite Hperm, map_Forall_to_list. unfold uncurry.
  split; intros H; (eapply Forall_impl; [exact H |]); intros [k v]; auto.
Qed.

Lemma clusterValidateConfig_accepts_witness :
  clusterValidateConfig
    (fun f v => if String.eqb v "" then None else f v)
    (fun l v => if bool_decide (v ∈ l) then None else Some "not one of")
    (fun k => k)
    [("user.rack", "3"); ("scheduler.instance", "manual")] = None.
Proof.
  apply (clusterValidateConfig_accepts _ _ _
           {["user.rack" := "3"; "scheduler.instance" := "manual"]}).
  - intros f v. destruct (String.eqb_spec v ""); split; intros Hv;
      try tauto; try (destruct Hv; [congruence | assumption]).
  - intros l v. case_bool_decide; split; intros Hv;
      try reflexivity; try assumption; try discriminate; contradiction.
  - apply (bool_decide_unpack _). vm_compute. exact I.
  - apply map_Forall_insert_2; [left; reflexivity |].
    apply map_Forall_singleton. right. split; [reflexivity | set_solver].
Defined.

(** ** The order of Go strings *)

Lemma string_compare_refl s : String.compare s s = Eq.
Proof.
  pose proof (String.compare_antisym s s) as H.
  destruct (String.compare s s); [reflexivity | discriminate..].
Qed.

Lemma ascii_compare_refl a : Ascii.compare a a = Eq.
Proof. unfold Ascii.compare. apply N.compare_refl. Qed.

Lemma ascii_compare_lt_trans a b c :
  Ascii.compare a b = Lt -> Ascii.compare b c = Lt -> Ascii.compare a c = Lt.
Proof.
  unfold Ascii.compare. rewrite !N.compare_lt_iff. intros. etransitivity; eassumption.
Qed.

Lemma string_compare_lt_trans s1 s2 s3 :
  String.compare s1 s2 = Lt -> String.compare s2 s3 = Lt ->
  String.compare s1 s3 = Lt.
Proof.
  revert s2 s3. induction s1 as [|a s1 IH]; intros [|b s2] [|c s3]; cbn;
    try discriminate; try reflexivity.
  destruct (Ascii.compare a b) eqn:Hab; try discriminate.
  - apply Ascii.compare_eq_iff in Hab as ->.
    destruct (Ascii.compare b c) eqn:Hbc; try discriminate; [| reflexivity].
    apply IH.
  - intros _. destruct (Ascii.compare b c) eqn:Hbc; try discriminate.
    + apply Ascii.compare_eq_iff in Hbc as <-. rewrite Hab. reflexivity.
    + intros _. rewrite (ascii_compare_lt_trans a b c Hab Hbc). reflexivity.
Qed.

Lemma string_lt_irrefl s : string_lt s s = false.
Proof. unfold string_lt, String.ltb. rewrite string_compare_refl. reflexivity. Qed.

Lemma string_lt_trans s1 s2 s3 :
  string_lt s1 s2 = true -> string_lt s2 s3 = true -> string_lt s1 s3 = true.
Proof.
  unfold string_lt, String.ltb. intros H1 H2.
  destruct (String.compare s1 s2) eqn:E1; try discriminate.
  destruct (String.compare s2 s3) eqn:E2; try discriminate.
  rewrite (string_compare_lt_trans _ _ _ E1 E2). reflexivity.
Qed.

Lemma string_lt_asym s1 s2 :
  string_lt s1 s2 = true -> string_lt s2 s1 = false.
Proof.
  unfold string_lt, String.ltb. rewrite (String.compare_antisym s2 s1).
  destruct (String.compare s1 s2); cbn; congruence.
Qed.

Lemma string_lt_total s1 s2 :
  string_lt s1 s2 = false -> string_lt s2 s1 = false -> s1 = s2.
Proof.
  unfold string_lt, String.ltb. rewrite (String.compare_antisym s2 s1).
  destruct (String.compare s1 s2) eqn:E; cbn; try discriminate.
  intros _ _. apply String.compare_eq_iff, E.
Qed.

(** ** [GET /1.0/cluster] *)

Lemma memberConfigLess_lex a b :
  memberConfigLess a b = lex_lt (compared a) (compared b).
Proof.
  assert (forall x y, (if negb (String.eqb x y) then string_lt x y else false)
                      = string_lt x y) as Hlast.
  { intros x y. destruct (String.eqb_spec x y) as [-> | ?]; cbn;
      [symmetry; apply string_lt_irrefl | reflexivity]. }
  unfold memberConfigLess, compared. cbn. rewrite Hlast. reflexivity.
Qed.

Lemma lex_lt_antisym l1 l2 :
  length l1 = length l2 ->
  lex_lt l1 l2 = false -> lex_lt l2 l1 = false -> l1 = l2.
Proof.
  revert l2. induction l1 as [|x xs IH]; intros [|y ys]; cbn;
    try discriminate; [reflexivity |].
  intros [= Hlen]. rewrite (String.eqb_sym y x).
  destruct (String.eqb_spec x y) as [-> | Hne]; cbn.
  - intros H1 H2. f_equal. apply IH; assumption.
  - intros H1 H2. destruct Hne. apply string_lt_total; assumption.
Qed.

Lemma lex_lt_le_trans l1 l2 l3 :
  length l1 = length l2 -> length l2 = length l3 ->
  lex_lt l2 l1 = false -> lex_lt l3 l2 = false -> lex_lt l3 l1 = false.
Proof.
  revert l2 l3. induction l1 as [|x xs IH]; intros [|y ys] [|z zs]; cbn;
    try discriminate; try reflexivity.
  intros [= H12] [= H23].
  destruct (String.eqb_spec y x) as [-> | Hyx]; cbn.
  - destruct (String.eqb_spec z x) as [-> | Hzx]; cbn; [| tauto].
    apply IH; assumption.
  - intros Hyx'. destruct (String.eqb_spec z y) as [-> | Hzy]; cbn.
    + intros _. destruct (String.eqb_spec y x); [contradiction | assumption].
    + intros Hzy'.
      assert (string_lt x y = true) as Hxy.
      { destruct (string_lt x y) eqn:E; [reflexivity |].
        destruct Hyx. symmetry. apply string_lt_total; assumption. }
      assert (string_lt y z = true) as Hyz.
      { destruct (string_lt y z) eqn:E; [reflexivity |].
        destruct Hzy. symmetry. apply string_lt_total; assumption. }
      pose proof (string_lt_trans _ _ _ Hxy Hyz) as Hxz.
      destruct (String.eqb_spec z x) as [-> | _]; cbn.
      * rewrite string_lt_irrefl in Hxz. discriminate.
      * apply string_lt_asym, Hxz.
Qed.

Lemma memberConfig_le_trans :
  Transitive (fun a b => memberConfigLess b a = false).
Proof.
  intros a b c. rewrite !memberConfigLess_lex. intros H1 H2.
  apply (lex_lt_le_trans _ (compared b)); auto.
Qed.

Lemma memberConfig_le_antisym a b :
  key_Value a = key_Value b ->
  memberConfigLess b a = false -> memberConfigLess a b = false -> a = b.
Proof.
  rewrite !memberConfigLess_lex. intros Hv H1 H2.
  pose proof (lex_lt_antisym (compared a) (compared b) eq_refl H2 H1) as H.
  destruct a, b. cbn in *. injection H as -> -> -> ->. congruence.
Qed.

Lemma poolConfigKeys_app prefix pool config keys :
  poolConfigKeys prefix pool config keys =
  (keys ++ omap (poolEntry prefix pool) config)%list.
Proof.
  revert keys. induction config as [|[key v] rest IH]; intros keys; cbn.
  - rewrite app_nil_r. reflexivity.
  - unfold poolEntry at 1. cbn.
    destruct (String.prefix prefix key); [apply IH |].
    rewrite IH, <- app_assoc. reflexivity.
Qed.

Lemma networkConfigKeys_app prefix network config keys :
  networkConfigKeys prefix network config keys =
  (keys ++ omap (networkEntry prefix network) config)%list.
Proof.
  revert keys. induction config as [|[key v] rest IH]; intros keys; cbn.
  - rewrite app_nil_r. reflexivity.
  - unfold networkEntry at 1. cbn.
    destruct (String.prefix prefix key); [apply IH |].
    rewrite IH, <- app_assoc. reflexivity.
Qed.

Lemma poolsKeys_app prefix rangeMap pools keys :
  poolsKeys prefix rangeMap pools keys =
  (keys ++ (pools ≫= fun pc => omap (poolEntry prefix pc.1)
                                 (rangeMap _ pc.2)))%list.
Proof.
  revert keys. induction pools as [|[pool config] rest IH]; intros keys; cbn.
  - rewrite app_nil_r. reflexivity.
  - rewrite IH, poolConfigKeys_app, <- app_assoc. reflexivity.
Qed.

Lemma networksKeys_app prefix rangeMap networks keys :
  networksKeys prefix rangeMap networks keys =
  (keys ++ (networks ≫= fun pc => omap (networkEntry prefix pc.1)
                                    (rangeMap _ pc.2)))%list.
Proof.
  revert keys. induction networks as [|[network config] rest IH];
    intros keys; cbn.
  - rewrite app_nil_r. reflexivity.
  - rewrite IH, networkConfigKeys_app, <- app_assoc. reflexivity.
Qed.

Lemma bind_Permutation_ext {A B} (f g : A -> list B) l1 l2 :
  (forall x, f x ≡ₚ g x) -> l1 ≡ₚ l2 -> l1 ≫= f ≡ₚ l2 ≫= g.
Proof.
  intros Hfg Hl. rewrite Hl. clear Hl l1.
  induction l2 as [|x l IH]; cbn; [reflexivity |].
  rewrite (Hfg x), IH. reflexivity.
Qed.

Lemma keys_canonical prefix rangeMap pools networks :
  ranges rangeMap ->
  networksKeys prefix rangeMap (rangeMap _ networks)
    (poolsKeys prefix rangeMap (rangeMap _ pools) [])
  ≡ₚ canonicalKeys prefix pools networks.
Proof.
  intros Hr. rewrite networksKeys_app, poolsKeys_app. cbn.
  unfold canonicalKeys. apply Permutation_app.
  - apply bind_Permutation_ext; [| apply Hr].
    intros [pool config]. cbn. rewrite (Hr _ config). reflexivity.
  - apply bind_Permutation_ext; [| apply Hr].
    intros [network config]. cbn. rewrite (Hr _ config). reflexivity.
Qed.

Lemma canonicalKeys_elem prefix pools networks k :
  k ∈ canonicalKeys prefix pools networks <->
  (exists pool key, listed prefix pools pool key /\ k = storagePoolKey pool key) \/
  (exists network key, listed prefix networks network key /\
                       k = networkKey network key).
Proof.
  unfold canonicalKeys, listed. rewrite elem_of_app, !list_elem_of_bind.
  split.
  - intros [[[pool config] [Hk Hin]] | [[network config] [Hk Hin]]];
      [left | right]; cbn in Hk;
      apply list_elem_of_omap in Hk as [[key v] [Hkv Hk]];
      apply elem_of_map_to_list in Hin, Hkv;
      [unfold poolEntry in Hk | unfold networkEntry in Hk]; cbn in Hk;
      destruct (String.prefix prefix key) eqn:Hp; try discriminate;
      injection Hk as <-; eauto 10.
  - intros [(pool & key & (config & Hc & [v Hv] & Hp) & ->)
           | (network & key & (config & Hc & [v Hv] & Hp) & ->)];
      [left; exists (pool, config) | right; exists (network, config)];
      (split; [| apply elem_of_map_to_list, Hc]); cbn;
      apply list_elem_of_omap; exists (key, v);
      (split; [apply elem_of_map_to_list, Hv |]);
      [unfold poolEntry | unfold networkEntry]; cbn; rewrite Hp; reflexivity.
Qed.

Lemma canonicalKeys_Value prefix pools networks k :
  k ∈ canonicalKeys prefix pools networks -> key_Value k = "".
Proof.
  rewrite canonicalKeys_elem.
  intros [(? & ? & _ & ->) | (? & ? & _ & ->)]; reflexivity.
Qed.

Ltac run_prog :=
  unfold por, pcheck, transaction, pbind, ask, tell, pret; cbn.

Ltac prog_case :=
  match goal with
  | |- context [match ?x with _ => _ end] =>
      lazymatch x with
      | context [match _ with _ => _ end] => fail
      | _ => destruct x eqn:?
      end
  end.

(** X3: when [clusterGetMemberConfig] succeeds it has read the two maps
    inside one committed transaction, and it lists exactly one kind of key:
    for every storage pool and every network, the configuration keys that
    do not start with the volatile prefix. *)
Theorem clusterGetMemberConfig_lists prefix rangeMap txBegin txCommit
    GetPools GetNetworks l keys l' :
  ranges rangeMap ->
  clusterGetMemberConfig prefix rangeMap txBegin txCommit GetPools GetNetworks l
    = (inr keys, l') ->
  exists pools networks,
    l' = McTxCommit None :: McGetNetworksLocalConfig (inr networks)
         :: McGetStoragePoolsLocalConfig (inr pools) :: McTxBegin None :: l /\
    forall k, k ∈ keys <->
      (exists pool key, listed prefix pools pool key /\
                        k = storagePoolKey pool key) \/
      (exists network key, listed prefix networks network key /\
                           k = networkKey network key).
Proof.
  intros Hr. unfold clusterGetMemberConfig. run_prog.
  repeat (prog_case; cbn); try discriminate.
  intros [= <- <-]. eexists _, _. split; [reflexivity |].
  intros k. rewrite (keys_canonical prefix rangeMap _ _ Hr).
  apply canonicalKeys_elem.
Qed.

Lemma memberConfigLess_asym a b :
  memberConfigLess a b = true -> memberConfigLess b a = false.
Proof.
  rewrite !memberConfigLess_lex. generalize (compared a) (compared b).
  intros l1. induction l1 as [|x xs IH]; intros [|y ys]; cbn;
    try discriminate; try reflexivity.
  rewrite (String.eqb_sym y x).
  destruct (String.eqb_spec x y) as [-> | Hne]; cbn;
    [apply IH | apply string_lt_asym].
Qed.

Lemma sorted_keys_unique prefix range1 range2 sort1 sort2 pools networks :
  ranges range1 -> ranges range2 ->
  sorts memberConfigLess sort1 -> sorts memberConfigLess sort2 ->
  sort1 memberConfigLess
    (networksKeys prefix range1 (range1 _ networks)
       (poolsKeys prefix range1 (range1 _ pools) []))
  = sort2 memberConfigLess
      (networksKeys prefix range2 (range2 _ networks)
         (poolsKeys prefix range2 (range2 _ pools) [])).
Proof.
  intros Hr1 Hr2 Hs1 Hs2.
  match goal with
  | |- sort1 _ ?k1 = sort2 _ ?k2 =>
      destruct (Hs1 k1) as [Hp1 Hsorted1]; destruct (Hs2 k2) as [Hp2 Hsorted2]
  end.
  apply (@Sorted_unique_strong _ _ memberConfig_le_trans);
    [| exact Hsorted1 | exact Hsorted2 |].
  - intros x1 x2 Hx1 Hx2. rewrite Hp1, (keys_canonical _ _ _ _ Hr1) in Hx1.
    rewrite Hp2, (keys_canonical _ _ _ _ Hr2) in Hx2.
    intros H1 H2. apply memberConfig_le_antisym; try assumption.
    rewrite (canonicalKeys_Value _ _ _ _ Hx1), (canonicalKeys_Value _ _ _ _ Hx2).
    reflexivity.
  - rewrite Hp1, Hp2, (keys_canonical _ _ _ _ Hr1), (keys_canonical _ _ _ _ Hr2).
    reflexivity.
Qed.

(** X4: the answer of [GET /1.0/cluster] does not depend on the order in
    which the runtime ranges over the configuration maps, nor on how
    [sort.Slice] breaks ties: the member configuration keys come out in
    one order, fixed by entity, name, key and description. *)
Theorem clusterGet_order_independent prefix range1 range2 sort1 sort2
    txBegin txCommit GetPools GetNetworks serverName l :
  ranges range1 -> ranges range2 ->
  sorts memberConfigLess sort1 -> sorts memberConfigLess sort2 ->
  clusterGet prefix range1 sort1 txBegin txCommit GetPools GetNetworks
    serverName l
  = clusterGet prefix range2 sort2 txBegin txCommit GetPools GetNetworks
      serverName l.
Proof.
  intros Hr1 Hr2 Hs1 Hs2. unfold clusterGet, clusterGetMemberConfig. run_prog.
  repeat (prog_case; cbn); try reflexivity.
  all: do 3 f_equal; apply sorted_keys_unique; assumption.
Qed.

Lemma ranges_forward : ranges range_forward.
Proof. intros V m. reflexivity. Qed.

Lemma ranges_backward : ranges range_backward.
Proof. intros V m. apply reverse_Permutation. Qed.

Lemma memberConfig_le_total :
  Total (fun a b => memberConfigLess b a = false).
Proof.
  intros a b. destruct (memberConfigLess b a) eqn:E; [right | left; reflexivity].
  apply memberConfigLess_asym, E.
Qed.

Lemma sorts_merge : sorts memberConfigLess sort_merge.
Proof.
  intros l. split; [apply merge_sort_Permutation |].
  apply (@Sorted_merge_sort _ _ _ memberConfig_le_total).
Qed.

Lemma sorts_merge_reversed : sorts memberConfigLess sort_merge_reversed.
Proof.
  intros l. unfold sort_merge_reversed. split.
  - rewrite merge_sort_Permutation. apply reverse_Permutation.
  - apply (@Sorted_merge_sort _ _ _ memberConfig_le_total).
Qed.

Lemma clusterGetMemberConfig_lists_witness :
  exists pools networks,
    [McTxCommit None; McGetNetworksLocalConfig (inr local_networks);
     McGetStoragePoolsLocalConfig (inr local_pools); McTxBegin None]
    = McTxCommit None :: McGetNetworksLocalConfig (inr networks)
      :: McGetStoragePoolsLocalConfig (inr pools) :: McTxBegin None :: [] /\
    forall k,
      k ∈ [storagePoolKey "local" "source"; storagePoolKey "local" "size";
           networkKey "br0" "bridge.external_interfaces"] <->
      (exists pool key, listed "volatile." pools pool key /\
                        k = storagePoolKey pool key) \/
      (exists network key, listed "volatile." networks network key /\
                           k = networkKey network key).
Proof.
  apply (clusterGetMemberConfig_lists "volatile." range_forward
           (fun _ => None) (fun _ => None)
           (fun _ => inr local_pools) (fun _ => inr local_networks) []).
  - apply ranges_forward.
  - vm_compute. reflexivity.
Defined.

Lemma clusterGet_order_independent_witness :
  clusterGet "volatile." range_forward sort_merge
    (fun _ => None) (fun _ => None)
    (fun _ => inr local_pools) (fun _ => inr local_networks) "none" []
  = clusterGet "volatile." range_backward sort_merge_reversed
      (fun _ => None) (fun _ => None)
      (fun _ => inr local_pools) (fun _ => inr local_networks) "none" [].
Proof.
  apply clusterGet_order_independent.
  - apply ranges_forward.
  - apply ranges_backward.
  - apply sorts_merge.
  - apply sorts_merge_reversed.
Defined.

(** ** The handlers of [/1.0/cluster/members] other than removal *)

Lemma since_refl {E} (l : list E) : since l l [].
Proof. reflexivity. Qed.

Lemma since_cons {E} (l l' new : list E) e :
  since l l' new -> since l (e :: l') (e :: new).
Proof. unfold since. intros ->. reflexivity. Qed.

Lemma since_trans {E} (l1 l2 l3 new1 new2 : list E) :
  since l1 l2 new1 -> since l2 l3 new2 -> since l1 l3 (new2 ++ new1).
Proof. unfold since. intros -> ->. rewrite app_assoc. reflexivity. Qed.

Lemma since_app {E} (l l' new pre : list E) :
  since l l' new -> since l (pre ++ l') (pre ++ new).
Proof. unfold since. intros ->. rewrite app_assoc. reflexivity. Qed.

Ltac solve_since :=
  repeat first [ apply since_refl | apply since_cons | apply since_app
               | eassumption ].

Ltac elem_cases H :=
  repeat (apply elem_of_cons in H as [H | H]; [try discriminate H |]);
  try (apply elem_of_nil in H; contradiction).

Section MembersTheorems.

Import Members.

Lemma populate_union current config :
  NoDup current.*1 ->
  populate current config = config ∪ list_to_map current.
Proof.
  revert config. induction current as [|[k v] rest IH]; intros config Hnd; cbn.
  - rewrite (right_id_L ∅ (∪)). reflexivity.
  - apply NoDup_cons in Hnd as [Hk Hnd].
    destruct (config !! k) eqn:Hc.
    + rewrite IH by assumption. apply map_eq. intros i.
      rewrite !lookup_union. destruct (decide (i = k)) as [-> | Hne].
      * rewrite Hc, lookup_insert_eq. rewrite not_elem_of_list_to_map_1 by assumption.
        reflexivity.
      * rewrite lookup_insert_ne by congruence. reflexivity.
    + rewrite IH by assumption. apply map_eq. intros i.
      rewrite !lookup_union. destruct (decide (i = k)) as [-> | Hne].
      * rewrite Hc, !lookup_insert_eq.
        rewrite not_elem_of_list_to_map_1 by assumption. reflexivity.
      * rewrite !lookup_insert_ne by congruence. reflexivity.
Qed.

Lemma populate_patched env request current :
  (forall m, rangeMap env m ≡ₚ map_to_list m) ->
  match request with
  | None => current
  | Some config => Some (populate (rangeNil env current) config)
  end = patched request current.
Proof.
  intros Hr. destruct request as [config |]; [| reflexivity]. cbn. f_equal.
  destruct current as [m |]; cbn.
  - rewrite populate_union.
    + f_equal. rewrite <- (list_to_map_to_list m) at 2.
      apply list_to_map_proper; [| apply Hr].
      rewrite Hr. apply NoDup_fst_map_to_list.
    + rewrite Hr. apply NoDup_fst_map_to_list.
  - rewrite (right_id_L ∅ (∪)). reflexivity.
Qed.

Ltac find_event :=
  repeat first [ apply list_elem_of_here | apply list_elem_of_further
               | (apply elem_of_app; right) ].

Ltac members_exec :=
  unfold updateClusterNode, clusterNodeGet, clusterNodePost,
    clusterNodeStateGet, clusterNodeStatePost, stopFunc, loadMember,
    loadRaftNodes, Transaction, logged, set_serverName, get_serverName;
  run_prog; repeat (prog_case; cbn).

Lemma length_zero_false {A} (l : list A) :
  bool_decide (length l = 0%nat) = false -> l <> [].
Proof.
  intros H Hl. apply bool_decide_eq_false in H. apply H. rewrite Hl. reflexivity.
Qed.

Lemma same_membership (a b : bool) :
  a && negb b = false -> negb a && b = false -> a = b.
Proof. destruct a, b; cbn; congruence. Qed.

(** X5: [updateClusterNode] validates before it writes: if the handler
    makes any of its five database updates, then the ETag check passed, the
    body was decoded, the request keeps the database role exactly as the
    member has it, names at least one group, and its configuration passed
    [clusterValidateConfig]. *)
Theorem updateClusterNode_validates_first env r isPatch l resp l' :
  updateClusterNode env r isPatch l = (resp, l') ->
  exists new, since l l' new /\
    (existsb is_update new = true ->
     exists req member memberInfo args,
       json_ClusterMemberPut env (r_Body r) = inr req /\
       EvToAPI member args (inr memberInfo) ∈ new /\
       EtagCheck env r (Put memberInfo) = None /\
       Contains (Roles (Put memberInfo)) (ClusterRoleDatabase env)
         = Contains (Roles req) (ClusterRoleDatabase env) /\
       Groups req <> [] /\
       clusterValidateConfig (Optional env) (IsOneOf env) (Quote env)
         (rangeNil env (Config req)) = None).
Proof.
  members_exec.
  all: intros [= <- <-]; eexists; (split; [solve_since |]); cbn;
    try discriminate; intros _.
  all: match goal with
       | H : json_ClusterMemberPut _ _ = inr ?req,
         H' : ToAPI _ ?member ?args _ = inr ?mi |- _ =>
           exists req, member, mi, args
       end.
  all: repeat split; try assumption; try congruence;
    try (apply length_zero_false; assumption);
    try (apply same_membership; assumption);
    solve [repeat constructor].
Qed.

Lemma updateClusterNode_validates_first_witness :
  exists new,
    since [] (updateClusterNode one_member (on_n1 "") true []).2 new /\
    (existsb is_update new = true ->
     exists req member memberInfo args,
       json_ClusterMemberPut one_member (r_Body (on_n1 "")) = inr req /\
       EvToAPI member args (inr memberInfo) ∈ new /\
       EtagCheck one_member (on_n1 "") (Put memberInfo) = None /\
       Contains (Roles (Put memberInfo)) (ClusterRoleDatabase one_member)
         = Contains (Roles req) (ClusterRoleDatabase one_member) /\
       Groups req <> [] /\
       clusterValidateConfig (Optional one_member) (IsOneOf one_member)
         (Quote one_member) (rangeNil one_member (Config req)) = None).
Proof.
  apply (updateClusterNode_validates_first one_member (on_n1 "") true []
           (updateClusterNode one_member (on_n1 "") true []).1).
  vm_compute. reflexivity.
Defined.

Ltac by_position i H :=
  repeat (destruct i as [| i]; cbn in H; try discriminate H).

(** X6: the configuration that [updateClusterNode] writes.  The call made
    just before [UpdateNodeConfig] is the second read of the member row;
    the update goes to the ID of that row, and carries the request's
    configuration as it is for a PUT, and for a PATCH the request's keys
    together with the row's value for every key the request does not set
    (the row's configuration when the request has none). *)
Theorem updateClusterNode_config env r isPatch l resp l' :
  (forall m, rangeMap env m ≡ₚ map_to_list m) ->
  updateClusterNode env r isPatch l = (resp, l') ->
  exists new, since l l' new /\
    forall i id config res,
      new !! i = Some (EvUpdateNodeConfig id config res) ->
      exists name nodeInfo req,
        new !! S i = Some (EvGetNodeByName name (inr nodeInfo)) /\
        json_ClusterMemberPut env (r_Body r) = inr req /\
        id = ID nodeInfo /\
        config = if isPatch then patched (Config req) (NodeConfig nodeInfo)
                 else Config req.
Proof.
  intros Hr. members_exec.
  all: intros [= <- <-]; eexists; (split; [solve_since |]);
    intros i id config res Hi; by_position i Hi.
  all: injection Hi as <- <- <-; eexists _, _, _; cbn;
    (split; [reflexivity |]); (split; [reflexivity |]);
    (split; [reflexivity |]).
  all: try match goal with H : Config _ = _ |- _ => rewrite H end; cbn;
    try reflexivity.
  all: apply (populate_patched env (Some _) _ Hr).
Qed.

Lemma updateClusterNode_config_witness :
  exists new,
    since [] (updateClusterNode one_member (on_n1 "") true []).2 new /\
    forall i id config res,
      new !! i = Some (EvUpdateNodeConfig id config res) ->
      exists name nodeInfo req,
        new !! S i = Some (EvGetNodeByName name (inr nodeInfo)) /\
        json_ClusterMemberPut one_member (r_Body (on_n1 "")) = inr req /\
        id = ID nodeInfo /\
        config = if true then patched (Config req) (NodeConfig nodeInfo)
                 else Config req.
Proof.
  apply (updateClusterNode_config one_member (on_n1 "") true []
           (updateClusterNode one_member (on_n1 "") true []).1).
  - intros m. reflexivity.
  - vm_compute. reflexivity.
Defined.

(** X7: [updateClusterNode] notifies the other members with a heartbeat
    exactly when the update succeeded, the daemon has network endpoints,
    and the roles of the member row read before the update differ, as
    sets, from the requested roles that are known external roles. *)
Theorem updateClusterNode_heartbeat env r isPatch l resp l' :
  (forall role roles, RoleInSlice env role roles = true <-> role ∈ roles) ->
  updateClusterNode env r isPatch l = (resp, l') ->
  exists new, since l l' new /\
    (existsb is_heartbeat new = true <->
     resp = response.EmptySyncResponse /\ EndpointsSet env = true /\
     exists req member,
       json_ClusterMemberPut env (r_Body r) = inr req /\
       converted new = [member] /\
       ~ (forall role, role ∈ NodeRoles member <->
                       role ∈ Roles req /\ role ∈ ClusterRoles env)).
Proof.
  intros Hspec. members_exec.
  all: intros [= <- <-]; eexists; (split; [solve_since |]); cbn.
  all: split;
    [ try discriminate; intros _
    | intros (Hresp & Hend & req & member & Hjson & Hconv & Hne);
      try discriminate Hresp; try reflexivity ].
  all: repeat match goal with
         | H : _ && _ = true |- _ => apply andb_true_iff in H as [? ?]
         end.
  all: try (injection Hconv as <-; injection Hjson as <-; exfalso; apply Hne;
            apply (clusterRolesChanged_unchanged _ _ _ _ Hspec);
            match goal with
            | H : _ && _ = false |- _ => rewrite Hend in H; exact H
            end).
  all: repeat split; try assumption; eexists _, _;
    (split; [reflexivity |]); (split; [reflexivity |]);
    intros Hall;
    apply (clusterRolesChanged_unchanged _ _ _ _ Hspec) in Hall; congruence.
Qed.

Lemma updateClusterNode_heartbeat_witness :
  exists new,
    since [] (updateClusterNode one_member (on_n1 "") false []).2 new /\
    (existsb is_heartbeat new = true <->
     (updateClusterNode one_member (on_n1 "") false []).1
       = response.EmptySyncResponse /\
     EndpointsSet one_member = true /\
     exists req member,
       json_ClusterMemberPut one_member (r_Body (on_n1 "")) = inr req /\
       converted new = [member] /\
       ~ (forall role, role ∈ NodeRoles member <->
                       role ∈ Roles req /\ role ∈ ClusterRoles one_member)).
Proof.
  apply (updateClusterNode_heartbeat one_member (on_n1 "") false []).
  - intros role roles. apply bool_decide_eq_true.
  - vm_compute. reflexivity.
Defined.

(** *** [GET /1.0/cluster/members] *)

Lemma membersToAPI_run env nodes args acc l res l' :
  membersToAPI env nodes args acc l = (res, l') ->
  exists new, l' = (new ++ l)%list /\
    match res with
    | inr members =>
        exists ms, members = (acc ++ ms)%list /\
          Forall2 (fun node m => EvToAPI node args (inr m) ∈ new) nodes ms
    | inl _ => True
    end.
Proof.
  revert acc l. induction nodes as [| node rest IH]; intros acc l; cbn.
  - run_prog. intros [= <- <-]. exists []. split; [reflexivity |].
    exists []. rewrite app_nil_r. split; [reflexivity | constructor].
  - run_prog. destruct (ToAPI env node args l) as [err | member] eqn:Hm; cbn.
    + intros [= <- <-]. exists [EvToAPI node args (inl err)].
      split; [reflexivity | exact I].
    + intros Hrun. apply IH in Hrun as (new & -> & Hres).
      exists (new ++ [EvToAPI node args (inr member)])%list.
      split; [rewrite <- app_assoc; reflexivity |].
      destruct res as [| members]; [exact I |].
      destruct Hres as (ms & -> & Hall). exists (member :: ms).
      split; [rewrite <- app_assoc; reflexivity |].
      constructor; [set_solver |].
      eapply Forall2_impl; [exact Hall |]. cbn. intros. set_solver.
Qed.

Lemma applyFilters_spec env clauses members acc filtered :
  applyFilters env clauses members acc = inr filtered ->
  filtered = (acc ++ filter (fun m => matches env clauses m = true) members)%list.
Proof.
  revert acc. induction members as [| m rest IH]; intros acc;
    cbn [applyFilters].
  - intros [= <-]. rewrite app_nil_r. reflexivity.
  - rewrite filter_cons.
    destruct clauses as [[| c cs] |].
    + intros H. apply IH in H as ->. rewrite decide_True by reflexivity.
      rewrite <- app_assoc. reflexivity.
    + destruct (filter_Match env m (c :: cs)) as [err | b] eqn:Hm;
        [discriminate |].
      assert (matches env (Some (c :: cs)) m = b) as Hb.
      { unfold matches. rewrite Hm. destruct b; reflexivity. }
      destruct b; cbn [negb]; intros H; apply IH in H as ->.
      * rewrite decide_True by exact Hb. rewrite <- app_assoc. reflexivity.
      * rewrite decide_False by (rewrite Hb; discriminate). reflexivity.
    + intros H. apply IH in H as ->. rewrite decide_True by reflexivity.
      rewrite <- app_assoc. reflexivity.
Qed.

Lemma memberURLs_spec env members urls :
  memberURLs env members urls = (urls ++ (memberURL env <$> members))%list.
Proof.
  revert urls. induction members as [| m rest IH]; intros urls; cbn.
  - rewrite app_nil_r. reflexivity.
  - rewrite IH, <- app_assoc. reflexivity.
Qed.

(** X8: a successful [GET /1.0/cluster/members] converts every row that
    [GetNodes] returned, in order.  With recursion it answers the converted
    members that the filter keeps; without recursion it answers one URL per
    converted member, whether or not the filter keeps that member. *)
Theorem clusterNodesGet_lists env r l success meta l' :
  clusterNodesGet env r l = (response.SyncResponse success meta, l') ->
  exists new nodes members clauses,
    since l l' new /\
    filter_Parse env (FormValue r "filter") = inr clauses /\
    EvGetNodes (inr nodes) ∈ new /\
    Forall2 (fun node m => exists args, EvToAPI node args (inr m) ∈ new)
      nodes members /\
    meta = if IsRecursionRequest env r
           then Members (filter (fun m => matches env clauses m = true) members)
           else URLs (memberURL env <$> members).
Proof.
  unfold clusterNodesGet, loadRaftNodes, Transaction. run_prog.
  repeat (prog_case; cbn); try discriminate.
  all: intros [= <- <- <-].
  all: match goal with
       | H : membersToAPI _ _ _ _ _ = _ |- _ =>
           apply membersToAPI_run in H as (new1 & -> & ms & -> & Hall)
       end.
  all: match goal with
       | H : applyFilters _ _ _ _ = _ |- _ => apply applyFilters_spec in H as ->
       end.
  all: match goal with
       | H : GetNodes _ _ = inr ?nodes |- _ => eexists _, nodes, ms, _
       end; (split; [solve_since |]); (split; [reflexivity |]);
    (split; [find_event |]);
    (split; [| rewrite ?memberURLs_spec; reflexivity]).
  all: eapply Forall2_impl; [exact Hall |]; cbn; intros node m Hin;
    eexists; apply list_elem_of_further, elem_of_app; left; exact Hin.
Qed.

Lemma clusterNodesGet_lists_witness :
  exists new nodes members clauses,
    since [] (clusterNodesGet one_member
                (mkRequest 1 "" {[ "filter" := "n9" ]} ∅) []).2 new /\
    filter_Parse one_member
      (FormValue (mkRequest 1 "" {[ "filter" := "n9" ]} ∅) "filter")
      = inr clauses /\
    EvGetNodes (inr nodes) ∈ new /\
    Forall2 (fun node m => exists args, EvToAPI node args (inr m) ∈ new)
      nodes members /\
    URLs ["/1.0/cluster/members/n1"]
    = if IsRecursionRequest one_member (mkRequest 1 "" {[ "filter" := "n9" ]} ∅)
      then Members (filter (fun m => matches one_member clauses m = true) members)
      else URLs (memberURL one_member <$> members).
Proof.
  apply (clusterNodesGet_lists one_member
           (mkRequest 1 "" {[ "filter" := "n9" ]} ∅) [] true).
  vm_compute. reflexivity.
Defined.

(** *** [POST /1.0/cluster/members/{name}] *)

(** X9: renaming a member changes the daemon's own server name only when
    the handler succeeds, and then to the requested name, after the rename
    was committed in the cluster database; the event location is set to
    the new name.  On every other path (forwarded request, bad body,
    failed rename) the server name is left as it was. *)
Theorem clusterNodePost_renames env r serverName l resp serverName' l' :
  clusterNodePost env r (serverName, l) = (resp, (serverName', l')) ->
  exists new, since l l' new /\
    match resp with
    | response.EmptySyncResponse =>
        exists old req,
          PathUnescape env (get (r_Vars r) "name") = inr old /\
          json_ClusterMemberPost env (r_Body r) = inr req /\
          serverName' = post_ServerName req /\
          EvRenameNode old serverName' None ∈ new /\
          EvTxCommit ClusterDB None ∈ new /\
          EvSetLocalLocation serverName' ∈ new
    | _ =>
        serverName' = serverName /\
        forall name, EvSetLocalLocation name ∉ new
    end.
Proof.
  members_exec.
  all: intros Hrun; simplify_eq; eexists; (split; [solve_since |]); cbn.
  all: try (split; [reflexivity |]; intros name Hin; elem_cases Hin).
  eexists _, _. repeat split; find_event.
Qed.

Lemma clusterNodePost_renames_witness :
  exists new,
    since [] (clusterNodePost one_member (on_n1 "n7") ("n1", [])).2.2 new /\
    exists old req,
      PathUnescape one_member (get (r_Vars (on_n1 "n7")) "name") = inr old /\
      json_ClusterMemberPost one_member (r_Body (on_n1 "n7")) = inr req /\
      "n7" = post_ServerName req /\
      EvRenameNode old "n7" None ∈ new /\
      EvTxCommit ClusterDB None ∈ new /\
      EvSetLocalLocation "n7" ∈ new.
Proof.
  apply (clusterNodePost_renames one_member (on_n1 "n7") "n1" []
           response.EmptySyncResponse "n7").
  vm_compute. reflexivity.
Defined.

(** *** [POST /1.0/cluster/members/{name}/state] *)

(** X10: the state handler starts an evacuation only for the action
    evacuate, with a mode that is empty or passes the validator, and hands
    over to the restore code only for the action restore; for any other
    action nothing is started and the response is an error, or the answer
    of the member the request was forwarded to. *)
Theorem clusterNodeStatePost_actions env r l resp l' :
  clusterNodeStatePost env r l = (resp, l') ->
  exists new, since l l' new /\
    (forall run res, EvOperationCreate run res ∈ new ->
       exists name req,
         json_ClusterMemberStatePost env (r_Body r) = inr req /\
         Action req = "evacuate" /\ run = RunEvacuate name (Mode req) /\
         (Mode req = "" \/ evacuateValidator env (Mode req) = None)) /\
    (forall res, EvRestoreClusterMember res ∈ new ->
       exists req,
         json_ClusterMemberStatePost env (r_Body r) = inr req /\
         Action req = "restore") /\
    (forall req,
       json_ClusterMemberStatePost env (r_Body r) = inr req ->
       Action req <> "evacuate" -> Action req <> "restore" ->
       (forall run res, EvOperationCreate run res ∉ new) /\
       (forall res, EvRestoreClusterMember res ∉ new) /\
       (response.is_error resp = true \/ exists a, resp = response.External a)).
Proof.
  members_exec.
  all: intros [= <- <-]; eexists; (split; [solve_since |]).
  all: repeat match goal with
         | H : String.eqb _ _ = true |- _ => apply String.eqb_eq in H
         | H : String.eqb _ _ = false |- _ => apply String.eqb_neq in H
         | H : _ && _ = true |- _ => apply andb_true_iff in H as [? ?]
         | H : negb _ = true |- _ => apply negb_true_iff in H
         end.
  all: split; [intros run res Hin; elem_cases Hin |].
  all: try (injection Hin as -> ->; eexists _, _;
            repeat split; try reflexivity; try assumption).
  all: try match goal with
         | |- _ \/ _ =>
             first [ right; assumption
                   | left;
                     match goal with
                     | H : _ && _ = false |- _ =>
                         apply andb_false_iff in H as [H | H];
                         [congruence | apply negb_false_iff, String.eqb_eq in H;
                                       exact H]
                     end ]
         end.
  all: split; [intros res Hin; elem_cases Hin |].
  all: try (eexists; split; [reflexivity | assumption]).
  all: intros req Hreq Hne1 Hne2; try discriminate Hreq;
    try (injection Hreq as <-; contradiction).
  all: (split; [intros run res Hin; elem_cases Hin |]);
    (split; [intros res Hin; elem_cases Hin |]);
    first [ left; reflexivity | right; eexists; reflexivity ].
Qed.

(** X11: the stop closure of an evacuation.  It fails only when its last
    call was a stop that failed with an error other than "already
    stopped"; otherwise its last call records the power state RUNNING, and
    a failure of that call is ignored.  A stop is forced after a clean
    shutdown that failed, or at once for force-stop; the stateful stop is
    used for stateful-stop only. *)
Theorem stopFunc_outcome env inst action l res l' :
  stopFunc env inst action l = (res, l') ->
  exists new, since l l' new /\
    match res with
    | Some _ =>
        exists stateful e older,
          new = EvStop inst stateful (Some e) :: older /\
          IsInstanceIsStopped env e = false
    | None =>
        exists vres older,
          new = EvVolatileSet inst "volatile.last_state.power"
                  (PowerStateRunning env) vres :: older
    end /\
    forall i stateful sres,
      new !! i = Some (EvStop inst stateful sres) ->
      (stateful = true <-> action = "stateful-stop") /\
      (action = "force-stop" \/ action = "stateful-stop" \/
       exists timeout e, new !! S i = Some (EvShutdown inst timeout (Some e))).
Proof.
  members_exec.
  all: intros Hrun; simplify_eq; eexists; (split; [solve_since |]).
  all: repeat match goal with
         | H : String.eqb _ _ = true |- _ => apply String.eqb_eq in H
         | H : String.eqb _ _ = false |- _ => apply String.eqb_neq in H
         | H : negb _ = true |- _ => apply negb_true_iff in H
         end.
  all: (split; [eexists _, _; try eexists; try (split; [reflexivity |]);
                first [assumption | reflexivity] |]).
  all: intros i stateful sres Hi; by_position i Hi;
    injection Hi as <- <-; subst.
  all: split; try (split; [discriminate | congruence]);
    try (split; reflexivity); eauto 6.
  all: try (split; [reflexivity | intros _; reflexivity]).
Qed.

Lemma clusterNodeStatePost_actions_witness :
  exists new,
    since [] (clusterNodeStatePost one_member (on_n1 "evacuate") []).2 new /\
    (forall run res, EvOperationCreate run res ∈ new ->
       exists name req,
         json_ClusterMemberStatePost one_member (r_Body (on_n1 "evacuate"))
           = inr req /\
         Action req = "evacuate" /\ run = RunEvacuate name (Mode req) /\
         (Mode req = "" \/ evacuateValidator one_member (Mode req) = None)) /\
    (forall res, EvRestoreClusterMember res ∈ new ->
       exists req,
         json_ClusterMemberStatePost one_member (r_Body (on_n1 "evacuate"))
           = inr req /\
         Action req = "restore") /\
    (forall req,
       json_ClusterMemberStatePost one_member (r_Body (on_n1 "evacuate"))
         = inr req ->
       Action req <> "evacuate" -> Action req <> "restore" ->
       (forall run res, EvOperationCreate run res ∉ new) /\
       (forall res, EvRestoreClusterMember res ∉ new) /\
       (response.is_error
          (clusterNodeStatePost one_member (on_n1 "evacuate") []).1 = true \/
        exists a, (clusterNodeStatePost one_member (on_n1 "evacuate") []).1
                  = response.External a)).
Proof.
  apply (clusterNodeStatePost_actions one_member (on_n1 "evacuate") []).
  vm_compute. reflexivity.
Defined.

Lemma stopFunc_outcome_witness :
  exists new,
    since [] (stopFunc one_member web "stop" []).2 new /\
    (exists vres older,
       new = EvVolatileSet web "volatile.last_state.power"
               (PowerStateRunning one_member) vres :: older) /\
    forall i stateful sres,
      new !! i = Some (EvStop web stateful sres) ->
      (stateful = true <-> "stop" = "stateful-stop") /\
      ("stop" = "force-stop" \/ "stop" = "stateful-stop" \/
       exists timeout e, new !! S i = Some (EvShutdown web timeout (Some e))).
Proof.
  apply (stopFunc_outcome one_member web "stop" [] None).
  vm_compute. reflexivity.
Defined.

End MembersTheorems.

(** ** Joining a cluster *)

Section JoiningTheorems.

Import Joining.

(** *** [clusterCheckStoragePoolsMatch] *)

(** The inner loop stops at the first pool of the request with the name,
    and loads the pool from the database only then. *)
Lemma matchReqPools_run env name reqPools l :
  matchReqPools env name reqPools l =
    match requestedPool name reqPools with
    | None => ((None, false), l)
    | Some reqPool =>
        let res := GetStoragePoolInAnyState env name l in
        (match res with
         | inl err => (Some err, true)
         | inr pool =>
             if negb (String.eqb (pool_Driver pool) (pool_Driver reqPool))
             then (Some ("Mismatching driver for storage pool " ++ name)%string,
                   true)
             else match CompareConfigs env (pool_Config pool)
                          (pool_Config reqPool)
                          (NodeSpecificStorageConfig env) with
                  | Some err =>
                      (Some (wrap ("Mismatching config for storage pool "
                                   ++ name)%string err), true)
                  | None => (None, true)
                  end
         end, EvGetStoragePoolInAnyState name res :: l)
    end.
Proof.
  unfold requestedPool.
  induction reqPools as [|reqPool rest IH]; cbn; [reflexivity|].
  destruct (String.eqb (pool_Name reqPool) name); cbn; [|exact IH].
  run_prog. repeat (prog_case; cbn); reflexivity.
Qed.

(** What the loop over the created pools has established when it ends
    without an error. *)
Lemma matchPools_accepts env poolNames reqPools l l' :
  matchPools env poolNames reqPools l = (None, l') ->
  exists new, since l l' new /\
    (forall e, e ∈ new -> exists name res,
       e = EvGetStoragePoolInAnyState name res /\ name ∈ poolNames) /\
    forall name, name ∈ poolNames ->
      exists reqPool pool,
        requestedPool name reqPools = Some reqPool /\
        EvGetStoragePoolInAnyState name (inr pool) ∈ new /\
        pool_Driver pool = pool_Driver reqPool /\
        CompareConfigs env (pool_Config pool) (pool_Config reqPool)
          (NodeSpecificStorageConfig env) = None.
Proof.
  revert l. induction poolNames as [|name rest IH]; intros l; cbn.
  - unfold pret. intros [= <-]. exists []. split; [apply since_refl|].
    split; intros ? H; apply elem_of_nil in H; contradiction.
  - unfold pbind. rewrite matchReqPools_run.
    destruct (requestedPool name reqPools) as [reqPool|] eqn:Hreq; cbn;
      [|unfold pret; discriminate].
    destruct (GetStoragePoolInAnyState env name l) as [err|pool] eqn:Hget;
      [unfold pret; discriminate|].
    destruct (String.eqb (pool_Driver pool) (pool_Driver reqPool)) eqn:Hdrv;
      cbn; [|unfold pret; discriminate].
    destruct (CompareConfigs env _ _ _) eqn:Hcmp; cbn;
      [unfold pret; discriminate|].
    intros Hrest. apply IH in Hrest as (new & Hs & Honly & Hall).
    exists (new ++ [EvGetStoragePoolInAnyState name (inr pool)]).
    split; [|split].
    + unfold since in *. rewrite Hs, <- app_assoc. reflexivity.
    + intros e He. apply elem_of_app in He as [He | He].
      * destruct (Honly e He) as (n & r & -> & Hn).
        exists n, r. split; [reflexivity|]. apply list_elem_of_further, Hn.
      * apply list_elem_of_singleton in He as ->.
        exists name, (inr pool). split; [reflexivity|].
        apply list_elem_of_here.
    + intros n Hn. apply elem_of_cons in Hn as [-> | Hn].
      * exists reqPool, pool. split; [exact Hreq|].
        split; [apply elem_of_app; right; apply list_elem_of_here|].
        split; [apply String.eqb_eq, Hdrv | exact Hcmp].
      * destruct (Hall n Hn) as (rp & p & ? & ? & ? & ?).
        exists rp, p. split; [assumption|].
        split; [apply elem_of_app; left; assumption|]. split; assumption.
Qed.

(** X12: when [clusterCheckStoragePoolsMatch] accepts the pools of a joining
    member, it has read the names of the created pools inside a transaction
    that it committed, and for every such name the first pool of the request
    with that name has the driver of the cluster's pool and a configuration
    that [CompareConfigs] accepts with the node-specific keys excluded.
    Pools of the request that the cluster does not have are never looked
    up. *)
Theorem clusterCheckStoragePoolsMatch_accepts env reqPools l l' :
  clusterCheckStoragePoolsMatch env reqPools l = (None, l') ->
  exists checks names older,
    l' = EvTxCommit None :: checks ++ older /\
    (older = EvGetCreatedStoragePoolNames (inr names) :: EvTxBegin None :: l \/
     names = [] /\ exists err,
       IsNotFoundError env err = true /\
       older = EvGetCreatedStoragePoolNames (inl err) :: EvTxBegin None :: l) /\
    (forall e, e ∈ checks -> exists name res,
       e = EvGetStoragePoolInAnyState name res /\ name ∈ names) /\
    forall name, name ∈ names ->
      exists reqPool pool,
        requestedPool name reqPools = Some reqPool /\
        EvGetStoragePoolInAnyState name (inr pool) ∈ checks /\
        pool_Driver pool = pool_Driver reqPool /\
        CompareConfigs env (pool_Config pool) (pool_Config reqPool)
          (NodeSpecificStorageConfig env) = None.
Proof.
  unfold clusterCheckStoragePoolsMatch. run_prog.
  destruct (txBegin env l) eqn:Hb; cbn; [discriminate|].
  destruct (GetCreatedStoragePoolNames env _) as [err|names] eqn:Hn; cbn.
  - destruct (IsNotFoundError env err) eqn:Hnf; cbn; [|discriminate].
    destruct (txCommit env _) eqn:Hc; cbn; [discriminate|].
    intros [= <-]. eexists [], [], _. split; [reflexivity|]. split.
    + right. split; [reflexivity|]. exists err. split; [exact Hnf | reflexivity].
    + split; intros ? H; apply elem_of_nil in H; contradiction.
  - destruct (matchPools env names reqPools _) as [[e|] l1] eqn:Hm; cbn;
      [discriminate|].
    destruct (txCommit env l1) eqn:Hc; cbn; [discriminate|].
    intros [= <-].
    apply matchPools_accepts in Hm as (new & Hs & Honly & Hall).
    eexists new, names, _. split; [rewrite Hs; reflexivity|].
    split; [left; reflexivity|]. split; assumption.
Qed.

Lemma clusterCheckStoragePoolsMatch_accepts_witness :
  exists checks names older,
    (clusterCheckStoragePoolsMatch small_cluster [pool_local] []).2
      = EvTxCommit None :: checks ++ older /\
    (older = EvGetCreatedStoragePoolNames (inr names) :: EvTxBegin None :: [] \/
     names = [] /\ exists err,
       IsNotFoundError small_cluster err = true /\
       older = EvGetCreatedStoragePoolNames (inl err) :: EvTxBegin None :: []) /\
    (forall e, e ∈ checks -> exists name res,
       e = EvGetStoragePoolInAnyState name res /\ name ∈ names) /\
    forall name, name ∈ names ->
      exists reqPool pool,
        requestedPool name [pool_local] = Some reqPool /\
        EvGetStoragePoolInAnyState name (inr pool) ∈ checks /\
        pool_Driver pool = pool_Driver reqPool /\
        CompareConfigs small_cluster (pool_Config pool) (pool_Config reqPool)
          (NodeSpecificStorageConfig small_cluster) = None.
Proof.
  apply (clusterCheckStoragePoolsMatch_accepts small_cluster [pool_local] []).
  vm_compute. reflexivity.
Defined.

(** *** [clusterCheckNetworksMatch] *)

(** The inner loop stops at the first network of the request with the
    name and the project. *)
Lemma matchReqNetworks_run env project name network reqNetworks :
  matchReqNetworks env project name network reqNetworks =
    match requestedNetwork project name reqNetworks with
    | None => (None, false)
    | Some reqNetwork =>
        if negb (String.eqb (inp_Type reqNetwork) (net_Type network)) then
          (Some ("Mismatching type for network " ++ Quote env name
                 ++ " in project " ++ Quote env project)%string, true)
        else
          match CompareConfigs env
                  (StripNodeSpecificNetworkConfig env (net_Config network))
                  (StripNodeSpecificNetworkConfig env (inp_Config reqNetwork))
                  [] with
          | Some err =>
              (Some (wrap ("Mismatching config for network "
                           ++ Quote env (net_Name network) ++ " in project "
                           ++ Quote env project)%string err), true)
          | None => (None, true)
          end
    end.
Proof.
  unfold requestedNetwork.
  induction reqNetworks as [|reqNetwork rest IH]; cbn; [reflexivity|].
  destruct (String.eqb (inp_Name reqNetwork) name),
           (String.eqb (inp_Project reqNetwork) project); cbn;
    solve [exact IH | reflexivity].
Qed.

Lemma matchNetworks_accepts env project networkNames reqNetworks l l' :
  matchNetworks env project networkNames reqNetworks l = (None, l') ->
  exists new, since l l' new /\
    (forall e, e ∈ new -> exists name res,
       e = EvGetNetworkInAnyState project name res /\ name ∈ networkNames) /\
    forall name, name ∈ networkNames ->
      exists network,
        EvGetNetworkInAnyState project name (inr network) ∈ new /\
        networkAccepted env reqNetworks project name network.
Proof.
  revert l. induction networkNames as [|name rest IH]; intros l; cbn.
  - unfold pret. intros [= <-]. exists []. split; [apply since_refl|].
    split; intros ? H; apply elem_of_nil in H; contradiction.
  - run_prog.
    destruct (GetNetworkInAnyState env project name l) as [err|network]
      eqn:Hget; cbn; [discriminate|].
    assert (Hstep :
      matchNetworks env project rest reqNetworks
        (EvGetNetworkInAnyState project name (inr network) :: l) = (None, l') ->
      networkAccepted env reqNetworks project name network ->
      exists new, since l l' new /\
        (forall e, e ∈ new -> exists n res,
           e = EvGetNetworkInAnyState project n res /\ n ∈ name :: rest) /\
        forall n, n ∈ name :: rest ->
          exists network,
            EvGetNetworkInAnyState project n (inr network) ∈ new /\
            networkAccepted env reqNetworks project n network).
    { intros Hrest Hacc. apply IH in Hrest as (new & Hs & Honly & Hall).
      exists (new ++ [EvGetNetworkInAnyState project name (inr network)]).
      split; [|split].
      - unfold since in *. rewrite Hs, <- app_assoc. reflexivity.
      - intros e He. apply elem_of_app in He as [He | He].
        + destruct (Honly e He) as (n & r & -> & Hn).
          exists n, r. split; [reflexivity|]. apply list_elem_of_further, Hn.
        + apply list_elem_of_singleton in He as ->.
          exists name, (inr network). split; [reflexivity|].
          apply list_elem_of_here.
      - intros n Hn. apply elem_of_cons in Hn as [-> | Hn].
        + exists network.
          split; [apply elem_of_app; right; apply list_elem_of_here | exact Hacc].
        + destruct (Hall n Hn) as (nw & ? & ?). exists nw.
          split; [apply elem_of_app; left; assumption | assumption]. }
    destruct (String.eqb (net_Type network) "ovn") eqn:Hovn.
    + intros Hrest. apply (Hstep Hrest). left. apply String.eqb_eq, Hovn.
    + rewrite matchReqNetworks_run.
      destruct (requestedNetwork project name reqNetworks) as [req|] eqn:Hreq;
        cbn; [|discriminate].
      destruct (String.eqb (inp_Type req) (net_Type network)) eqn:Hty; cbn;
        [|discriminate].
      destruct (CompareConfigs env _ _ _) eqn:Hcmp; cbn; [discriminate|].
      intros Hrest. apply (Hstep Hrest). right. exists req.
      split; [exact Hreq|]. split; [apply String.eqb_eq, Hty | exact Hcmp].
Qed.

Lemma projectChecked_mono env reqNetworks new new' project :
  (forall e, e ∈ new -> e ∈ new') ->
  projectChecked env reqNetworks new project ->
  projectChecked env reqNetworks new' project.
Proof.
  intros Hsub (names & Hnames & Hall). exists names. split.
  - destruct Hnames as [H | (-> & err & Hnf & H)]; [left; auto|].
    right. split; [reflexivity|]. exists err. auto.
  - intros name Hn. destruct (Hall name Hn) as (network & H & Hacc).
    exists network. auto.
Qed.

Lemma matchProjects_accepts env projects reqNetworks l l' :
  matchProjects env projects reqNetworks l = (None, l') ->
  exists new, since l l' new /\
    forall project, project ∈ projects ->
      projectChecked env reqNetworks new project.
Proof.
  revert l. induction projects as [|project rest IH]; intros l; cbn.
  - unfold pret. intros [= <-]. exists []. split; [apply since_refl|].
    intros ? H. apply elem_of_nil in H. contradiction.
  - run_prog.
    destruct (GetCreatedNetworkNamesByProject env project l) as [err|names]
      eqn:Hnames; cbn.
    + destruct (IsNotFoundError env err) eqn:Hnf; cbn; [|discriminate].
      intros Hrest. apply IH in Hrest as (new & Hs & Hall).
      exists (new ++ [EvGetCreatedNetworkNamesByProject project (inl err)]).
      split; [unfold since in *; rewrite Hs, <- app_assoc; reflexivity|].
      intros p Hp. apply elem_of_cons in Hp as [-> | Hp].
      * exists []. split.
        -- right. split; [reflexivity|]. exists err. split; [exact Hnf|].
           apply elem_of_app. right. apply list_elem_of_here.
        -- intros ? H. apply elem_of_nil in H. contradiction.
      * apply (projectChecked_mono env reqNetworks new); [|apply Hall, Hp].
        intros e He. apply elem_of_app. left. exact He.
    + fold (matchNetworks env).
      destruct (matchNetworks env project names reqNetworks _) as [[e|] l1]
        eqn:Hm; cbn; [discriminate|].
      intros Hrest. apply IH in Hrest as (new & Hs & Hall).
      apply matchNetworks_accepts in Hm as (mid & Hmid & _ & Hnets).
      exists (new ++ mid ++
              [EvGetCreatedNetworkNamesByProject project (inr names)]).
      split.
      { unfold since in *. rewrite Hs, Hmid, <- !app_assoc. reflexivity. }
      intros p Hp. apply elem_of_cons in Hp as [-> | Hp].
      * exists names. split.
        -- left. apply elem_of_app. right. apply elem_of_app. right.
           apply list_elem_of_here.
        -- intros name Hn. destruct (Hnets name Hn) as (network & H & Hacc).
           exists network. split; [|exact Hacc].
           apply elem_of_app. right. apply elem_of_app. left. exact H.
      * apply (projectChecked_mono env reqNetworks new); [|apply Hall, Hp].
        intros e He. apply elem_of_app. left. exact He.
Qed.

(** X13: when [clusterCheckNetworksMatch] accepts the networks of a joining
    member, it has read the project names and, for every project, the names
    of its created networks inside a transaction that it committed, and has
    loaded every one of these networks; each of them is an OVN network,
    which the member need not have, or its first entry in the request (same
    name and project) has the type of the cluster's network and, after the
    node-specific keys are stripped from both, a configuration that
    [CompareConfigs] accepts. *)
Theorem clusterCheckNetworksMatch_accepts env reqNetworks l l' :
  clusterCheckNetworksMatch env reqNetworks l = (None, l') ->
  exists checks projects,
    l' = EvTxCommit None :: checks
         ++ EvGetProjectNames (inr projects) :: EvTxBegin None :: l /\
    forall project, project ∈ projects ->
      projectChecked env reqNetworks checks project.
Proof.
  unfold clusterCheckNetworksMatch. run_prog.
  destruct (txBegin env l) eqn:Hb; cbn; [discriminate|].
  destruct (GetProjectNames env _) as [err|projects] eqn:Hp; cbn;
    [discriminate|].
  destruct (matchProjects env projects reqNetworks _) as [[e|] l1] eqn:Hm; cbn;
    [discriminate|].
  destruct (txCommit env l1) eqn:Hc; cbn; [discriminate|].
  intros [= <-]. apply matchProjects_accepts in Hm as (new & Hs & Hall).
  exists new, projects. split; [rewrite Hs; reflexivity | exact Hall].
Qed.

Lemma clusterCheckNetworksMatch_accepts_witness :
  exists checks projects,
    (clusterCheckNetworksMatch small_cluster [req_br0] []).2
      = EvTxCommit None :: checks
        ++ EvGetProjectNames (inr projects) :: EvTxBegin None :: [] /\
    forall project, project ∈ projects ->
      projectChecked small_cluster [req_br0] checks project.
Proof.
  apply (clusterCheckNetworksMatch_accepts small_cluster [req_br0] []).
  vm_compute. reflexivity.
Defined.

(** *** [clusterInitMember] *)

(** Assigning the entries of a list one after the other, the later ones
    over the earlier ones. *)
Lemma list_to_map_snoc_union (l : list (string * string)) k v
    (m : gmap string string) :
  list_to_map (l ++ [(k, v)]) ∪ m = list_to_map l ∪ <[k := v]> m.
Proof.
  induction l as [|[k' v'] l IH]; cbn.
  - rewrite <- insert_union_l, !(left_id_L ∅ (∪)). reflexivity.
  - rewrite <- !insert_union_l, IH. reflexivity.
Qed.

Lemma applyPoolConfig_Some env poolName memberConfig m :
  applyPoolConfig env poolName memberConfig (Some m) =
  Returns (Some (list_to_map (reverse (poolOverrides env poolName memberConfig))
                 ∪ m)).
Proof.
  revert m. unfold poolOverrides.
  induction memberConfig as [|c rest IH]; intros m; cbn.
  - rewrite (left_id_L ∅ (∪)). reflexivity.
  - destruct (String.eqb (key_Entity c) "storage-pool"); cbn; [|apply IH].
    destruct (String.eqb (key_Name c) poolName); cbn; [|apply IH].
    destruct (Contains _ (key_Key c)); cbn; [|apply IH].
    rewrite IH.
    match goal with
    | |- context [rev_append ?l [?x]] =>
        change (rev_append l [x]) with (reverse (x :: l))
    end.
    rewrite reverse_cons, list_to_map_snoc_union. reflexivity.
Qed.

Lemma applyPoolConfig_None env poolName memberConfig :
  applyPoolConfig env poolName memberConfig None =
  match poolOverrides env poolName memberConfig with
  | [] => Returns None
  | _ :: _ => Panics
  end.
Proof.
  unfold poolOverrides. induction memberConfig as [|c rest IH]; cbn;
    [reflexivity|].
  destruct (String.eqb (key_Entity c) "storage-pool"); cbn; [|apply IH].
  destruct (String.eqb (key_Name c) poolName); cbn; [|apply IH].
  destruct (Contains _ (key_Key c)); cbn; [reflexivity | apply IH].
Qed.

(** The loop over the pools: it panics on the first pool that is not
    pending, has no configuration map and is given a value by the user;
    otherwise it appends one entry for every pool that is not pending. *)
Lemma initPools_spec env pools memberConfig data :
  (exists posts,
     initPools env pools memberConfig data = Returns (data ++ posts) /\
     Forall2 (initialised env memberConfig)
       (filter (fun pool => pending pool = false) pools) posts /\
     forall pool, pool ∈ pools -> pending pool = false ->
       pool_Config pool = None ->
       poolOverrides env (pool_Name pool) memberConfig = []) \/
  (initPools env pools memberConfig data = Panics /\
   exists pool, pool ∈ pools /\ pending pool = false /\
     pool_Config pool = None /\
     poolOverrides env (pool_Name pool) memberConfig <> []).
Proof.
  revert data. induction pools as [|pool rest IH]; intros data; cbn [initPools].
  - left. exists []. rewrite app_nil_r. split; [reflexivity|].
    split; [apply Forall2_nil; exact I|].
    intros ? H. apply elem_of_nil in H. contradiction.
  - fold (pending pool). destruct (pending pool) eqn:Hpend.
    + rewrite filter_cons_False by (rewrite Hpend; discriminate).
      destruct (IH data) as [(posts & Hrun & Hposts & Hnil) | (Hrun & pool' & Hin & H)].
      * left. exists posts. split; [exact Hrun|]. split; [exact Hposts|].
        intros p Hp Hpp. apply elem_of_cons in Hp as [-> | Hp];
          [congruence | apply Hnil; assumption].
      * right. split; [exact Hrun|]. exists pool'.
        split; [apply list_elem_of_further, Hin | exact H].
    + rewrite filter_cons_True by exact Hpend.
      destruct (pool_Config pool) as [config|] eqn:Hconfig; cbn [deleteNil].
      * rewrite applyPoolConfig_Some.
        destruct (IH (data ++ [mkStoragePoolsPost (pool_Name pool)
                                 (pool_Driver pool) (pool_Description pool)
                                 (Some (list_to_map (reverse (poolOverrides env
                                          (pool_Name pool) memberConfig))
                                        ∪ delete "zfs.pool_name"
                                            (delete "volatile.initial_source"
                                               config)))]))
          as [(posts & Hrun & Hposts & Hnil) | (Hrun & pool' & Hin & H)].
        -- left. eexists (_ :: posts). split.
           { rewrite Hrun, <- app_assoc. reflexivity. }
           split.
           { constructor; [|exact Hposts]. unfold initialised. cbn.
             rewrite Hconfig. repeat split; reflexivity. }
           intros p Hp Hpp Hc. apply elem_of_cons in Hp as [-> | Hp];
             [congruence | apply Hnil; assumption].
        -- right. split; [exact Hrun|]. exists pool'.
           split; [apply list_elem_of_further, Hin | exact H].
      * rewrite applyPoolConfig_None.
        destruct (poolOverrides env (pool_Name pool) memberConfig) eqn:Hovr.
        -- destruct (IH (data ++ [mkStoragePoolsPost (pool_Name pool)
                                    (pool_Driver pool) (pool_Description pool)
                                    None]))
             as [(posts & Hrun & Hposts & Hnil) | (Hrun & pool' & Hin & H)].
           ++ left. eexists (_ :: posts). split.
              { rewrite Hrun, <- app_assoc. reflexivity. }
              split.
              { constructor; [|exact Hposts]. unfold initialised. cbn.
                rewrite Hconfig. repeat split; reflexivity. }
              intros p Hp Hpp Hc. apply elem_of_cons in Hp as [-> | Hp];
                [exact Hovr | apply Hnil; assumption].
           ++ right. split; [exact Hrun|]. exists pool'.
              split; [apply list_elem_of_further, Hin | exact H].
        -- right. split; [reflexivity|]. exists pool.
           split; [apply list_elem_of_here|]. rewrite Hovr.
           split; [exact Hpend|]. split; [exact Hconfig | discriminate].
Qed.

Lemma applyNetworkConfig_Some env networkName memberConfig m :
  applyNetworkConfig env networkName memberConfig (Some m) =
  Returns (Some (list_to_map (reverse (networkOverrides env networkName
                                         memberConfig)) ∪ m)).
Proof.
  revert m. unfold networkOverrides.
  induction memberConfig as [|c rest IH]; intros m; cbn.
  - rewrite (left_id_L ∅ (∪)). reflexivity.
  - destruct (String.eqb (key_Entity c) "network"); cbn; [|apply IH].
    destruct (String.eqb (key_Name c) networkName); cbn; [|apply IH].
    destruct (IsNodeSpecificNetworkConfig env (key_Key c)); cbn; [|apply IH].
    rewrite IH.
    match goal with
    | |- context [rev_append ?l [?x]] =>
        change (rev_append l [x]) with (reverse (x :: l))
    end.
    rewrite reverse_cons, list_to_map_snoc_union. reflexivity.
Qed.

Lemma applyNetworkConfig_None env networkName memberConfig :
  applyNetworkConfig env networkName memberConfig None =
  match networkOverrides env networkName memberConfig with
  | [] => Returns None
  | _ :: _ => Panics
  end.
Proof.
  unfold networkOverrides. induction memberConfig as [|c rest IH]; cbn;
    [reflexivity|].
  destruct (String.eqb (key_Entity c) "network"); cbn; [|apply IH].
  destruct (String.eqb (key_Name c) networkName); cbn; [|apply IH].
  destruct (IsNodeSpecificNetworkConfig env (key_Key c)); cbn;
    [reflexivity | apply IH].
Qed.

(** The loop over the networks of a project appends one entry for every
    network that is managed, created and not OVN. *)
Lemma initNetworks_spec env project networks memberConfig data data' :
  initNetworks env project networks memberConfig data = Returns data' ->
  exists posts, data' = data ++ posts /\
    Forall2 (networkEntry env memberConfig project)
      (filter (fun network => wanted env network = true) networks) posts.
Proof.
  revert data. induction networks as [|network rest IH]; intros data;
    cbn [initNetworks].
  - intros [= <-]. exists []. rewrite app_nil_r. split; [reflexivity|].
    apply Forall2_nil. exact I.
  - destruct (net_Managed network) eqn:Hm; cbn [negb orb];
      [|rewrite filter_cons_False
          by (unfold wanted; rewrite Hm; discriminate); apply IH].
    destruct (String.eqb (net_Status network) (NetworkStatusCreated env))
      eqn:Hst; cbn [negb];
      [|rewrite filter_cons_False
          by (unfold wanted; rewrite Hm, Hst; discriminate); apply IH].
    destruct (String.eqb (net_Type network) "ovn") eqn:Hovn;
      [rewrite filter_cons_False
         by (unfold wanted; rewrite Hm, Hst, Hovn; discriminate); apply IH|].
    rewrite filter_cons_True by (unfold wanted; rewrite Hm, Hst, Hovn;
                                 reflexivity).
    destruct (if String.eqb project ProjectDefaultName
              then applyNetworkConfig env (net_Name network) memberConfig
                     (net_Config network)
              else Returns (net_Config network)) as [config'|] eqn:Hcfg;
      [|discriminate].
    intros Hrest. apply IH in Hrest as (posts & -> & Hposts).
    eexists (_ :: posts). split; [rewrite <- app_assoc; reflexivity|].
    constructor; [|exact Hposts].
    unfold networkEntry. cbn. repeat (split; [reflexivity|]).
    destruct (String.eqb project ProjectDefaultName);
      [|injection Hcfg as <-; reflexivity].
    destruct (net_Config network) as [config|].
    + rewrite applyNetworkConfig_Some in Hcfg. injection Hcfg as <-.
      reflexivity.
    + rewrite applyNetworkConfig_None in Hcfg.
      destruct (networkOverrides env (net_Name network) memberConfig);
        [injection Hcfg as <-; reflexivity | discriminate].
Qed.

Lemma Forall2_filter_sound {A B} (P : A -> Prop) `{!forall a, Decision (P a)}
    (R : A -> B -> Prop) (l : list A) (k : list B) b :
  Forall2 R (filter P l) k -> b ∈ k -> exists a, a ∈ l /\ P a /\ R a b.
Proof.
  intros HF Hb. apply list_elem_of_lookup in Hb as [i Hi].
  destruct (Forall2_lookup_r _ _ _ _ _ HF Hi) as (a & Ha & HR).
  apply list_elem_of_lookup_2, list_elem_of_filter in Ha as [HP Ha].
  exists a. auto.
Qed.

Lemma features_lookup (config : gmap string string) k :
  filter (fun kv : string * string => String.prefix "features." kv.1 = true)
    config !! k
  = if String.prefix "features." k then config !! k else None.
Proof.
  destruct (String.prefix "features." k) eqn:Hp.
  - destruct (config !! k) as [v|] eqn:Hk.
    + apply map_lookup_filter_Some. split; [exact Hk | exact Hp].
    + apply map_lookup_filter_None. left. exact Hk.
  - apply map_lookup_filter_None. right. intros v _. cbn. rewrite Hp.
    discriminate.
Qed.

(** The loop over the projects: its only calls fetch the networks of a
    project; when it ends it has appended one entry for every project
    that is the default one or has networks of its own, and entries for
    networks that it fetched and that are wanted. *)
Lemma initProjects_spec env projects memberConfig dp dn l out l' :
  initProjects env projects memberConfig dp dn l = (out, l') ->
  exists new, since l l' new /\
    Forall (fun e => exists p r, e = EvGetNetworks p r) new /\
    forall dp' dn', out = Returns (inr (dp', dn')) ->
      exists ap an, dp' = dp ++ ap /\ dn' = dn ++ an /\
        Forall2 projectEntry
          (filter (fun p => withNetworks env p = true) projects) ap /\
        forall post, post ∈ an ->
          exists networks network,
            EvGetNetworks (inp_Project post) (inr networks) ∈ new /\
            network ∈ networks /\ wanted env network = true /\
            networkEntry env memberConfig (inp_Project post) network post.
Proof.
  revert dp dn l. induction projects as [|p rest IH]; intros dp dn l;
    cbn [initProjects].
  - unfold pret. intros [= <- <-]. exists []. split; [apply since_refl|].
    split; [constructor|]. intros dp' dn' [= <- <-]. exists [], [].
    rewrite !app_nil_r. repeat (split; [reflexivity|]).
    split; [apply Forall2_nil; exact I|].
    intros ? H. apply elem_of_nil in H. contradiction.
  - destruct (IsFalseOrEmpty env (get (project_Config p) "features.networks")
              && negb (String.eqb (project_Name p) ProjectDefaultName))
      eqn:Hw.
    2: {
      rewrite filter_cons_True by (unfold withNetworks; rewrite Hw; reflexivity).
      unfold pbind, ask, pret. cbv beta iota zeta.
      destruct (GetNetworks env (project_Name p) l) as [err|networks] eqn:Hg;
        cbv beta iota.
      * intros [= <- <-]. eexists [_]. split; [reflexivity|].
        split; [repeat constructor; eauto|]. intros ? ? [=].
      * destruct (initNetworks env (project_Name p) networks memberConfig dn)
          as [dn1|] eqn:Hn; cbv beta iota.
        -- intros Hrest. apply IH in Hrest as (new & Hs & Hcalls & Hres).
           exists (new ++ [EvGetNetworks (project_Name p) (inr networks)]).
           split; [unfold since in *; rewrite Hs, <- app_assoc; reflexivity|].
           split.
           { apply Forall_app. split; [exact Hcalls|]. repeat constructor.
             eauto. }
           intros dp' dn' Hout.
           destruct (Hres dp' dn' Hout) as (ap & an & -> & -> & Hap & Han).
           apply initNetworks_spec in Hn as (posts & -> & Hposts).
           eexists (_ :: ap), (posts ++ an).
           split; [rewrite <- app_assoc; reflexivity|].
           split; [rewrite <- app_assoc; reflexivity|]. split.
           { constructor; [|exact Hap]. unfold projectEntry. cbn.
             repeat (split; [reflexivity|]). apply features_lookup. }
           intros post Hpost. apply elem_of_app in Hpost as [Hpost | Hpost].
           ++ destruct (Forall2_filter_sound _ _ _ _ _ Hposts Hpost)
                as (network & Hin & Hwanted & Hentry).
              assert (Hproj : inp_Project post = project_Name p)
                by (destruct Hentry as (_ & _ & H & _); exact H).
              rewrite Hproj. exists networks, network.
              split; [apply elem_of_app; right; apply list_elem_of_here|].
              auto.
           ++ destruct (Han post Hpost) as (ns & n & H1 & H2 & H3 & H4).
              exists ns, n. split; [apply elem_of_app; left; exact H1|]. auto.
        -- unfold pret. intros [= <- <-]. eexists [_].
           split; [reflexivity|].
           split; [repeat constructor; eauto|]. intros ? ? [=]. }
    rewrite filter_cons_False
      by (unfold withNetworks; rewrite Hw; discriminate).
    apply IH.
Qed.

(** One run of [clusterInitMember]: the preseed is applied by the last
    call, after the pools, the projects and the networks were fetched. *)
Lemma clusterInitMember_run env memberConfig l out l' :
  clusterInitMember env memberConfig l = (out, l') ->
  exists new, since l l' new /\
    (forall pools, EvGetStoragePools (inr pools) ∈ new ->
       initPools env pools memberConfig [] = Panics -> out = Panics) /\
    forall data res, EvApplyServerPreseed data res ∈ new ->
      exists pools projects fetches,
        new = EvApplyServerPreseed data res :: fetches
              ++ [EvGetProjects (inr projects); EvGetStoragePools (inr pools)] /\
        Forall (fun e => exists p r, e = EvGetNetworks p r) fetches /\
        initPools env pools memberConfig [] = Returns (StoragePools data) /\
        Forall2 projectEntry
          (filter (fun p => withNetworks env p = true) projects)
          (Projects data) /\
        forall post, post ∈ Networks data ->
          exists networks network,
            EvGetNetworks (inp_Project post) (inr networks) ∈ fetches /\
            network ∈ networks /\ wanted env network = true /\
            networkEntry env memberConfig (inp_Project post) network post.
Proof.
  unfold clusterInitMember, pbind, ask, pret. cbv beta iota zeta.
  destruct (GetStoragePools env l) as [err|pools] eqn:Hpools; cbv beta iota.
  { intros [= <- <-]. eexists [_]. split; [reflexivity|].
    split; [intros ? H | intros ? ? H]; elem_cases H. }
  destruct (initPools env pools memberConfig []) as [posts|] eqn:Hposts;
    cbv beta iota.
  2: { intros [= <- <-]. eexists [_]. split; [reflexivity|].
       split; [reflexivity|]. intros ? ? H. elem_cases H. }
  destruct (GetProjects env _) as [err|projects] eqn:Hprojects; cbv beta iota.
  { intros [= <- <-]. eexists [_; _]. split; [reflexivity|]. split.
    - intros ? H. elem_cases H. injection H as ->. congruence.
    - intros ? ? H. elem_cases H. }
  destruct (initProjects env projects memberConfig [] [] _) as [res l1]
    eqn:Hrun.
  apply initProjects_spec in Hrun as (fetches & Hs & Hcalls & Hres).
  assert (Hno : forall e, e ∈ fetches -> exists p r, e = EvGetNetworks p r)
    by (apply Forall_forall, Hcalls).
  assert (Hpanic : forall pools0,
    EvGetStoragePools (inr pools0)
      ∈ fetches ++ [EvGetProjects (inr projects);
                    EvGetStoragePools (inr pools)] ->
    initPools env pools0 memberConfig [] = Panics -> out = Panics).
  { intros pools0 H. apply elem_of_app in H as [H | H].
    - destruct (Hno _ H) as (? & ? & ?). discriminate.
    - elem_cases H. injection H as ->. congruence. }
  assert (Hnone : forall data r,
    EvApplyServerPreseed data r
      ∉ fetches ++ [EvGetProjects (inr projects);
                    EvGetStoragePools (inr pools)]).
  { intros data r H. apply elem_of_app in H as [H | H].
    - destruct (Hno _ H) as (? & ? & ?). discriminate.
    - elem_cases H. }
  destruct res as [[err|[dp dn]]|]; cbv beta iota.
  - intros [= <- <-]. exists (fetches ++ [EvGetProjects (inr projects);
                                          EvGetStoragePools (inr pools)]).
    split; [unfold since in *; rewrite Hs, <- app_assoc; reflexivity|].
    split; [exact Hpanic|]. intros data r H. destruct (Hnone _ _ H).
  - destruct (Hres dp dn eq_refl) as (ap & an & -> & -> & Hap & Han).
    cbn [app] in *.
    set (data := mkInitLocalPreseed posts ap an).
    intros Hout.
    exists (EvApplyServerPreseed data (ApplyServerPreseed env data l1)
            :: fetches ++ [EvGetProjects (inr projects);
                           EvGetStoragePools (inr pools)]).
    split.
    { unfold since in *.
      destruct (ApplyServerPreseed env data l1); injection Hout as <- <-;
        rewrite Hs; cbn; rewrite <- app_assoc; reflexivity. }
    split.
    { intros pools0 H. apply elem_of_cons in H as [H | H]; [discriminate|].
      intros Hp. rewrite (Hpanic pools0 H Hp) in Hout.
      destruct (ApplyServerPreseed env data l1); discriminate. }
    intros data' r H. apply elem_of_cons in H as [H | H];
      [|destruct (Hnone _ _ H)].
    injection H as -> ->. exists pools, projects, fetches.
    split; [reflexivity|]. split; [exact Hcalls|].
    split; [exact Hposts|]. split; [exact Hap | exact Han].
  - intros [= <- <-]. exists (fetches ++ [EvGetProjects (inr projects);
                                          EvGetStoragePools (inr pools)]).
    split; [unfold since in *; rewrite Hs, <- app_assoc; reflexivity|].
    split; [reflexivity|]. intros data r H. destruct (Hnone _ _ H).
Qed.

(** X14: the storage pools of the preseed.  Whenever [clusterInitMember]
    applies a preseed, its storage pools are, in order, the pools fetched
    from the cluster that are not pending, each with its name, driver and
    description and with the cluster's configuration without
    [volatile.initial_source] and [zfs.pool_name], overridden by the values
    the user gave for that pool under node-specific keys (the last value
    given for a key wins; other keys of the user are ignored).  A pool that
    is not pending and has no configuration map makes the function panic
    as soon as the user gives such a value for it. *)
Theorem clusterInitMember_pools env memberConfig l out l' :
  clusterInitMember env memberConfig l = (out, l') ->
  exists new, since l l' new /\
    (forall data res, EvApplyServerPreseed data res ∈ new ->
       exists pools, EvGetStoragePools (inr pools) ∈ new /\
         Forall2 (initialised env memberConfig)
           (filter (fun pool => pending pool = false) pools)
           (StoragePools data)) /\
    (forall pools pool, EvGetStoragePools (inr pools) ∈ new ->
       pool ∈ pools -> pending pool = false -> pool_Config pool = None ->
       poolOverrides env (pool_Name pool) memberConfig <> [] ->
       out = Panics).
Proof.
  intros Hrun. apply clusterInitMember_run in Hrun as (new & Hs & Hpanic & Happly).
  exists new. split; [exact Hs|]. split.
  - intros data res H.
    destruct (Happly data res H) as (pools & projects & fetches & -> & _ & Hp & _).
    exists pools. split.
    { apply list_elem_of_further, elem_of_app. right.
      apply list_elem_of_further, list_elem_of_here. }
    destruct (initPools_spec env pools memberConfig [])
      as [(posts & Hposts & HF & _) | (Hposts & _)]; [|congruence].
    rewrite Hposts in Hp. injection Hp as <-. exact HF.
  - intros pools pool Hin Hpool Hpend Hnil Hovr. apply (Hpanic pools Hin).
    destruct (initPools_spec env pools memberConfig [])
      as [(posts & _ & _ & Hnone) | (Hposts & _)]; [|exact Hposts].
    destruct (Hovr (Hnone pool Hpool Hpend Hnil)).
Qed.

Lemma clusterInitMember_pools_witness :
  exists new,
    since [] (clusterInitMember small_cluster member_config []).2 new /\
    (forall data res, EvApplyServerPreseed data res ∈ new ->
       exists pools, EvGetStoragePools (inr pools) ∈ new /\
         Forall2 (initialised small_cluster member_config)
           (filter (fun pool => pending pool = false) pools)
           (StoragePools data)) /\
    (forall pools pool, EvGetStoragePools (inr pools) ∈ new ->
       pool ∈ pools -> pending pool = false -> pool_Config pool = None ->
       poolOverrides small_cluster (pool_Name pool) member_config <> [] ->
       (clusterInitMember small_cluster member_config []).1 = Panics).
Proof.
  apply (clusterInitMember_pools small_cluster member_config []).
  vm_compute. reflexivity.
Defined.



End JoiningTheorems.

(** ** [PUT /1.0/cluster]: the addresses of a new cluster member *)

Lemma ClusterAddress_withClusterAddress address config :
  config_ClusterAddress (withClusterAddress address config) = address.
Proof.
  unfold config_ClusterAddress, withClusterAddress, get.
  rewrite lookup_insert_eq. reflexivity.
Qed.

(** X16: bootstrapping replaces the cached node configuration only after
    the node transaction committed, by the configuration read in that
    transaction: as it is when [cluster.https_address] is set, and otherwise
    with [cluster.https_address] set to [core.https_address], which is then
    not a wildcard address and was patched in the same transaction.  In
    every other case the response is an error and the cache is left as it
    was. *)
Theorem clusterPutBootstrap_address env r req d resp d' :
  clusterPutBootstrap env r req d = (resp, d') ->
  exists new, log d' = new ++ log d /\
    ((is_error_response resp = true /\ localConfig d' = localConfig d /\
      EvTxCommit NodeDB None ∉ new) \/
     exists config,
       EvTxCommit NodeDB None ∈ new /\ EvConfigLoad (inr config) ∈ new /\
       if String.eqb (config_ClusterAddress config) "" then
         IsWildCardAddress env (config_HTTPSAddress config) = false /\
         EvConfigPatch [("cluster.https_address", config_HTTPSAddress config)]
           None ∈ new /\
         localConfig d' = withClusterAddress (config_HTTPSAddress config) config
       else
         localConfig d' = config /\
         forall patch res, EvConfigPatch patch res ∉ new).
Proof.
  unfold clusterPutBootstrap. run_handler; intros [= <- <-]; cbn.
  all: eexists; split; [solve_since|].
  all: try (left; split; [reflexivity|]; split; [reflexivity|];
            intros Hin; elem_cases Hin).
  all: right; eexists; split; [find_call|]; split; [find_call|].
  all: match goal with
       | H : negb (String.eqb _ "") = _ |- _ =>
           apply (f_equal negb) in H; rewrite negb_involutive in H; cbn in H;
           rewrite H
       end.
  all: try (split; [reflexivity|]; intros patch res Hin; elem_cases Hin).
  all: split; [assumption|]; split; [find_call | reflexivity].
Qed.

Lemma clusterPutBootstrap_address_witness :
  exists new,
    log (clusterPutBootstrap (scenarioEnv bootstrap_n1) (request "")
           (sc_ClusterPut bootstrap_n1) daemon_alone).2
      = new ++ log daemon_alone /\
    ((is_error_response
        (clusterPutBootstrap (scenarioEnv bootstrap_n1) (request "")
           (sc_ClusterPut bootstrap_n1) daemon_alone).1 = true /\
      localConfig (clusterPutBootstrap (scenarioEnv bootstrap_n1) (request "")
                     (sc_ClusterPut bootstrap_n1) daemon_alone).2
        = localConfig daemon_alone /\
      EvTxCommit NodeDB None ∉ new) \/
     exists config,
       EvTxCommit NodeDB None ∈ new /\ EvConfigLoad (inr config) ∈ new /\
       if String.eqb (config_ClusterAddress config) "" then
         IsWildCardAddress (scenarioEnv bootstrap_n1)
           (config_HTTPSAddress config) = false /\
         EvConfigPatch [("cluster.https_address", config_HTTPSAddress config)]
           None ∈ new /\
         localConfig (clusterPutBootstrap (scenarioEnv bootstrap_n1)
                        (request "") (sc_ClusterPut bootstrap_n1)
                        daemon_alone).2
           = withClusterAddress (config_HTTPSAddress config) config
       else
         localConfig (clusterPutBootstrap (scenarioEnv bootstrap_n1)
                        (request "") (sc_ClusterPut bootstrap_n1)
                        daemon_alone).2 = config /\
         forall patch res, EvConfigPatch patch res ∉ new).
Proof.
  apply (clusterPutBootstrap_address (scenarioEnv bootstrap_n1) (request "")
           (sc_ClusterPut bootstrap_n1) daemon_alone).
  vm_compute. reflexivity.
Defined.

(** X17: a join is started only on a server that is not clustered, for a
    request with a cluster certificate and a server address that passes
    [IsListenAddress].  If [cluster.https_address] was set it covers the
    server address and the cached configuration is left as it was;
    otherwise the cache holds the configuration read in a committed node
    transaction with [cluster.https_address] set to the server address, and
    with [core.https_address] set to it as well when the server had no
    address at all, after the daemon started to listen on it. *)
Theorem clusterPutJoin_address env r req d op d' :
  clusterPutJoin env r req d = (OperationResponse op, d') ->
  serverClustered d = false /\
  ClusterCertificate req <> "" /\ ServerAddress req <> "" /\
  IsListenAddress env (ServerAddress req) = None /\
  exists new, log d' = new ++ log d /\
    if negb (String.eqb (config_ClusterAddress (localConfig d)) "") then
      IsAddressCovered env (ServerAddress req)
        (config_ClusterAddress (localConfig d)) = true /\
      localConfig d' = localConfig d
    else
      exists config,
        EvTxCommit NodeDB None ∈ new /\ EvConfigLoad (inr config) ∈ new /\
        if String.eqb (config_HTTPSAddress (localConfig d)) "" then
          EvNetworkUpdateAddress (ServerAddress req) None ∈ new /\
          localConfig d' =
            withClusterAddress (ServerAddress req)
              (<["core.https_address" := ServerAddress req]> config)
        else
          localConfig d' = withClusterAddress (ServerAddress req) config /\
          (IsAddressCovered env (ServerAddress req)
             (config_HTTPSAddress (localConfig d)) = false ->
           EvClusterUpdateAddress (ServerAddress req) None ∈ new).
Proof.
  unfold clusterPutJoin, patchLocalConfig.
  destruct (String.eqb_spec (ClusterCertificate req) "") as [|Hcert];
    [unfold ret; discriminate|].
  unfold bind at 1, get_daemon at 1.
  destruct (serverClustered d) eqn:Hclustered; [unfold ret; discriminate|].
  destruct (String.eqb_spec (ServerAddress req) "") as [|Haddr];
    [unfold ret; discriminate|].
  destruct (IsListenAddress env (ServerAddress req)) eqn:Hlisten;
    [unfold ret; discriminate|].
  intros Hrun. repeat (split; [first [reflexivity | assumption]|]).
  revert Hrun.
  destruct (String.eqb (config_ClusterAddress (localConfig d)) "") eqn:Hc;
    cbn [negb].
  - destruct (String.eqb (config_HTTPSAddress (localConfig d)) "") eqn:Hh.
    + run_handler; intros [= <- <-]; cbn.
      eexists; split; [solve_since|].
      eexists; split; [find_call|]; split; [find_call|].
      split; [find_call | reflexivity].
    + run_handler; intros [= <- <-]; cbn.
      all: eexists; split; [solve_since|].
      all: eexists; split; [find_call|]; split; [find_call|].
      all: split; [reflexivity|].
      all: first
        [ intros Hcov;
          match goal with
          | H : negb _ = false |- _ => rewrite Hcov in H; discriminate H
          end
        | intros _; find_call ].
  - run_handler; intros [= <- <-]; cbn.
    eexists; split; [solve_since|]. split; [|reflexivity].
    match goal with
    | H : negb _ = false |- _ =>
        apply (f_equal negb) in H; rewrite negb_involutive in H; exact H
    end.
Qed.

Lemma clusterPutJoin_address_witness :
  serverClustered daemon_joining = false /\
  ClusterCertificate (sc_ClusterPut join_n2) <> "" /\
  ServerAddress (sc_ClusterPut join_n2) <> "" /\
  IsListenAddress (scenarioEnv join_n2) (ServerAddress (sc_ClusterPut join_n2))
    = None /\
  exists new,
    log (clusterPutJoin (scenarioEnv join_n2) (request "")
           (sc_ClusterPut join_n2) daemon_joining).2
      = new ++ log daemon_joining /\
    if negb (String.eqb (config_ClusterAddress (localConfig daemon_joining)) "")
    then
      IsAddressCovered (scenarioEnv join_n2)
        (ServerAddress (sc_ClusterPut join_n2))
        (config_ClusterAddress (localConfig daemon_joining)) = true /\
      localConfig (clusterPutJoin (scenarioEnv join_n2) (request "")
                     (sc_ClusterPut join_n2) daemon_joining).2
        = localConfig daemon_joining
    else
      exists config,
        EvTxCommit NodeDB None ∈ new /\ EvConfigLoad (inr config) ∈ new /\
        if String.eqb (config_HTTPSAddress (localConfig daemon_joining)) ""
        then
          EvNetworkUpdateAddress (ServerAddress (sc_ClusterPut join_n2)) None
            ∈ new /\
          localConfig (clusterPutJoin (scenarioEnv join_n2) (request "")
                         (sc_ClusterPut join_n2) daemon_joining).2 =
            withClusterAddress (ServerAddress (sc_ClusterPut join_n2))
              (<["core.https_address" := ServerAddress (sc_ClusterPut join_n2)]>
                 config)
        else
          localConfig (clusterPutJoin (scenarioEnv join_n2) (request "")
                         (sc_ClusterPut join_n2) daemon_joining).2
            = withClusterAddress (ServerAddress (sc_ClusterPut join_n2)) config /\
          (IsAddressCovered (scenarioEnv join_n2)
             (ServerAddress (sc_ClusterPut join_n2))
             (config_HTTPSAddress (localConfig daemon_joining)) = false ->
           EvClusterUpdateAddress (ServerAddress (sc_ClusterPut join_n2)) None
             ∈ new).
Proof.
  apply (clusterPutJoin_address (scenarioEnv join_n2) (request "")
           (sc_ClusterPut join_n2) daemon_joining
           (mkOperation "op6" "" OperationClassTask ClusterJoin Pending ∅
              (RunJoin (sc_ClusterPut join_n2)))).
  vm_compute. reflexivity.
Defined.

(** ** [DELETE /1.0/cluster/members/{name}] with [force=1] *)

Section Forced.

Variables (env : Env) (r : Request).

Local Abbreviation F := (fun e => forced_only e = true).

Lemma forced_Transaction {A} db (f : M (Error + A)) :
  emits F f -> emits F (Transaction env db f).
Proof. intros Hf. unfold Transaction. solve_emits. Qed.

Lemma forced_changeMemberRole address nodes :
  emits F (changeMemberRole env address nodes).
Proof. unfold changeMemberRole, check. solve_emits. Qed.

Lemma forced_removeClusterFiles suffixes :
  emits F (removeClusterFiles env suffixes).
Proof. induction suffixes; cbn [removeClusterFiles]; solve_emits. Qed.

Lemma forced_promoteRemaining leader seen rest :
  emits F (promoteRemaining env leader seen rest).
Proof.
  revert seen. induction rest; intros seen; cbn [promoteRemaining].
  - solve_emits.
  - destruct (_ && _); [apply forced_changeMemberRole|apply IHrest].
Qed.

Lemma forced_processDemotions address nodes :
  emits F (processDemotions env address nodes).
Proof. induction nodes; cbn [processDemotions]; solve_emits. Qed.

Local Hint Resolve forced_Transaction forced_changeMemberRole
  forced_removeClusterFiles forced_promoteRemaining forced_processDemotions
  : emits.

Lemma forced_rebalanceAgain fuel : emits F (rebalanceAgain env fuel).
Proof. induction fuel; cbn [rebalanceAgain]; solve_emits. Qed.

Local Hint Resolve forced_rebalanceAgain : emits.

Lemma forced_rebalanceMemberRoles fuel :
  emits F (rebalanceMemberRoles env fuel).
Proof. unfold rebalanceMemberRoles. solve_emits. Qed.

Lemma forced_clusterPutDisable req : emits F (clusterPutDisable env r req).
Proof. unfold clusterPutDisable, check, orReturn. solve_emits. Qed.

Local Hint Resolve forced_rebalanceMemberRoles forced_clusterPutDisable
  : emits.


End Forced.


(** ** [POST /internal/cluster/accept] *)



(** ** Starting the instances at boot *)

Section AutostartTheorems.

Import Autostart.

(** The comparison of two instances by a priority key, as both lists of
    instances make it. *)
Lemma priority_order (priority : Instance -> string) (atoi : string -> Z)
    (less : Instance -> Instance -> bool) :
  (forall a b, less a b =
     if negb (String.eqb (priority a) (priority b))
     then Z.gtb (atoi (priority a)) (atoi (priority b))
     else string_lt (inst_Name a) (inst_Name b)) ->
  strict_order less /\
  (forall a b, (atoi (priority a) > atoi (priority b))%Z ->
     less a b = true /\ less b a = false) /\
  (forall a b, priority a = priority b ->
     less a b = string_lt (inst_Name a) (inst_Name b)).
Proof.
  intros Hless.
  assert (Hdiff : forall a b, (atoi (priority a) <> atoi (priority b))%Z ->
            String.eqb (priority a) (priority b) = false).
  { intros a b Hne. apply String.eqb_neq. intros Heq. apply Hne.
    rewrite Heq. reflexivity. }
  split; [split|split].
  - intros a. rewrite Hless, String.eqb_refl. cbn. apply string_lt_irrefl.
  - intros a b c. rewrite !Hless.
    destruct (String.eqb_spec (priority a) (priority b)) as [Hab|Hab];
      destruct (String.eqb_spec (priority b) (priority c)) as [Hbc|Hbc];
      cbn [negb].
    + rewrite Hab, Hbc, String.eqb_refl. cbn. apply string_lt_trans.
    + rewrite Hab. destruct (String.eqb_spec (priority b) (priority c));
        [contradiction|]. cbn. auto.
    + rewrite <- Hbc. destruct (String.eqb_spec (priority a) (priority b));
        [contradiction|]. cbn. auto.
    + intros H1 H2. rewrite Hdiff by lia. cbn. lia.
  - intros a b Hgt. rewrite !Hless, !Hdiff by lia. cbn. lia.
  - intros a b Heq. rewrite Hless, Heq, String.eqb_refl. reflexivity.
Qed.

(** X20: both orders in which instances are started and stopped are
    strict orders (no instance comes before itself, and the comparison is
    transitive) that put an instance with a higher numeric priority first,
    whatever the names, and order instances with the same priority text by
    name. *)
Theorem instance_lists_order (strconv_Atoi : string -> Z * option Error) :
  let autostart inst := get (inst_ExpandedConfig inst) "boot.autostart.priority" in
  let stop inst := get (inst_ExpandedConfig inst) "boot.stop.priority" in
  let number s := (strconv_Atoi s).1 in
  (strict_order (instanceAutostartList_Less strconv_Atoi) /\
   (forall a b, (number (autostart a) > number (autostart b))%Z ->
      instanceAutostartList_Less strconv_Atoi a b = true /\
      instanceAutostartList_Less strconv_Atoi b a = false) /\
   (forall a b, autostart a = autostart b ->
      instanceAutostartList_Less strconv_Atoi a b
      = string_lt (inst_Name a) (inst_Name b))) /\
  (strict_order (instanceStopList_Less strconv_Atoi) /\
   (forall a b, (number (stop a) > number (stop b))%Z ->
      instanceStopList_Less strconv_Atoi a b = true /\
      instanceStopList_Less strconv_Atoi b a = false) /\
   (forall a b, stop a = stop b ->
      instanceStopList_Less strconv_Atoi a b
      = string_lt (inst_Name a) (inst_Name b))).
Proof.
  intros autostart stop number. split.
  - apply (priority_order autostart number). reflexivity.
  - apply (priority_order stop number). reflexivity.
Qed.

Lemma instance_lists_order_witness :
  instanceAutostartList_Less atoi_small db1 web1 = true /\
  instanceAutostartList_Less atoi_small web1 db1 = false.
Proof.
  apply (proj1 (proj2 (proj1 (instance_lists_order atoi_small))) db1 web1).
  reflexivity.
Defined.

(** *** [instancesStart] *)

Section Start.

Variables (env : Env) (strconv_Atoi : string -> Z * option Error)
  (IsServiceUnavailable : Error -> bool) (Sprintf_v : Error -> string)
  (sort_Sort : list Instance -> list Instance)
  (IsRunning : Instance -> Log -> bool)
  (Start : Instance -> Log -> option Error)
  (UpsertWarningLocalNode : Instance -> string -> Log -> option Error)
  (ResolveWarnings : Instance -> Log -> option Error).

Local Abbreviation rule := (start_rule IsServiceUnavailable Sprintf_v).

Lemma ordered_nil l : ordered rule [] l.
Proof. intros i e H. destruct i; discriminate H. Qed.

Lemma ordered_cons e new l :
  rule e (new ++ l) -> ordered rule new l -> ordered rule (e :: new) l.
Proof.
  intros He Hnew [|i] e'; cbn.
  - intros [= <-]. exact He.
  - apply Hnew.
Qed.

Lemma ordered_app new2 new1 l :
  ordered rule new2 (new1 ++ l) -> ordered rule new1 l ->
  ordered rule (new2 ++ new1) l.
Proof.
  intros H2 H1 i e Hi. rewrite <- app_assoc.
  destruct (decide (i < length new2)%nat) as [Hlt|Hge].
  - rewrite lookup_app_l in Hi by exact Hlt. apply H2, Hi.
  - rewrite lookup_app_r in Hi by lia.
    rewrite drop_app_ge by lia.
    replace (S i - length new2)%nat with (S (i - length new2)) by lia.
    apply H1, Hi.
Qed.

Lemma starts_of_app inst new2 new1 :
  starts_of inst (new2 ++ new1) = starts_of inst new2 ++ starts_of inst new1.
Proof. apply filter_app. Qed.

(** The loop over one instance ends within the attempts that are left. *)
Lemma startAttempts_run fuel attempt inst delay l :
  (attempt < maxAttempts)%nat -> (maxAttempts <= fuel + attempt)%nat ->
  rule (EvStart inst None) l ->
  exists new,
    startAttempts strconv_Atoi IsServiceUnavailable Sprintf_v Start
      UpsertWarningLocalNode ResolveWarnings fuel attempt inst delay l
    = (true, new ++ l) /\
    ordered rule new l /\
    Forall (fun e => attempt_call inst e = true) new /\
    (length (starts_of inst new) <= maxAttempts - attempt)%nat.
Proof.
  revert attempt l. induction fuel as [|fuel IH]; intros attempt l Ha Hf Hl.
  { unfold maxAttempts in *. lia. }
  cbn [startAttempts]. unfold pbind, ask, tell, pret.
  assert (Hself : bool_decide (inst = inst) = true)
    by (apply bool_decide_eq_true; reflexivity).
  destruct (Start inst l) as [err|] eqn:Hstart.
  - destruct (IsServiceUnavailable err) eqn:H503.
    + eexists [_]. split; [reflexivity|]. split.
      { apply ordered_cons; [exact Hl | apply ordered_nil]. }
      split; [repeat constructor; exact Hself|].
      unfold starts_of. rewrite filter_cons_True by exact Hself.
      cbn. unfold maxAttempts in *. lia.
    + destruct (maxAttempts <=? S attempt)%nat eqn:Hmax.
      * eexists [_; _]. split; [reflexivity|]. split.
        { apply ordered_cons; [|apply ordered_cons;
                                 [exact Hl | apply ordered_nil]].
          cbn. eauto. }
        split; [repeat constructor; exact Hself|].
        unfold starts_of. rewrite filter_cons_False by (cbn; discriminate).
        rewrite filter_cons_True by exact Hself.
        cbn. unfold maxAttempts in *. lia.
      * apply Nat.leb_gt in Hmax.
        destruct (IH (S attempt)
                    (EvSleep 5 :: EvStart inst (Some err) :: l))
          as (new & Hrun & Hord & Hall & Hlen);
          [exact Hmax | lia | right; eauto |].
        exists (new ++ [EvSleep 5; EvStart inst (Some err)]).
        split; [rewrite <- app_assoc; exact Hrun|]. split.
        { apply ordered_app; [exact Hord|].
          apply ordered_cons; [exact I|].
          apply ordered_cons; [exact Hl | apply ordered_nil]. }
        split.
        { apply Forall_app. split; [exact Hall|].
          repeat constructor. exact Hself. }
        rewrite starts_of_app, length_app. unfold starts_of at 2.
        rewrite filter_cons_False by (cbn; discriminate).
        rewrite filter_cons_True by exact Hself.
        cbn. unfold maxAttempts in *. lia.
  - assert (Hres : forall r,
      rule (EvResolveWarnings inst r) (EvStart inst None :: l))
      by (intros r; cbn; eauto).
    destruct (strconv_Atoi delay) as [n [e|]].
    + eexists [_; _]. split; [reflexivity|]. split.
      { apply ordered_cons; [apply Hres|].
        apply ordered_cons; [exact Hl | apply ordered_nil]. }
      split; [repeat constructor; exact Hself|].
      unfold starts_of. rewrite filter_cons_False by (cbn; discriminate).
      rewrite filter_cons_True by exact Hself.
      cbn. unfold maxAttempts in *. lia.
    + eexists [_; _; _]. split; [reflexivity|]. split.
      { apply ordered_cons; [exact I|].
        apply ordered_cons; [apply Hres|].
        apply ordered_cons; [exact Hl | apply ordered_nil]. }
      split; [repeat constructor; exact Hself|].
      unfold starts_of. rewrite !filter_cons_False by (cbn; discriminate).
      rewrite filter_cons_True by exact Hself.
      cbn. unfold maxAttempts in *. lia.
Qed.

Lemma starts_of_other inst inst' new :
  inst' <> inst ->
  Forall (fun e => attempt_call inst e = true) new ->
  starts_of inst' new = [].
Proof.
  intros Hne Hall. unfold starts_of. induction Hall as [|e new He _ IH];
    [reflexivity|].
  rewrite filter_cons_False; [exact IH|].
  destruct e; cbn in *; try discriminate.
  apply bool_decide_eq_true in He as ->.
  rewrite bool_decide_eq_false_2 by congruence. discriminate.
Qed.

Lemma attempt_call_facts inst new :
  Forall (fun e => attempt_call inst e = true) new ->
  Forall (fun e => is_mutex_call e = false) new /\
  forall inst' res, EvStart inst' res ∈ new -> inst' = inst.
Proof.
  intros Hall. split.
  - eapply Forall_impl; [exact Hall|]. intros [] He; cbn in *;
      first [reflexivity | discriminate].
  - intros inst' res Hin. apply (proj1 (Forall_forall _ _) Hall) in Hin.
    cbn in Hin. apply bool_decide_eq_true in Hin. exact Hin.
Qed.

(** The loop over the instances. *)
Lemma startEach_run fuel instances l :
  (maxAttempts <= fuel)%nat ->
  exists new,
    startEach env strconv_Atoi IsServiceUnavailable Sprintf_v IsRunning Start
      UpsertWarningLocalNode ResolveWarnings fuel instances l
    = (true, new ++ l) /\
    ordered rule new l /\
    Forall (fun e => is_mutex_call e = false) new /\
    (forall inst res, EvStart inst res ∈ new ->
       inst ∈ instances /\ instanceShouldAutoStart env inst = true) /\
    forall inst,
      (length (starts_of inst new)
       <= maxAttempts * length (filter (fun i => i = inst) instances))%nat.
Proof.
  intros Hfuel. revert l.
  induction instances as [|inst rest IH]; intros l; cbn [startEach].
  { exists []. split; [reflexivity|]. split; [apply ordered_nil|].
    split; [constructor|]. split.
    - intros ? ? H. apply elem_of_nil in H. contradiction.
    - intros ?. cbn. lia. }
  assert (Hskip : forall pre,
    Forall (fun e => is_mutex_call e = false) pre ->
    ordered rule pre l ->
    (forall inst' res, EvStart inst' res ∈ pre ->
       inst' = inst /\ instanceShouldAutoStart env inst = true) ->
    (forall inst', inst' <> inst -> starts_of inst' pre = []) ->
    (length (starts_of inst pre) <= maxAttempts)%nat ->
    exists new,
      startEach env strconv_Atoi IsServiceUnavailable Sprintf_v IsRunning
        Start UpsertWarningLocalNode ResolveWarnings fuel rest (pre ++ l)
      = (true, new ++ l) /\
      ordered rule new l /\
      Forall (fun e => is_mutex_call e = false) new /\
      (forall inst' res, EvStart inst' res ∈ new ->
         inst' ∈ inst :: rest /\ instanceShouldAutoStart env inst' = true) /\
      forall inst',
        (length (starts_of inst' new)
         <= maxAttempts
            * length (filter (fun i => i = inst') (inst :: rest)))%nat).
  { intros pre Hmu Hord Hstarts Hother Hlen.
    destruct (IH (pre ++ l)) as (new & Hrun & Hord' & Hmu' & Hin & Hcount).
    exists (new ++ pre). split; [rewrite <- app_assoc; exact Hrun|].
    split; [apply ordered_app; assumption|].
    split; [apply Forall_app; split; assumption|]. split.
    - intros inst' res H. apply elem_of_app in H as [H | H].
      + destruct (Hin _ _ H). split; [apply list_elem_of_further|]; assumption.
      + destruct (Hstarts _ _ H) as [-> ?].
        split; [apply list_elem_of_here | assumption].
    - intros inst'. rewrite starts_of_app, length_app.
      specialize (Hcount inst').
      destruct (decide (inst = inst')) as [<-|Hne].
      + rewrite filter_cons_True by reflexivity. cbn [length]. lia.
      + rewrite filter_cons_False by exact Hne.
        rewrite (Hother inst') by congruence. cbn [length]. lia. }
  destruct (instanceShouldAutoStart env inst) eqn:Hshould; cbn [negb].
  2: { apply (Hskip []); [constructor | apply ordered_nil | | reflexivity
                         | cbn; lia].
       intros ? ? H. apply elem_of_nil in H. contradiction. }
  unfold pbind, ask. destruct (IsRunning inst l) eqn:Hrunning.
  { apply (Hskip [EvIsRunning inst true]).
    - repeat constructor.
    - apply ordered_cons; [exact I | apply ordered_nil].
    - intros ? ? H. elem_cases H.
    - reflexivity.
    - unfold starts_of. rewrite filter_cons_False by (cbn; discriminate).
      cbn. lia. }
  destruct (startAttempts_run fuel 0 inst
              (get (inst_ExpandedConfig inst) "boot.autostart.delay")
              (EvIsRunning inst false :: l))
    as (new & Hrun & Hord & Hall & Hlen);
    [unfold maxAttempts; lia | lia | left; eauto |].
  rewrite Hrun.
  destruct (attempt_call_facts inst new Hall) as [Hmu Honly].
  change (new ++ EvIsRunning inst false :: l)
    with (new ++ [EvIsRunning inst false] ++ l).
  rewrite app_assoc.
  apply (Hskip (new ++ [EvIsRunning inst false])).
  - apply Forall_app. split; [exact Hmu | repeat constructor].
  - apply ordered_app; [exact Hord|].
    apply ordered_cons; [exact I | apply ordered_nil].
  - intros inst' res H. apply elem_of_app in H as [H | H]; [|elem_cases H].
    split; [apply (Honly _ _ H) | reflexivity].
  - intros inst' Hne. rewrite starts_of_app.
    rewrite (starts_of_other inst inst' new Hne Hall). reflexivity.
  - rewrite starts_of_app, length_app. unfold starts_of at 2.
    rewrite filter_cons_False by (cbn; discriminate). cbn. lia.
Qed.

(** X21: with fuel for three turns of the retry loop, [instancesStart]
    ends, and has held the start mutex from its first call to its last.  It
    starts only instances of the list that are to be started at boot, each
    at most three times for every time it is listed; every start is a first
    attempt made right after the instance was found not to be running, or a
    retry made five seconds after an attempt that failed with an error
    other than "service unavailable"; a warning is recorded only right
    after a failed attempt, with the text of its error, and warnings are
    resolved only right after a successful start. *)
Theorem instancesStart_attempts fuel instances l :
  (forall l, sort_Sort l ≡ₚ l) ->
  (maxAttempts <= fuel)%nat ->
  exists new,
    instancesStart env strconv_Atoi IsServiceUnavailable Sprintf_v sort_Sort
      IsRunning Start UpsertWarningLocalNode ResolveWarnings fuel instances l
    = (true, EvUnlock :: new ++ EvLock :: l) /\
    Forall (fun e => is_mutex_call e = false) new /\
    (forall inst res, EvStart inst res ∈ new ->
       inst ∈ instances /\ instanceShouldAutoStart env inst = true) /\
    (forall inst,
       (length (starts_of inst new)
        <= maxAttempts * length (filter (fun i => i = inst) instances))%nat) /\
    ordered rule new (EvLock :: l).
Proof.
  intros Hsort Hfuel. unfold instancesStart, pbind, tell, pret.
  destruct (startEach_run fuel (sort_Sort instances) (EvLock :: l) Hfuel)
    as (new & Hrun & Hord & Hmu & Hin & Hcount).
  rewrite Hrun. exists new. split; [reflexivity|]. split; [exact Hmu|].
  split; [|split; [|exact Hord]].
  - intros inst res H. destruct (Hin inst res H) as [Hl Hs].
    split; [|exact Hs]. rewrite <- (Hsort instances). exact Hl.
  - intros inst. specialize (Hcount inst).
    rewrite (Hsort instances) in Hcount. exact Hcount.
Qed.

End Start.

Lemma instancesStart_attempts_witness :
  exists new,
    instancesStart (scenarioEnv quiet) atoi_small
      (fun err => String.eqb err "not ready") (fun err => err) (fun l => l)
      (fun inst _ => inst_IsRunning inst) start_second
      (fun _ _ _ => None) (fun _ _ => None) 3 [db1; cache1; web1] []
    = (true, EvUnlock :: new ++ EvLock :: []) /\
    Forall (fun e => is_mutex_call e = false) new /\
    (forall inst res, EvStart inst res ∈ new ->
       inst ∈ [db1; cache1; web1] /\
       instanceShouldAutoStart (scenarioEnv quiet) inst = true) /\
    (forall inst,
       (length (starts_of inst new)
        <= maxAttempts
           * length (filter (fun i => i = inst) [db1; cache1; web1]))%nat) /\
    ordered (start_rule (fun err => String.eqb err "not ready")
               (fun err => err)) new (EvLock :: []).
Proof.
  apply (instancesStart_attempts (scenarioEnv quiet) atoi_small
           (fun err => String.eqb err "not ready") (fun err => err)
           (fun l => l) (fun inst _ => inst_IsRunning inst) start_second
           (fun _ _ _ => None) (fun _ _ => None) 3 [db1; cache1; web1] []).
  - intros l. reflexivity.
  - unfold maxAttempts. lia.
Defined.

End AutostartTheorems.
